(** * Protocol coordination engine of credo-ts: message pickup (v2) and
      issue-credential (v2)

    A shallow embedding of

    - [packages/didcomm/src/modules/message-pickup/protocol/v2/V2MessagePickupProtocol.ts]
      and its [V2StatusHandler],
    - [samples/mediator-cluster/PostgreSQLMessageRepository.ts],
    - [packages/didcomm/src/modules/credentials/protocol/v2/V2DidCommCredentialProtocol.ts],

    together with the properties the specification states about them.

    Asynchronous methods are embedded as computations in a state-and-error
    monad: a call receives the persisted world, and yields either a value or
    the error it threw, next to the world it leaves behind. *)

From Stdlib Require Import List String ZArith Bool Lia Arith.
From Stdlib Require Import DecimalString.
Import ListNotations.

Set Implicit Arguments.

(* ------------------------------------------------------------------ *)
(** * Errors and effects *)
(* ------------------------------------------------------------------ *)

Inductive RoutingProblemReportReason : Type :=
| ErrorProcessingAttachments.

(** Every failure of the engine is a thrown [CredoError] (or its subclass
    [ProblemReportError]); the constructors name the failures after the
    taxonomy of the specification, one per [throw] site family. *)
Inductive Error : Type :=
| ConnectionNotReady
| ProblemReportError (problemCode : RoutingProblemReportReason)
| QueryFailed
| InvalidStateTransition
| UnsupportedFormat
| NoSupportedFormats
| NegotiationNotSupported
| NotFound
| CredoError (message : string).

Inductive Result (A : Type) : Type :=
| Ok (a : A)
| Err (e : Error).

Arguments Ok {A} a.
Arguments Err {A} e.

Definition isOk {A} (r : Result A) : bool :=
  match r with Ok _ => true | Err _ => false end.

(** A computation over a world [W]: the outcome and the world left behind.
    A thrown error keeps whatever was written before the [throw]. *)
Definition M (W A : Type) : Type := W -> Result A * W.

Definition ret {W A} (a : A) : M W A := fun w => (Ok a, w).

Definition throw {W A} (e : Error) : M W A := fun w => (Err e, w).

Definition bind {W A B} (m : M W A) (k : A -> M W B) : M W B :=
  fun w =>
    match m w with
    | (Ok a, w') => k a w'
    | (Err e, w') => (Err e, w')
    end.

Definition lift {W A} (r : Result A) : M W A := fun w => (r, w).

Definition gets {W A} (f : W -> A) : M W A := fun w => (Ok (f w), w).

Definition modify {W} (f : W -> W) : M W unit := fun w => (Ok tt, f w).

Declare Scope effect_scope.
Delimit Scope effect_scope with effect.

Notation "x <- m ;; k" := (bind m (fun x => k))
  (at level 61, m at next level, right associativity) : effect_scope.
Notation "m ;;; k" := (bind m (fun _ => k))
  (at level 61, right associativity) : effect_scope.

(** JavaScript truthiness of the values the code tests with [!x], [x ? a : b]
    and [if (x)]. *)
Definition truthyString (s : string) : bool :=
  negb (String.eqb s EmptyString).

Definition truthyOptString (s : option string) : bool :=
  match s with
  | Some v => truthyString v
  | None => false
  end.

Definition truthyNumber (n : Z) : bool := negb (Z.eqb n 0).

Definition truthyOptNumber (n : option Z) : bool :=
  match n with
  | Some v => truthyNumber v
  | None => false
  end.

Definition truthyOptBool (b : option bool) : bool :=
  match b with
  | Some v => v
  | None => false
  end.

(* ------------------------------------------------------------------ *)
(** * Message pickup *)
(* ------------------------------------------------------------------ *)

Module Pickup.

Local Open Scope effect_scope.

Record EncryptedMessage : Type := {
  protected : string;
  iv : string;
  ciphertext : string;
  tag : string
}.

Record QueuedMessage : Type := {
  id : string;
  encryptedMessage : EncryptedMessage;
  receivedAt : option Z
}.

(** The option objects of the queue repository. [keepMessages] is the field
    the PostgreSQL repository reads; a caller that does not write it leaves
    it [undefined] ([None]). *)
Record TakeFromQueueOptions : Type := {
  take_connectionId : string;
  take_recipientDid : option string;
  take_limit : option Z;
  take_keepMessages : option bool
}.

Record GetAvailableMessageCountOptions : Type := {
  count_connectionId : string;
  count_recipientDid : option string
}.

Record AddMessageOptions : Type := {
  add_connectionId : string;
  add_payload : EncryptedMessage
}.

Record RemoveMessagesOptions : Type := {
  remove_connectionId : string;
  remove_messageIds : list string
}.

(** [QueueTransportMessageRepository]: the interface the protocol resolves
    from [DidCommModuleConfig]. [Q] is the state of the queue store. *)
Class QueueTransportMessageRepository (Q : Type) : Type := {
  getAvailableMessageCount : GetAvailableMessageCountOptions -> Q -> Result Z;
  takeFromQueue : TakeFromQueueOptions -> M Q (list QueuedMessage);
  addMessage : AddMessageOptions -> M Q string;
  removeMessages : RemoveMessagesOptions -> M Q unit
}.

(* ------------------------------------------------------------------ *)
(** ** The PostgreSQL repository of the mediator-cluster sample *)
(* ------------------------------------------------------------------ *)

Module PostgreSQL.

Local Open Scope string_scope.

(** The repository reaches the database through the [Client] of
    [ts-postgres], which is not code of this repository. [query] sends one
    statement text with its bound parameters and answers the result rows, or
    rejects; [D] is whatever the connection and the database hold. *)
Inductive QueryParameter : Type :=
| TextParameter (value : string)
| JsonParameter (value : EncryptedMessage).

(** A result row with the columns read through [row.get], typed as the casts
    of the source type them; [None] is a [null] or missing column. *)
Record ResultRow : Type := {
  get_uuid : option string;
  get_payload : option EncryptedMessage
}.

Class Client (D : Type) : Type := {
  query : string -> list QueryParameter -> M D (list ResultRow)
}.

Section Repository.

Context {D : Type} {client : Client D}.

(** The conversion a template literal applies to the number [options.limit],
    and [randomUUID] of [crypto] with the number of ids drawn so far. *)
Variable numberToString : Z -> string.
Variable randomUUID : nat -> string.

(** [options.limit ? options.limit : 'ALL']: [None] stands for ['ALL'], taken
    when the limit is [undefined] or [0]. *)
Definition messagesToTake (options : TakeFromQueueOptions) : option Z :=
  if truthyOptNumber (take_limit options) then take_limit options else None.

(** The statement of [asyncTakeFromQueue]; the connection id and the limit
    are written into the text as they are. *)
Definition takeStatement (options : TakeFromQueueOptions) : string :=
  "SELECT uuid, connection_id, payload FROM messages WHERE connection_id = '"
  ++ take_connectionId options
  ++ "' ORDER BY timestamp ASC LIMIT "
  ++ match messagesToTake options with
     | Some n => numberToString n
     | None => "ALL"
     end.

(** [options.messageIds.map((s) => "'" + s + "'").join(',')] *)
Definition quotedValues (messageIds : list string) : string :=
  String.concat "," (map (fun s => "'" ++ s ++ "'") messageIds).

(** The statement of [asyncRemoveMessages]; the connection id is not part
    of it. *)
Definition removeStatement (messageIds : list string) : string :=
  "DELETE FROM MESSAGES WHERE uuid IN ( " ++ quotedValues messageIds ++ " )".

Definition insertStatement : string :=
  "INSERT INTO MESSAGES (uuid, connection_id, payload) VALUES ( $1, $2, $3 )".

Definition asyncRemoveMessages (options : RemoveMessagesOptions) : M D unit :=
  query (removeStatement (remove_messageIds options)) [] ;;;
  ret tt.

(** The loop over the result rows: a row contributes when [uuid && payload]
    is truthy. *)
Fixpoint collectRows (results : list ResultRow) : list string * list QueuedMessage :=
  match results with
  | [] => ([], [])
  | row :: rest =>
      let '(uuids, messages) := collectRows rest in
      match get_uuid row, get_payload row with
      | Some uuid, Some payload =>
          if truthyString uuid then
            (uuid :: uuids,
             {| id := uuid; encryptedMessage := payload; receivedAt := None |}
               :: messages)
          else (uuids, messages)
      | _, _ => (uuids, messages)
      end
  end.

Definition asyncTakeFromQueue (options : TakeFromQueueOptions)
  : M D (list QueuedMessage) :=
  results <- query (takeStatement options) [] ;;
  let '(uuids, messages) := collectRows results in
  if negb (truthyOptBool (take_keepMessages options)) then
    asyncRemoveMessages {| remove_connectionId := take_connectionId options;
                           remove_messageIds := uuids |} ;;;
    ret messages
  else ret messages.

(** [asyncAddMessage]: the uuid, the connection id and the payload travel as
    the bound parameters of one fixed statement. The world is the number of
    uuids drawn and the database. *)
Definition asyncAddMessage (options : AddMessageOptions) : M (nat * D) string :=
  fun '(drawn, db) =>
    let uuid := randomUUID drawn in
    let '(answered, db') :=
      query insertStatement
            [TextParameter uuid;
             TextParameter (add_connectionId options);
             JsonParameter (add_payload options)] db in
    (match answered with
     | Ok _ => Ok uuid
     | Err e => Err e
     end, (S drawn, db')).

End Repository.

End PostgreSQL.

(* ------------------------------------------------------------------ *)
(** ** Messages, contexts and the world of the pickup protocol *)
(* ------------------------------------------------------------------ *)

Record ConnectionRecord : Type := {
  connectionRecordId : string;
  isReady : bool
}.

Record AttachmentData : Type := {
  json : option EncryptedMessage;
  base64 : option string
}.

Record Attachment : Type := {
  attachmentId : string;
  lastmodTime : option Z;
  data : AttachmentData
}.

(** A message has its own [id] and an optional [~thread.thid]; the getter
    [threadId] answers the thread id, or the message id when there is none. *)
Record V2StatusRequestMessage : Type := {
  statusRequestId : string;
  statusRequestThid : option string;
  statusRequestRecipientKey : option string
}.

Record V2StatusMessage : Type := {
  statusId : string;
  statusThid : option string;
  statusRecipientKey : option string;
  messageCount : Z;
  liveDelivery : option bool
}.

Record V2DeliveryRequestMessage : Type := {
  deliveryRequestId : string;
  deliveryRequestThid : option string;
  deliveryRequestRecipientKey : option string;
  limit : Z
}.

Record V2MessageDeliveryMessage : Type := {
  deliveryId : string;
  deliveryThid : option string;
  deliveryRecipientKey : option string;
  appendedAttachments : option (list Attachment)
}.

Record V2MessagesReceivedMessage : Type := {
  messagesReceivedId : string;
  messagesReceivedThid : option string;
  messageIdList : list string
}.

Definition threadIdOf (id : string) (thid : option string) : string :=
  match thid with
  | Some t => t
  | None => id
  end.

Record MessagePickupModuleConfig : Type := {
  maximumBatchSize : Z
}.

Record AgentContext : Type := {
  contextCorrelationId : string;
  messagePickupModuleConfig : MessagePickupModuleConfig
}.

Record InboundMessageContext (T : Type) : Type := {
  message : T;
  connection : option ConnectionRecord;
  agentContext : AgentContext
}.

Record OutboundMessageContext (T : Type) : Type := {
  outboundMessage : T;
  outboundConnection : ConnectionRecord
}.

Inductive Event : Type :=
| MessagePickupCompleted (connection : ConnectionRecord) (threadId : string)
| AgentMessageReceived (message : EncryptedMessage)
    (contextCorrelationId : string) (receivedAt : option Z).

(** What a call can read and write: the queue store, the events handed to
    the event emitter (oldest first) and the counter behind [utils.uuid()]. *)
Record World (Q : Type) : Type := {
  queue : Q;
  emitted : list Event;
  uuidCounter : nat
}.

Definition onQueue {Q A} (m : M Q A) : M (World Q) A :=
  fun w =>
    let '(r, q) := m (queue w) in
    (r, {| queue := q; emitted := emitted w; uuidCounter := uuidCounter w |}).

Definition emit {Q} (e : Event) : M (World Q) unit :=
  modify (fun w => {| queue := queue w;
                      emitted := emitted w ++ [e];
                      uuidCounter := uuidCounter w |}).

(** Modelled from the spec: [assertReadyConnection] of the inbound message
    context, whose class is not among the embedded sources; section 6 gives
    [assertReadyConnection() -> connection | fails(ConnectionNotReady)]. *)
Definition assertReadyConnection {W T} (messageContext : InboundMessageContext T)
  : M W ConnectionRecord :=
  match connection messageContext with
  | Some c => if isReady c then ret c else throw ConnectionNotReady
  | None => throw ConnectionNotReady
  end.

(** The delivery answer of [processDeliveryRequest] is one of two classes. *)
Inductive DeliveryAnswer : Type :=
| Delivery (m : V2MessageDeliveryMessage)
| Status (m : V2StatusMessage).

(* ------------------------------------------------------------------ *)
(** ** V2MessagePickupProtocol *)
(* ------------------------------------------------------------------ *)

Section Protocol.

Context {Q : Type} {repository : QueueTransportMessageRepository Q}.

(** External helpers: [verkeyToDidKey] of the core package, the decoder
    behind [Attachment.getDataAsJson] ([None] when it throws its plain
    [CredoError]) and the generator behind the ids of newly built messages. *)
Variable verkeyToDidKey : string -> string.
Variable getDataAsJson : Attachment -> option EncryptedMessage.
Variable uuid : nat -> string.

Definition freshId : M (World Q) string :=
  fun w =>
    (Ok (uuid (uuidCounter w)),
     {| queue := queue w; emitted := emitted w; uuidCounter := S (uuidCounter w) |}).

Definition recipientDidOf (recipientKey : option string) : option string :=
  match recipientKey with
  | Some k => if truthyString k then Some (verkeyToDidKey k) else None
  | None => None
  end.

Definition toAttachment (msg : QueuedMessage) : Attachment :=
  {| attachmentId := id msg;
     lastmodTime := receivedAt msg;
     data := {| json := Some (encryptedMessage msg); base64 := None |} |}.

Definition processStatusRequest
  (messageContext : InboundMessageContext V2StatusRequestMessage)
  : M (World Q) (OutboundMessageContext V2StatusMessage) :=
  let message := message messageContext in
  connection <- assertReadyConnection messageContext ;;
  let recipientKey := statusRequestRecipientKey message in
  count <- onQueue (fun q =>
             (getAvailableMessageCount
                {| count_connectionId := connectionRecordId connection;
                   count_recipientDid := recipientDidOf recipientKey |} q, q)) ;;
  newId <- freshId ;;
  ret {| outboundMessage :=
           {| statusId := newId;
              statusThid :=
                Some (threadIdOf (statusRequestId message) (statusRequestThid message));
              statusRecipientKey := recipientKey;
              messageCount := count;
              liveDelivery := None |};
         outboundConnection := connection |}.

Definition processDeliveryRequest
  (messageContext : InboundMessageContext V2DeliveryRequestMessage)
  : M (World Q) (OutboundMessageContext DeliveryAnswer) :=
  connection <- assertReadyConnection messageContext ;;
  let message := message messageContext in
  let recipientKey := deliveryRequestRecipientKey message in
  (* Get available messages from queue, but don't delete them *)
  messages <- onQueue (takeFromQueue
                {| take_connectionId := connectionRecordId connection;
                   take_recipientDid := recipientDidOf recipientKey;
                   take_limit := Some (limit message);
                   take_keepMessages := None |}) ;;
  let attachments := map toAttachment messages in
  let threadId :=
    threadIdOf (deliveryRequestId message) (deliveryRequestThid message) in
  newId <- freshId ;;
  let outboundMessageContext :=
    if (0 <? List.length messages)%nat then
      Delivery {| deliveryId := newId;
                  deliveryThid := Some threadId;
                  deliveryRecipientKey := recipientKey;
                  appendedAttachments := Some attachments |}
    else
      Status {| statusId := newId;
                statusThid := Some threadId;
                statusRecipientKey := recipientKey;
                messageCount := 0;
                liveDelivery := None |} in
  ret {| outboundMessage := outboundMessageContext;
         outboundConnection := connection |}.

Definition processMessagesReceived
  (messageContext : InboundMessageContext V2MessagesReceivedMessage)
  : M (World Q) (OutboundMessageContext V2StatusMessage) :=
  connection <- assertReadyConnection messageContext ;;
  let message := message messageContext in
  (if (0 <? List.length (messageIdList message))%nat then
     onQueue (removeMessages
                {| remove_connectionId := connectionRecordId connection;
                   remove_messageIds := messageIdList message |})
   else ret tt) ;;;
  count <- onQueue (fun q =>
             (getAvailableMessageCount
                {| count_connectionId := connectionRecordId connection;
                   count_recipientDid := None |} q, q)) ;;
  newId <- freshId ;;
  ret {| outboundMessage :=
           {| statusId := newId;
              statusThid :=
                Some (threadIdOf (messagesReceivedId message)
                                 (messagesReceivedThid message));
              statusRecipientKey := None;
              messageCount := count;
              liveDelivery := None |};
         outboundConnection := connection |}.

Definition processStatus (messageContext : InboundMessageContext V2StatusMessage)
  : M (World Q) (option V2DeliveryRequestMessage) :=
  let statusMessage := message messageContext in
  let count := messageCount statusMessage in
  let recipientKey := statusRecipientKey statusMessage in
  connection <- assertReadyConnection messageContext ;;
  let messagePickupModuleConfig :=
    messagePickupModuleConfig (agentContext messageContext) in
  (* No messages to be retrieved: message pick-up is completed *)
  if (count =? 0)%Z then
    emit (MessagePickupCompleted connection
            (threadIdOf (statusId statusMessage) (statusThid statusMessage))) ;;;
    ret None
  else
    let maximumMessagePickup := maximumBatchSize messagePickupModuleConfig in
    let limit :=
      if (count <? maximumMessagePickup)%Z then count else maximumMessagePickup in
    newId <- freshId ;;
    ret (Some {| deliveryRequestId := newId;
                 deliveryRequestThid := None;
                 deliveryRequestRecipientKey := recipientKey;
                 limit := limit |}).

(** The body of the [for ... of appendedAttachments] loop of
    [processDelivery], with the ids pushed so far. *)
Fixpoint deliverAttachments (context : AgentContext)
  (attachments : list Attachment) (ids : list string) : M (World Q) (list string) :=
  match attachments with
  | [] => ret ids
  | attachment :: rest =>
      payload <- lift (match getDataAsJson attachment with
                       | Some decoded => Ok decoded
                       | None => Err (CredoError "No attachment data found")
                       end) ;;
      emit (AgentMessageReceived payload (contextCorrelationId context)
              (lastmodTime attachment)) ;;;
      deliverAttachments context rest (ids ++ [attachmentId attachment])
  end.

Definition processDelivery
  (messageContext : InboundMessageContext V2MessageDeliveryMessage)
  : M (World Q) V2MessagesReceivedMessage :=
  assertReadyConnection messageContext ;;;
  match appendedAttachments (message messageContext) with
  | None => throw (ProblemReportError ErrorProcessingAttachments)
  | Some attachments =>
      ids <- deliverAttachments (agentContext messageContext) attachments [] ;;
      newId <- freshId ;;
      ret {| messagesReceivedId := newId;
             messagesReceivedThid := None;
             messageIdList := ids |}
  end.

(** [V2StatusHandler.handle] *)
Definition V2StatusHandler_handle
  (messageContext : InboundMessageContext V2StatusMessage)
  : M (World Q) (option (OutboundMessageContext V2DeliveryRequestMessage)) :=
  connection <- assertReadyConnection messageContext ;;
  deliveryRequestMessage <- processStatus messageContext ;;
  match deliveryRequestMessage with
  | Some request =>
      ret (Some {| outboundMessage := request; outboundConnection := connection |})
  | None => ret None
  end.

End Protocol.

End Pickup.

(* ------------------------------------------------------------------ *)
(** * Issue-credential v2 *)
(* ------------------------------------------------------------------ *)

Module Credentials.

Local Open Scope effect_scope.

Inductive DidCommCredentialState : Type :=
| ProposalSent
| ProposalReceived
| OfferSent
| OfferReceived
| RequestSent
| RequestReceived
| CredentialIssued
| CredentialReceived
| Done
| Abandoned.

Inductive DidCommCredentialRole : Type :=
| Issuer
| Holder.

Inductive DidCommAutoAcceptCredential : Type :=
| Always
| ContentApproved
| Never.

Inductive DidCommMessageRole : Type :=
| Sender
| Receiver.

Inductive MessageClass : Type :=
| V2ProposeCredentialMessage
| V2OfferCredentialMessage
| V2RequestCredentialMessage
| V2IssueCredentialMessage.

Definition eqbState (a b : DidCommCredentialState) : bool :=
  match a, b with
  | ProposalSent, ProposalSent | ProposalReceived, ProposalReceived
  | OfferSent, OfferSent | OfferReceived, OfferReceived
  | RequestSent, RequestSent | RequestReceived, RequestReceived
  | CredentialIssued, CredentialIssued | CredentialReceived, CredentialReceived
  | Done, Done | Abandoned, Abandoned => true
  | _, _ => false
  end.

Definition eqbRole (a b : DidCommCredentialRole) : bool :=
  match a, b with
  | Issuer, Issuer | Holder, Holder => true
  | _, _ => false
  end.

Definition eqbMessageRole (a b : DidCommMessageRole) : bool :=
  match a, b with
  | Sender, Sender | Receiver, Receiver => true
  | _, _ => false
  end.

Definition eqbMessageClass (a b : MessageClass) : bool :=
  match a, b with
  | V2ProposeCredentialMessage, V2ProposeCredentialMessage
  | V2OfferCredentialMessage, V2OfferCredentialMessage
  | V2RequestCredentialMessage, V2RequestCredentialMessage
  | V2IssueCredentialMessage, V2IssueCredentialMessage => true
  | _, _ => false
  end.

Definition eqbOptString (a b : option string) : bool :=
  match a, b with
  | Some x, Some y => String.eqb x y
  | None, None => true
  | _, _ => false
  end.

(** The fields of the exchange record the protocol reads and writes. *)
Record DidCommCredentialExchangeRecord : Type := {
  id : string;
  connectionId : option string;
  threadId : string;
  parentThreadId : option string;
  state : DidCommCredentialState;
  role : DidCommCredentialRole;
  autoAcceptCredential : option DidCommAutoAcceptCredential;
  protocolVersion : string
}.

Record DidCommCredentialFormatSpec : Type := {
  attachmentId : string;
  format : string
}.

Record Attachment : Type := {
  attachmentIdOf : string;
  attachmentData : string
}.

Record CredentialPreviewAttribute : Type := {
  name : string;
  mimeType : option string;
  value : string
}.

Record V2CredentialPreview : Type := {
  attributes : list CredentialPreviewAttribute
}.

(** A message of one of the four negotiation classes. [attachments] is the
    class's own list ([proposalAttachments], [offerAttachments],
    [requestAttachments], [credentialAttachments]); only proposals and
    offers carry a [credentialPreview]. *)
Record CredentialMessage : Type := {
  messageClass : MessageClass;
  messageId : string;
  thid : option string;
  pthid : option string;
  formats : list DidCommCredentialFormatSpec;
  attachments : list Attachment;
  credentialPreview : option V2CredentialPreview
}.

Definition messageThreadId (m : CredentialMessage) : string :=
  match thid m with
  | Some t => t
  | None => messageId m
  end.

(** A message as the message repository keeps it. *)
Record DidCommMessageRecord : Type := {
  associatedRecordId : string;
  messageRole : DidCommMessageRole;
  agentMessage : CredentialMessage
}.

(** [CredentialFormatService]: the capability the engine consults. *)
Record CredentialFormatService : Type := {
  formatKey : string;
  credentialRecordType : string;
  supportsFormat : string -> bool;
  shouldAutoRespondToProposalFormat :
    DidCommCredentialExchangeRecord -> Attachment -> Attachment -> bool;
  shouldAutoRespondToOfferFormat :
    DidCommCredentialExchangeRecord -> Attachment -> Attachment -> bool;
  shouldAutoRespondToRequestFormat :
    DidCommCredentialExchangeRecord -> Attachment -> Attachment
    -> option Attachment -> bool;
  shouldAutoRespondToCredentialFormat :
    DidCommCredentialExchangeRecord -> option Attachment -> Attachment
    -> Attachment -> option Attachment -> bool
}.

(** A format service found in [this.credentialFormats], with the position it
    was found at: [Array.prototype.find] answers the first match, so the
    position stands for the identity of the object in the [Set]s below. *)
Definition FoundService : Type := (nat * CredentialFormatService)%type.

(** The keys of a [credentialFormats] payload object with their opaque
    payloads, in the order of [Object.keys]. *)
Definition CredentialFormatPayload : Type := list (string * string).

Record ConnectionRecord : Type := {
  connectionRecordId : string
}.

Record InboundDidCommMessageContext : Type := {
  message : CredentialMessage;
  connection : option ConnectionRecord
}.

Definition connectionIdOf (messageContext : InboundDidCommMessageContext)
  : option string :=
  option_map connectionRecordId (connection messageContext).

Inductive Event : Type :=
| DidCommCredentialStateChanged
    (credentialExchangeRecord : DidCommCredentialExchangeRecord)
    (previousState : option DidCommCredentialState).

(** The persisted world: the exchange record store, the message repository,
    the emitted events (oldest first) and the counter behind [utils.uuid()]. *)
Record World : Type := {
  credentialRecords : list DidCommCredentialExchangeRecord;
  didCommMessages : list DidCommMessageRecord;
  emitted : list Event;
  uuidCounter : nat
}.

Definition withRecords (rs : list DidCommCredentialExchangeRecord) (w : World)
  : World :=
  {| credentialRecords := rs;
     didCommMessages := didCommMessages w;
     emitted := emitted w;
     uuidCounter := uuidCounter w |}.

Definition onMessages {A} (m : M (list DidCommMessageRecord) A) : M World A :=
  fun w =>
    let '(r, ms) := m (didCommMessages w) in
    (r, {| credentialRecords := credentialRecords w;
           didCommMessages := ms;
           emitted := emitted w;
           uuidCounter := uuidCounter w |}).

Definition emitStateChangedEvent (record : DidCommCredentialExchangeRecord)
  (previousState : option DidCommCredentialState) : M World unit :=
  modify (fun w =>
    {| credentialRecords := credentialRecords w;
       didCommMessages := didCommMessages w;
       emitted := emitted w ++ [DidCommCredentialStateChanged record previousState];
       uuidCounter := uuidCounter w |}).

(* ------------------------------------------------------------------ *)
(** ** Collaborators whose source is not embedded *)
(* ------------------------------------------------------------------ *)

Definition withState (newState : DidCommCredentialState)
  (r : DidCommCredentialExchangeRecord) : DidCommCredentialExchangeRecord :=
  {| id := id r;
     connectionId := connectionId r;
     threadId := threadId r;
     parentThreadId := parentThreadId r;
     state := newState;
     role := role r;
     autoAcceptCredential := autoAcceptCredential r;
     protocolVersion := protocolVersion r |}.

Definition withConnectionId (c : option string)
  (r : DidCommCredentialExchangeRecord) : DidCommCredentialExchangeRecord :=
  {| id := id r;
     connectionId := c;
     threadId := threadId r;
     parentThreadId := parentThreadId r;
     state := state r;
     role := role r;
     autoAcceptCredential := autoAcceptCredential r;
     protocolVersion := protocolVersion r |}.

Definition withAutoAccept (a : option DidCommAutoAcceptCredential)
  (r : DidCommCredentialExchangeRecord) : DidCommCredentialExchangeRecord :=
  {| id := id r;
     connectionId := connectionId r;
     threadId := threadId r;
     parentThreadId := parentThreadId r;
     state := state r;
     role := role r;
     autoAcceptCredential := a;
     protocolVersion := protocolVersion r |}.

(** Modelled from the spec: [assertProtocolVersion] of the exchange record
    class, whose source is not among the embedded files. Section 4.1: the engine
    asserts that the protocol version matches and that the current state is
    the expected predecessor, and fails with [InvalidStateTransition]
    otherwise. *)
Definition assertProtocolVersion {W} (r : DidCommCredentialExchangeRecord)
  (version : string) : M W unit :=
  if String.eqb (protocolVersion r) version then ret tt
  else throw InvalidStateTransition.

(** Modelled from the spec: [assertState] of the exchange record class
    (section 4.1): a current state other than the expected one fails with
    [InvalidStateTransition]. *)
Definition assertState {W} (r : DidCommCredentialExchangeRecord)
  (expected : DidCommCredentialState) : M W unit :=
  if eqbState (state r) expected then ret tt
  else throw InvalidStateTransition.

(** Modelled from the spec: the query of [findByProperties], by thread id,
    role and optional connection id (section 6); an absent connection id
    does not restrict the lookup. *)
Definition matchesProperties (t : string) (r : DidCommCredentialRole)
  (c : option string) (record : DidCommCredentialExchangeRecord) : bool :=
  String.eqb (threadId record) t
  && eqbRole (role record) r
  && match c with
     | Some _ => eqbOptString (connectionId record) c
     | None => true
     end.

(** Modelled from the spec: [findByProperties] of the base protocol class,
    section 6, [findByProperties(threadId, role, connectionId?) -> record?]. *)
Definition findByProperties (t : string) (r : DidCommCredentialRole)
  (c : option string) : M World (option DidCommCredentialExchangeRecord) :=
  gets (fun w => find (matchesProperties t r c) (credentialRecords w)).

(** Modelled from the spec: [save] of the Exchange Record Store (section 6):
    the record is added to the store. *)
Definition repositorySave (record : DidCommCredentialExchangeRecord) : M World unit :=
  modify (fun w => withRecords (credentialRecords w ++ [record]) w).

(** Modelled from the spec: [update] of the Exchange Record Store (section
    6): the stored record of the same id is rewritten. *)
Definition repositoryUpdate (record : DidCommCredentialExchangeRecord) : M World unit :=
  modify (fun w =>
    withRecords
      (map (fun r => if String.eqb (id r) (id record) then record else r)
           (credentialRecords w)) w).

(** Modelled from the spec: [updateState] of the base protocol class, section
    4.1: the step persists the record in its new state and emits a
    state-changed event with the prior state. *)
Definition updateState (record : DidCommCredentialExchangeRecord)
  (newState : DidCommCredentialState) : M World DidCommCredentialExchangeRecord :=
  let previousState := state record in
  let record' := withState newState record in
  repositoryUpdate record' ;;;
  emitStateChangedEvent record' (Some previousState) ;;;
  ret record'.

(** Modelled from the spec: the query of the Message Repository (section 6),
    by associated record id, message class and, when given, role. *)
Definition matchesMessage (recordId : string) (class : MessageClass)
  (r : option DidCommMessageRole) (m : DidCommMessageRecord) : bool :=
  String.eqb (associatedRecordId m) recordId
  && eqbMessageClass (messageClass (agentMessage m)) class
  && match r with
     | Some r' => eqbMessageRole (messageRole m) r'
     | None => true
     end.

(** Modelled from the spec: the stored message a Message Repository query
    answers, if any (section 6). *)
Definition lookupAgentMessage (recordId : string) (class : MessageClass)
  (r : option DidCommMessageRole) (ms : list DidCommMessageRecord)
  : option CredentialMessage :=
  option_map agentMessage (find (matchesMessage recordId class r) ms).

(** Modelled from the spec: [findAgentMessage] of the Message Repository
    (section 6); [find] answers an optional. *)
Definition findAgentMessage (recordId : string) (class : MessageClass)
  (r : option DidCommMessageRole) : M World (option CredentialMessage) :=
  gets (fun w => lookupAgentMessage recordId class r (didCommMessages w)).

(** Modelled from the spec: [getAgentMessage] of the Message Repository
    (section 6); [get] fails with [NotFound] if absent. *)
Definition getAgentMessage (recordId : string) (class : MessageClass)
  (r : option DidCommMessageRole) : M World CredentialMessage :=
  found <- findAgentMessage recordId class r ;;
  match found with
  | Some m => ret m
  | None => throw NotFound
  end.

(** Modelled from the spec: [composeAutoAccept], section 4.1: the effective
    policy is the record's override, else the module default. *)
Definition composeAutoAccept (recordConfig : option DidCommAutoAcceptCredential)
  (agentConfig : DidCommAutoAcceptCredential) : DidCommAutoAcceptCredential :=
  match recordConfig with
  | Some policy => policy
  | None => agentConfig
  end.

(** Modelled from the spec: two preview attributes agree when they have the
    same name and value (section 4.1). *)
Definition sameAttribute (a b : CredentialPreviewAttribute) : bool :=
  String.eqb (name a) (name b) && String.eqb (value a) (value b).

(** Modelled from the spec: every attribute of the first list occurs in the
    second (section 4.1, order-independent comparison). *)
Definition attributesIncluded (xs ys : list CredentialPreviewAttribute) : bool :=
  forallb (fun a => existsb (sameAttribute a) ys) xs.

(** Modelled from the spec: [arePreviewAttributesEqual], section 4.1: the two
    attribute sets are exactly equal, same names and values, whatever the
    order. *)
Definition arePreviewAttributesEqual
  (firstAttributes secondAttributes : list CredentialPreviewAttribute) : bool :=
  attributesIncluded firstAttributes secondAttributes
  && attributesIncluded secondAttributes firstAttributes.

(* ------------------------------------------------------------------ *)
(** ** V2DidCommCredentialProtocol *)
(* ------------------------------------------------------------------ *)

Inductive CoordinatorStep : Type :=
| CreateProposal
| CreateOffer
| AcceptProposal
| AcceptOffer
| AcceptRequest
| ProcessProposal
| ProcessOffer
| ProcessRequest.

(** The option object handed to a [CredentialFormatCoordinator] method. *)
Record CoordinatorOptions : Type := {
  coordinatorRecord : DidCommCredentialExchangeRecord;
  coordinatorFormatServices : list FoundService;
  coordinatorCredentialFormats : option CredentialFormatPayload;
  coordinatorMessage : option CredentialMessage;
  coordinatorComment : option string;
  coordinatorGoal : option string;
  coordinatorGoalCode : option string
}.

Record AcceptOptions : Type := {
  credentialExchangeRecord : DidCommCredentialExchangeRecord;
  credentialFormats : option CredentialFormatPayload;
  acceptAutoAcceptCredential : option DidCommAutoAcceptCredential;
  comment : option string;
  goal : option string;
  goalCode : option string
}.

Record NegotiateOptions : Type := {
  negotiateRecord : DidCommCredentialExchangeRecord;
  negotiateCredentialFormats : CredentialFormatPayload;
  negotiateAutoAcceptCredential : option DidCommAutoAcceptCredential;
  negotiateComment : option string;
  negotiateGoal : option string;
  negotiateGoalCode : option string
}.

Record CredentialProtocolMsgReturnType : Type := {
  returnedRecord : DidCommCredentialExchangeRecord;
  returnedMessage : CredentialMessage
}.

Definition bindResult {A B} (r : Result A) (k : A -> Result B) : Result B :=
  match r with
  | Ok a => k a
  | Err e => Err e
  end.

Definition isEmpty {A} (l : list A) : bool :=
  match l with
  | [] => true
  | _ :: _ => false
  end.

Definition orElse {A} (a b : option A) : option A :=
  match a with
  | Some _ => a
  | None => b
  end.

(** [Set.prototype.add] on services, kept in insertion order. *)
Definition setAdd (s : FoundService) (set : list FoundService) : list FoundService :=
  if existsb (fun x => Nat.eqb (fst x) (fst s)) set then set else set ++ [s].

Fixpoint findFrom (p : CredentialFormatService -> bool)
  (services : list CredentialFormatService) (position : nat) : option FoundService :=
  match services with
  | [] => None
  | s :: rest => if p s then Some (position, s) else findFrom p rest (S position)
  end.

(** The [for (const formatService of formatServices)] loop of the auto-accept
    decisions: the first format that answers false ends it. *)
Fixpoint allFormatsRespond (formatServices : list FoundService)
  (respond : CredentialFormatService -> Result bool) : Result bool :=
  match formatServices with
  | [] => Ok true
  | (_, formatService) :: rest =>
      match respond formatService with
      | Ok true => allFormatsRespond rest respond
      | Ok false => Ok false
      | Err e => Err e
      end
  end.

Definition previewAttributes (m : CredentialMessage) : list CredentialPreviewAttribute :=
  match credentialPreview m with
  | Some preview => attributes preview
  | None => []
  end.

Definition hasPreview (m : CredentialMessage) : bool :=
  match credentialPreview m with
  | Some _ => true
  | None => false
  end.

(** The methods of the protocol come in families; the tables at the end of
    the section index each family by a tag. *)
Inductive InboundStep : Type :=
| InboundProposal
| InboundOffer
| InboundRequest.

Inductive AcceptedStep : Type :=
| AcceptingProposal
| AcceptingOffer
| AcceptingRequest.

Inductive Negotiation : Type :=
| NegotiatingProposal
| NegotiatingOffer.

Inductive AutoResponse : Type :=
| ToProposal
| ToOffer
| ToRequest
| ToCredential.

Section Protocol.

(** [this.credentialFormats] and the module default of
    [DidCommCredentialsModuleConfig]. *)
Variable registeredFormats : list CredentialFormatService.
Variable autoAcceptCredentials : DidCommAutoAcceptCredential.

(** The format coordinator writes to the message repository only; its create
    and accept methods answer the message they built. *)
Variable coordinatorBuild :
  CoordinatorStep -> CoordinatorOptions -> M (list DidCommMessageRecord) CredentialMessage.
Variable coordinatorProcess :
  CoordinatorStep -> CoordinatorOptions -> M (list DidCommMessageRecord) unit.
Variable getAttachmentForService :
  CredentialFormatService -> list DidCommCredentialFormatSpec -> list Attachment
  -> Result Attachment.

(** The connection service: [assertConnectionOrOutOfBandExchange] with its
    [lastReceivedMessage], [lastSentMessage] and [expectedConnectionId], and
    [matchIncomingMessageToRequestMessageInOutOfBandExchange]. *)
Variable assertConnectionOrOutOfBandExchange :
  InboundDidCommMessageContext -> option CredentialMessage -> option CredentialMessage
  -> option string -> Result unit.
Variable matchIncomingMessageToRequestMessageInOutOfBandExchange :
  InboundDidCommMessageContext -> option string -> Result unit.
Variable uuid : nat -> string.

Definition freshUuid : M World string :=
  fun w =>
    (Ok (uuid (uuidCounter w)),
     {| credentialRecords := credentialRecords w;
        didCommMessages := didCommMessages w;
        emitted := emitted w;
        uuidCounter := S (uuidCounter w) |}).

Definition getFormatServiceForFormatKey (key : string) : option FoundService :=
  findFrom (fun credentialFormat => String.eqb (formatKey credentialFormat) key)
           registeredFormats 0.

Definition getFormatServiceForFormat (fmt : string) : option FoundService :=
  findFrom (fun credentialFormat => supportsFormat credentialFormat fmt)
           registeredFormats 0.

Definition getFormatServicesFromMessage
  (messageFormats : list DidCommCredentialFormatSpec) : list FoundService :=
  fold_left
    (fun formatServices msg =>
       match getFormatServiceForFormat (format msg) with
       | Some service => setAdd service formatServices
       | None => formatServices
       end)
    messageFormats [].

Definition getFormatServices (payload : CredentialFormatPayload) : list FoundService :=
  fold_left
    (fun found key =>
       match getFormatServiceForFormatKey key with
       | Some formatService => setAdd formatService found
       | None => found
       end)
    (map fst payload) [].

Definition payloadOrEmpty (payload : option CredentialFormatPayload)
  : CredentialFormatPayload :=
  match payload with
  | Some p => p
  | None => []
  end.

Definition findProposalMessage (credentialExchangeId : string)
  : M World (option CredentialMessage) :=
  findAgentMessage credentialExchangeId V2ProposeCredentialMessage None.

Definition findOfferMessage (credentialExchangeId : string)
  : M World (option CredentialMessage) :=
  findAgentMessage credentialExchangeId V2OfferCredentialMessage None.

Definition findRequestMessage (credentialExchangeId : string)
  : M World (option CredentialMessage) :=
  findAgentMessage credentialExchangeId V2RequestCredentialMessage None.

Definition processProposal (messageContext : InboundDidCommMessageContext)
  : M World DidCommCredentialExchangeRecord :=
  let proposalMessage := message messageContext in
  found <- findByProperties (messageThreadId proposalMessage) Issuer None ;;
  let formatServices := getFormatServicesFromMessage (formats proposalMessage) in
  if isEmpty formatServices then throw UnsupportedFormat
  else
    match found with
    | Some record =>
        proposalCredentialMessage <-
          findAgentMessage (id record) V2ProposeCredentialMessage (Some Receiver) ;;
        offerCredentialMessage <-
          findAgentMessage (id record) V2OfferCredentialMessage (Some Sender) ;;
        assertProtocolVersion record "v2" ;;;
        assertState record OfferSent ;;;
        lift (assertConnectionOrOutOfBandExchange messageContext
                proposalCredentialMessage offerCredentialMessage
                (connectionId record)) ;;;
        record <-
          (if negb (truthyOptString (connectionId record)) then
             lift (matchIncomingMessageToRequestMessageInOutOfBandExchange
                     messageContext (connectionId record)) ;;;
             ret (withConnectionId (connectionIdOf messageContext) record)
           else ret record) ;;
        onMessages (coordinatorProcess ProcessProposal
          {| coordinatorRecord := record;
             coordinatorFormatServices := formatServices;
             coordinatorCredentialFormats := None;
             coordinatorMessage := Some proposalMessage;
             coordinatorComment := None;
             coordinatorGoal := None;
             coordinatorGoalCode := None |}) ;;;
        updateState record ProposalReceived
    | None =>
        lift (assertConnectionOrOutOfBandExchange messageContext None None None) ;;;
        newId <- freshUuid ;;
        let record :=
          {| id := newId;
             connectionId := connectionIdOf messageContext;
             threadId := messageThreadId proposalMessage;
             parentThreadId := pthid proposalMessage;
             state := ProposalReceived;
             role := Issuer;
             autoAcceptCredential := None;
             protocolVersion := "v2" |} in
        onMessages (coordinatorProcess ProcessProposal
          {| coordinatorRecord := record;
             coordinatorFormatServices := formatServices;
             coordinatorCredentialFormats := None;
             coordinatorMessage := Some proposalMessage;
             coordinatorComment := None;
             coordinatorGoal := None;
             coordinatorGoalCode := None |}) ;;;
        repositorySave record ;;;
        emitStateChangedEvent record None ;;;
        ret record
    end.

Definition acceptProposal (options : AcceptOptions)
  : M World CredentialProtocolMsgReturnType :=
  let record := credentialExchangeRecord options in
  assertProtocolVersion record "v2" ;;;
  assertState record ProposalReceived ;;;
  (* Use empty credentialFormats if not provided *)
  let requested := getFormatServices (payloadOrEmpty (credentialFormats options)) in
  formatServices <-
    (if isEmpty requested then
       proposalMessage <-
         getAgentMessage (id record) V2ProposeCredentialMessage (Some Receiver) ;;
       ret (getFormatServicesFromMessage (formats proposalMessage))
     else ret requested) ;;
  if isEmpty formatServices then throw NoSupportedFormats
  else
    offerMessage <- onMessages (coordinatorBuild AcceptProposal
      {| coordinatorRecord := record;
         coordinatorFormatServices := formatServices;
         coordinatorCredentialFormats := credentialFormats options;
         coordinatorMessage := None;
         coordinatorComment := comment options;
         coordinatorGoal := goal options;
         coordinatorGoalCode := goalCode options |}) ;;
    let record :=
      withAutoAccept (orElse (acceptAutoAcceptCredential options)
                             (autoAcceptCredential record)) record in
    record <- updateState record OfferSent ;;
    ret {| returnedRecord := record; returnedMessage := offerMessage |}.

Definition negotiateProposal (options : NegotiateOptions)
  : M World CredentialProtocolMsgReturnType :=
  let record := negotiateRecord options in
  assertProtocolVersion record "v2" ;;;
  assertState record ProposalReceived ;;;
  if negb (truthyOptString (connectionId record)) then throw NegotiationNotSupported
  else
    let formatServices := getFormatServices (negotiateCredentialFormats options) in
    if isEmpty formatServices then throw UnsupportedFormat
    else
      offerMessage <- onMessages (coordinatorBuild CreateOffer
        {| coordinatorRecord := record;
           coordinatorFormatServices := formatServices;
           coordinatorCredentialFormats := Some (negotiateCredentialFormats options);
           coordinatorMessage := None;
           coordinatorComment := negotiateComment options;
           coordinatorGoal := negotiateGoal options;
           coordinatorGoalCode := negotiateGoalCode options |}) ;;
      let record :=
        withAutoAccept (orElse (negotiateAutoAcceptCredential options)
                               (autoAcceptCredential record)) record in
      record <- updateState record OfferSent ;;
      ret {| returnedRecord := record; returnedMessage := offerMessage |}.

Definition processOffer (messageContext : InboundDidCommMessageContext)
  : M World DidCommCredentialExchangeRecord :=
  let offerMessage := message messageContext in
  found <- findByProperties (messageThreadId offerMessage) Holder
             (connectionIdOf messageContext) ;;
  let formatServices := getFormatServicesFromMessage (formats offerMessage) in
  if isEmpty formatServices then throw UnsupportedFormat
  else
    match found with
    | Some record =>
        proposeCredentialMessage <-
          findAgentMessage (id record) V2ProposeCredentialMessage (Some Sender) ;;
        offerCredentialMessage <-
          findAgentMessage (id record) V2OfferCredentialMessage (Some Receiver) ;;
        assertProtocolVersion record "v2" ;;;
        assertState record ProposalSent ;;;
        lift (assertConnectionOrOutOfBandExchange messageContext
                offerCredentialMessage proposeCredentialMessage
                (connectionId record)) ;;;
        onMessages (coordinatorProcess ProcessOffer
          {| coordinatorRecord := record;
             coordinatorFormatServices := formatServices;
             coordinatorCredentialFormats := None;
             coordinatorMessage := Some offerMessage;
             coordinatorComment := None;
             coordinatorGoal := None;
             coordinatorGoalCode := None |}) ;;;
        updateState record OfferReceived
    | None =>
        lift (assertConnectionOrOutOfBandExchange messageContext None None None) ;;;
        (* No credential record exists with thread id *)
        newId <- freshUuid ;;
        let record :=
          {| id := newId;
             connectionId := connectionIdOf messageContext;
             threadId := messageThreadId offerMessage;
             parentThreadId := pthid offerMessage;
             state := OfferReceived;
             role := Holder;
             autoAcceptCredential := None;
             protocolVersion := "v2" |} in
        onMessages (coordinatorProcess ProcessOffer
          {| coordinatorRecord := record;
             coordinatorFormatServices := formatServices;
             coordinatorCredentialFormats := None;
             coordinatorMessage := Some offerMessage;
             coordinatorComment := None;
             coordinatorGoal := None;
             coordinatorGoalCode := None |}) ;;;
        repositorySave record ;;;
        emitStateChangedEvent record None ;;;
        ret record
    end.

Definition acceptOffer (options : AcceptOptions)
  : M World CredentialProtocolMsgReturnType :=
  let record := credentialExchangeRecord options in
  assertProtocolVersion record "v2" ;;;
  assertState record OfferReceived ;;;
  (* Use empty credentialFormats if not provided *)
  let requested := getFormatServices (payloadOrEmpty (credentialFormats options)) in
  formatServices <-
    (if isEmpty requested then
       offerMessage <-
         getAgentMessage (id record) V2OfferCredentialMessage (Some Receiver) ;;
       ret (getFormatServicesFromMessage (formats offerMessage))
     else ret requested) ;;
  if isEmpty formatServices then throw NoSupportedFormats
  else
    requestMessage <- onMessages (coordinatorBuild AcceptOffer
      {| coordinatorRecord := record;
         coordinatorFormatServices := formatServices;
         coordinatorCredentialFormats := credentialFormats options;
         coordinatorMessage := None;
         coordinatorComment := comment options;
         coordinatorGoal := goal options;
         coordinatorGoalCode := goalCode options |}) ;;
    let record :=
      withAutoAccept (orElse (acceptAutoAcceptCredential options)
                             (autoAcceptCredential record)) record in
    record <- updateState record RequestSent ;;
    ret {| returnedRecord := record; returnedMessage := requestMessage |}.

Definition negotiateOffer (options : NegotiateOptions)
  : M World CredentialProtocolMsgReturnType :=
  let record := negotiateRecord options in
  assertProtocolVersion record "v2" ;;;
  assertState record OfferReceived ;;;
  if negb (truthyOptString (connectionId record)) then throw NegotiationNotSupported
  else
    let formatServices := getFormatServices (negotiateCredentialFormats options) in
    if isEmpty formatServices then throw UnsupportedFormat
    else
      proposalMessage <- onMessages (coordinatorBuild CreateProposal
        {| coordinatorRecord := record;
           coordinatorFormatServices := formatServices;
           coordinatorCredentialFormats := Some (negotiateCredentialFormats options);
           coordinatorMessage := None;
           coordinatorComment := negotiateComment options;
           coordinatorGoal := negotiateGoal options;
           coordinatorGoalCode := negotiateGoalCode options |}) ;;
      let record :=
        withAutoAccept (orElse (negotiateAutoAcceptCredential options)
                               (autoAcceptCredential record)) record in
      record <- updateState record ProposalSent ;;
      ret {| returnedRecord := record; returnedMessage := proposalMessage |}.

Definition processRequest (messageContext : InboundDidCommMessageContext)
  : M World DidCommCredentialExchangeRecord :=
  let requestMessage := message messageContext in
  found <- findByProperties (messageThreadId requestMessage) Issuer None ;;
  let formatServices := getFormatServicesFromMessage (formats requestMessage) in
  if isEmpty formatServices then throw UnsupportedFormat
  else
    match found with
    | Some record =>
        proposalMessage <-
          findAgentMessage (id record) V2ProposeCredentialMessage (Some Receiver) ;;
        offerMessage <-
          findAgentMessage (id record) V2OfferCredentialMessage (Some Sender) ;;
        assertProtocolVersion record "v2" ;;;
        assertState record OfferSent ;;;
        lift (assertConnectionOrOutOfBandExchange messageContext
                proposalMessage offerMessage (connectionId record)) ;;;
        record <-
          (if negb (truthyOptString (connectionId record)) then
             lift (matchIncomingMessageToRequestMessageInOutOfBandExchange
                     messageContext (connectionId record)) ;;;
             ret (withConnectionId (connectionIdOf messageContext) record)
           else ret record) ;;
        onMessages (coordinatorProcess ProcessRequest
          {| coordinatorRecord := record;
             coordinatorFormatServices := formatServices;
             coordinatorCredentialFormats := None;
             coordinatorMessage := Some requestMessage;
             coordinatorComment := None;
             coordinatorGoal := None;
             coordinatorGoalCode := None |}) ;;;
        updateState record RequestReceived
    | None =>
        lift (assertConnectionOrOutOfBandExchange messageContext None None None) ;;;
        (* No credential record exists with thread id *)
        newId <- freshUuid ;;
        let record :=
          {| id := newId;
             connectionId := connectionIdOf messageContext;
             threadId := messageThreadId requestMessage;
             parentThreadId := pthid requestMessage;
             state := RequestReceived;
             role := Issuer;
             autoAcceptCredential := None;
             protocolVersion := "v2" |} in
        onMessages (coordinatorProcess ProcessRequest
          {| coordinatorRecord := record;
             coordinatorFormatServices := formatServices;
             coordinatorCredentialFormats := None;
             coordinatorMessage := Some requestMessage;
             coordinatorComment := None;
             coordinatorGoal := None;
             coordinatorGoalCode := None |}) ;;;
        repositorySave record ;;;
        emitStateChangedEvent record None ;;;
        ret record
    end.

Definition acceptRequest (options : AcceptOptions)
  : M World CredentialProtocolMsgReturnType :=
  let record := credentialExchangeRecord options in
  assertProtocolVersion record "v2" ;;;
  assertState record RequestReceived ;;;
  (* Use empty credentialFormats if not provided *)
  let requested := getFormatServices (payloadOrEmpty (credentialFormats options)) in
  formatServices <-
    (if isEmpty requested then
       requestMessage <-
         getAgentMessage (id record) V2RequestCredentialMessage (Some Receiver) ;;
       ret (getFormatServicesFromMessage (formats requestMessage))
     else ret requested) ;;
  if isEmpty formatServices then throw NoSupportedFormats
  else
    credentialMessage <- onMessages (coordinatorBuild AcceptRequest
      {| coordinatorRecord := record;
         coordinatorFormatServices := formatServices;
         coordinatorCredentialFormats := credentialFormats options;
         coordinatorMessage := None;
         coordinatorComment := comment options;
         coordinatorGoal := goal options;
         coordinatorGoalCode := goalCode options |}) ;;
    let record :=
      withAutoAccept (orElse (acceptAutoAcceptCredential options)
                             (autoAcceptCredential record)) record in
    record <- updateState record CredentialIssued ;;
    ret {| returnedRecord := record; returnedMessage := credentialMessage |}.

(* AUTO ACCEPT METHODS *)

Definition attachmentOf (formatService : CredentialFormatService)
  (m : CredentialMessage) : Result Attachment :=
  getAttachmentForService formatService (formats m) (attachments m).

Definition optionalAttachmentOf (formatService : CredentialFormatService)
  (m : option CredentialMessage) : Result (option Attachment) :=
  match m with
  | Some m' => bindResult (attachmentOf formatService m') (fun a => Ok (Some a))
  | None => Ok None
  end.

(** What one format answers inside the loop of each auto-accept decision:
    its attachments are looked up in the messages, then the capability is
    asked. *)
Definition proposalFormatResponse (record : DidCommCredentialExchangeRecord)
  (proposalMessage offerMessage : CredentialMessage)
  (formatService : CredentialFormatService) : Result bool :=
  bindResult (attachmentOf formatService offerMessage) (fun offerAttachment =>
  bindResult (attachmentOf formatService proposalMessage) (fun proposalAttachment =>
  Ok (shouldAutoRespondToProposalFormat formatService record
        offerAttachment proposalAttachment))).

Definition offerFormatResponse (record : DidCommCredentialExchangeRecord)
  (offerMessage proposalMessage : CredentialMessage)
  (formatService : CredentialFormatService) : Result bool :=
  bindResult (attachmentOf formatService offerMessage) (fun offerAttachment =>
  bindResult (attachmentOf formatService proposalMessage) (fun proposalAttachment =>
  Ok (shouldAutoRespondToOfferFormat formatService record
        offerAttachment proposalAttachment))).

Definition requestFormatResponse (record : DidCommCredentialExchangeRecord)
  (requestMessage offerMessage : CredentialMessage)
  (proposalMessage : option CredentialMessage)
  (formatService : CredentialFormatService) : Result bool :=
  bindResult (attachmentOf formatService offerMessage) (fun offerAttachment =>
  bindResult (optionalAttachmentOf formatService proposalMessage)
    (fun proposalAttachment =>
  bindResult (attachmentOf formatService requestMessage) (fun requestAttachment =>
  Ok (shouldAutoRespondToRequestFormat formatService record
        offerAttachment requestAttachment proposalAttachment)))).

Definition credentialFormatResponse (record : DidCommCredentialExchangeRecord)
  (credentialMessage requestMessage : CredentialMessage)
  (offerMessage proposalMessage : option CredentialMessage)
  (formatService : CredentialFormatService) : Result bool :=
  bindResult (optionalAttachmentOf formatService offerMessage)
    (fun offerAttachment =>
  bindResult (optionalAttachmentOf formatService proposalMessage)
    (fun proposalAttachment =>
  bindResult (attachmentOf formatService requestMessage) (fun requestAttachment =>
  bindResult (attachmentOf formatService credentialMessage)
    (fun credentialAttachment =>
  Ok (shouldAutoRespondToCredentialFormat formatService record
        offerAttachment credentialAttachment requestAttachment
        proposalAttachment))))).

Definition shouldAutoRespondToProposal
  (record : DidCommCredentialExchangeRecord) (proposalMessage : CredentialMessage)
  : M World bool :=
  let autoAccept :=
    composeAutoAccept (autoAcceptCredential record) autoAcceptCredentials in
  match autoAccept with
  | Always => ret true
  | Never => ret false
  | ContentApproved =>
      found <- findOfferMessage (id record) ;;
      match found with
      | None => ret false
      | Some offerMessage =>
          (* we take the formats from the offerMessage *)
          let formatServices := getFormatServicesFromMessage (formats offerMessage) in
          agreed <- lift (allFormatsRespond formatServices
                           (proposalFormatResponse record proposalMessage offerMessage)) ;;
          if negb agreed then ret false
          else if hasPreview proposalMessage || hasPreview offerMessage then
            if negb (hasPreview proposalMessage) || negb (hasPreview offerMessage)
            then ret false
            else ret (arePreviewAttributesEqual (previewAttributes proposalMessage)
                                                (previewAttributes offerMessage))
          else ret true
      end
  end.

Definition shouldAutoRespondToOffer
  (record : DidCommCredentialExchangeRecord) (offerMessage : CredentialMessage)
  : M World bool :=
  let autoAccept :=
    composeAutoAccept (autoAcceptCredential record) autoAcceptCredentials in
  match autoAccept with
  | Always => ret true
  | Never => ret false
  | ContentApproved =>
      found <- findProposalMessage (id record) ;;
      match found with
      | None => ret false
      | Some proposalMessage =>
          (* we take the formats from the proposalMessage *)
          let formatServices :=
            getFormatServicesFromMessage (formats proposalMessage) in
          agreed <- lift (allFormatsRespond formatServices
                           (offerFormatResponse record offerMessage proposalMessage)) ;;
          if negb agreed then ret false
          (* if one of the message doesn't have a preview, we should not auto accept *)
          else if hasPreview proposalMessage || hasPreview offerMessage then
            (* [credentialPreview?.attributes ?? []] on both sides *)
            ret (arePreviewAttributesEqual (previewAttributes proposalMessage)
                                           (previewAttributes offerMessage))
          else ret true
      end
  end.

Definition shouldAutoRespondToRequest
  (record : DidCommCredentialExchangeRecord) (requestMessage : CredentialMessage)
  : M World bool :=
  let autoAccept :=
    composeAutoAccept (autoAcceptCredential record) autoAcceptCredentials in
  match autoAccept with
  | Always => ret true
  | Never => ret false
  | ContentApproved =>
      proposalMessage <- findProposalMessage (id record) ;;
      found <- findOfferMessage (id record) ;;
      match found with
      | None => ret false
      | Some offerMessage =>
          (* we take the formats from the offerMessage *)
          let formatServices := getFormatServicesFromMessage (formats offerMessage) in
          agreed <- lift (allFormatsRespond formatServices
                           (requestFormatResponse record requestMessage offerMessage
                                                  proposalMessage)) ;;
          if negb agreed then ret false else ret true
      end
  end.

Definition shouldAutoRespondToCredential
  (record : DidCommCredentialExchangeRecord) (credentialMessage : CredentialMessage)
  : M World bool :=
  let autoAccept :=
    composeAutoAccept (autoAcceptCredential record) autoAcceptCredentials in
  match autoAccept with
  | Always => ret true
  | Never => ret false
  | ContentApproved =>
      proposalMessage <- findProposalMessage (id record) ;;
      offerMessage <- findOfferMessage (id record) ;;
      found <- findRequestMessage (id record) ;;
      match found with
      | None => ret false
      | Some requestMessage =>
          (* we take the formats from the requestMessage *)
          let formatServices :=
            getFormatServicesFromMessage (formats requestMessage) in
          agreed <- lift (allFormatsRespond formatServices
                           (credentialFormatResponse record credentialMessage
                                                     requestMessage offerMessage
                                                     proposalMessage)) ;;
          if negb agreed then ret false else ret true
      end
  end.

(* ------------------------------------------------------------------ *)
(** ** The families of methods as tables *)
(* ------------------------------------------------------------------ *)

(** [processProposal], [processOffer], [processRequest]: the role and the
    connection they look the record up by, and the state they assert. *)
Definition process (which : InboundStep)
  : InboundDidCommMessageContext -> M World DidCommCredentialExchangeRecord :=
  match which with
  | InboundProposal => processProposal
  | InboundOffer => processOffer
  | InboundRequest => processRequest
  end.

Definition lookupRole (which : InboundStep) : DidCommCredentialRole :=
  match which with
  | InboundProposal => Issuer
  | InboundOffer => Holder
  | InboundRequest => Issuer
  end.

Definition lookupConnection (which : InboundStep)
  (messageContext : InboundDidCommMessageContext) : option string :=
  match which with
  | InboundProposal => None
  | InboundOffer => connectionIdOf messageContext
  | InboundRequest => None
  end.

Definition predecessor (which : InboundStep) : DidCommCredentialState :=
  match which with
  | InboundProposal => OfferSent
  | InboundOffer => ProposalSent
  | InboundRequest => OfferSent
  end.

(** [acceptProposal], [acceptOffer], [acceptRequest]: the state they are
    valid from, the class of the stored message they fall back to, the
    coordinator method that builds the answer and the state they move to. *)
Definition accept (which : AcceptedStep)
  : AcceptOptions -> M World CredentialProtocolMsgReturnType :=
  match which with
  | AcceptingProposal => acceptProposal
  | AcceptingOffer => acceptOffer
  | AcceptingRequest => acceptRequest
  end.

Definition acceptedFrom (which : AcceptedStep) : DidCommCredentialState :=
  match which with
  | AcceptingProposal => ProposalReceived
  | AcceptingOffer => OfferReceived
  | AcceptingRequest => RequestReceived
  end.

Definition fallbackClass (which : AcceptedStep) : MessageClass :=
  match which with
  | AcceptingProposal => V2ProposeCredentialMessage
  | AcceptingOffer => V2OfferCredentialMessage
  | AcceptingRequest => V2RequestCredentialMessage
  end.

Definition acceptBuiltBy (which : AcceptedStep) : CoordinatorStep :=
  match which with
  | AcceptingProposal => AcceptProposal
  | AcceptingOffer => AcceptOffer
  | AcceptingRequest => AcceptRequest
  end.

Definition acceptedTo (which : AcceptedStep) : DidCommCredentialState :=
  match which with
  | AcceptingProposal => OfferSent
  | AcceptingOffer => RequestSent
  | AcceptingRequest => CredentialIssued
  end.

(** The answer of an accept call when the message is built by exactly the
    given format services: the statement "these are the format services
    used" compares an accept call with this computation. *)
Definition buildWithFormatServices (which : AcceptedStep)
  (formatServices : list FoundService) (options : AcceptOptions)
  : M World CredentialProtocolMsgReturnType :=
  let record := credentialExchangeRecord options in
  if isEmpty formatServices then throw NoSupportedFormats
  else
    built <- onMessages (coordinatorBuild (acceptBuiltBy which)
      {| coordinatorRecord := record;
         coordinatorFormatServices := formatServices;
         coordinatorCredentialFormats := credentialFormats options;
         coordinatorMessage := None;
         coordinatorComment := comment options;
         coordinatorGoal := goal options;
         coordinatorGoalCode := goalCode options |}) ;;
    let record :=
      withAutoAccept (orElse (acceptAutoAcceptCredential options)
                             (autoAcceptCredential record)) record in
    record <- updateState record (acceptedTo which) ;;
    ret {| returnedRecord := record; returnedMessage := built |}.

(** [negotiateProposal], [negotiateOffer]. *)
Definition negotiate (which : Negotiation)
  : NegotiateOptions -> M World CredentialProtocolMsgReturnType :=
  match which with
  | NegotiatingProposal => negotiateProposal
  | NegotiatingOffer => negotiateOffer
  end.

Definition negotiatedFrom (which : Negotiation) : DidCommCredentialState :=
  match which with
  | NegotiatingProposal => ProposalReceived
  | NegotiatingOffer => OfferReceived
  end.

Definition negotiatedTo (which : Negotiation) : DidCommCredentialState :=
  match which with
  | NegotiatingProposal => OfferSent
  | NegotiatingOffer => ProposalSent
  end.

Definition negotiationBuiltBy (which : Negotiation) : CoordinatorStep :=
  match which with
  | NegotiatingProposal => CreateOffer
  | NegotiatingOffer => CreateProposal
  end.

(** The four auto-accept decisions: the class of the stored message each
    one looks for, and the preview comparison that ends the decision. *)
Definition shouldAutoRespond (which : AutoResponse)
  : DidCommCredentialExchangeRecord -> CredentialMessage -> M World bool :=
  match which with
  | ToProposal => shouldAutoRespondToProposal
  | ToOffer => shouldAutoRespondToOffer
  | ToRequest => shouldAutoRespondToRequest
  | ToCredential => shouldAutoRespondToCredential
  end.

Definition priorClass (which : AutoResponse) : MessageClass :=
  match which with
  | ToProposal => V2OfferCredentialMessage
  | ToOffer => V2ProposeCredentialMessage
  | ToRequest => V2OfferCredentialMessage
  | ToCredential => V2RequestCredentialMessage
  end.

Definition previewDecision (which : AutoResponse)
  (inbound prior : CredentialMessage) : bool :=
  match which with
  | ToProposal =>
      if hasPreview inbound || hasPreview prior then
        if negb (hasPreview inbound) || negb (hasPreview prior) then false
        else arePreviewAttributesEqual (previewAttributes inbound)
                                       (previewAttributes prior)
      else true
  | ToOffer =>
      if hasPreview prior || hasPreview inbound then
        arePreviewAttributesEqual (previewAttributes prior)
                                  (previewAttributes inbound)
      else true
  | ToRequest => true
  | ToCredential => true
  end.

End Protocol.

End Credentials.

(* ------------------------------------------------------------------ *)
(** * Message pickup: the creating side of the protocol *)
(* ------------------------------------------------------------------ *)

Module PickupClient.

Import Pickup.

Local Open Scope effect_scope.

Record V2LiveDeliveryChangeMessage : Type := {
  liveDeliveryChangeId : string;
  liveDeliveryChangeThid : option string;
  liveDeliveryChange : bool
}.

Record PickupMessagesProtocolOptions : Type := {
  pickupConnectionRecord : ConnectionRecord;
  pickupRecipientDid : option string
}.

(** [messages] is optional: when the caller gives none, the queue is asked. *)
Record DeliverMessagesProtocolOptions : Type := {
  deliverConnectionRecord : ConnectionRecord;
  deliverRecipientKey : option string;
  deliverMessages : option (list QueuedMessage)
}.

Record SetLiveDeliveryModeProtocolOptions : Type := {
  liveConnectionRecord : ConnectionRecord;
  liveDeliveryRequested : bool
}.

(** Modelled from the spec: [assertReady] of the connection record, whose
    class is not among the embedded sources; section 7 names the failure of
    the readiness precondition [ConnectionNotReady]. *)
Definition assertReady {W} (connectionRecord : ConnectionRecord) : M W unit :=
  if isReady connectionRecord then ret tt else throw ConnectionNotReady.

Section Create.

Context {Q : Type} {repository : QueueTransportMessageRepository Q}.
Variable uuid : nat -> string.

Definition createPickupMessage (options : PickupMessagesProtocolOptions)
  : M (World Q) V2StatusRequestMessage :=
  assertReady (pickupConnectionRecord options) ;;;
  newId <- freshId uuid ;;
  ret {| statusRequestId := newId;
         statusRequestThid := None;
         statusRequestRecipientKey := pickupRecipientDid options |}.

Definition createDeliveryMessage (options : DeliverMessagesProtocolOptions)
  : M (World Q) (option V2MessageDeliveryMessage) :=
  let connectionRecord := deliverConnectionRecord options in
  assertReady connectionRecord ;;;
  (* Get available messages from queue, but don't delete them *)
  messagesToDeliver <-
    match deliverMessages options with
    | Some messages => ret messages
    | None =>
        onQueue (takeFromQueue
          {| take_connectionId := connectionRecordId connectionRecord;
             take_recipientDid := deliverRecipientKey options;
             take_limit := Some 10%Z;
             take_keepMessages := None |})
    end ;;
  if (List.length messagesToDeliver =? 0)%nat then ret None
  else
    newId <- freshId uuid ;;
    ret (Some {| deliveryId := newId;
                 deliveryThid := None;
                 deliveryRecipientKey := None;
                 appendedAttachments := Some (map toAttachment messagesToDeliver) |}).

Definition setLiveDeliveryMode (options : SetLiveDeliveryModeProtocolOptions)
  : M (World Q) V2LiveDeliveryChangeMessage :=
  assertReady (liveConnectionRecord options) ;;;
  newId <- freshId uuid ;;
  ret {| liveDeliveryChangeId := newId;
         liveDeliveryChangeThid := None;
         liveDeliveryChange := liveDeliveryRequested options |}.

End Create.

End PickupClient.

(* ------------------------------------------------------------------ *)
(** * The change-data-capture converter of the PostgreSQL repository *)
(* ------------------------------------------------------------------ *)

Module PostgreSQLChanges.

(** One entry of the [change] array of a parsed change message, with the
    fields [convertCDCMessage] reads. *)
Record Change : Type := {
  kind : string;
  table : string;
  columnnames : list string;
  columnvalues : list string
}.

(** [Array.prototype.findIndex]: [None] stands for [-1]. *)
Fixpoint findIndex (p : string -> bool) (names : list string) : option nat :=
  match names with
  | [] => None
  | name :: rest =>
      if p name then Some 0%nat
      else option_map S (findIndex p rest)
  end.

Definition isMessageInsert (change : Change) : bool :=
  String.eqb (kind change) "insert" && String.eqb (table change) "MESSAGES".

(** [columnvalues[idx]]: [undefined] ([None]) when there is no
    [connection_id] column or no value at its position. *)
Definition insertedConnectionId (insert : Change) : option string :=
  match findIndex (fun name => String.eqb name "connection_id") (columnnames insert) with
  | Some idx => nth_error (columnvalues insert) idx
  | None => None
  end.

Definition sameValue (a b : option string) : bool :=
  match a, b with
  | Some x, Some y => String.eqb x y
  | None, None => true
  | _, _ => false
  end.

(** [new Set(connectionIds)], in insertion order. *)
Fixpoint toSet (seen : list (option string)) (values : list (option string))
  : list (option string) :=
  match values with
  | [] => seen
  | v :: rest =>
      if existsb (sameValue v) seen then toSet seen rest
      else toSet (seen ++ [v]) rest
  end.

(** [convertCDCMessage] after [JSON.parse]: the argument is [json['change']]. *)
Definition convertCDCMessage (changes : list Change) : list (option string) :=
  let inserts := filter isMessageInsert changes in
  let connectionIds := map insertedConnectionId inserts in
  toSet [] connectionIds.

End PostgreSQLChanges.

(* ------------------------------------------------------------------ *)
(** * DidCommModuleConfig *)
(* ------------------------------------------------------------------ *)

Module ModuleConfig.

Section Config.

(** The queue repository type with the in-memory default, and the two
    constants the getters fall back to. *)
Variable Repository : Type.
Variable InMemoryQueueTransportMessageRepository : Repository.
Variable DID_COMM_TRANSPORT_QUEUE : string.
Variable DidCommMimeTypeV1 : string.

Record DidCommModuleConfigOptions : Type := {
  optionEndpoints : option (list string);
  optionUseDidSovPrefixWhereAllowed : option bool;
  optionConnectionImageUrl : option string;
  optionProcessDidCommMessagesConcurrently : option bool;
  optionDidCommMimeType : option string;
  optionUseDidKeyInProtocols : option bool;
  optionQueueTransportMessageRepository : option Repository
}.

Record DidCommModuleConfig : Type := {
  options : DidCommModuleConfigOptions;
  _endpoints : option (list string);
  _queueTransportMessageRepository : Repository
}.

Definition noOptions : DidCommModuleConfigOptions :=
  {| optionEndpoints := None;
     optionUseDidSovPrefixWhereAllowed := None;
     optionConnectionImageUrl := None;
     optionProcessDidCommMessagesConcurrently := None;
     optionDidCommMimeType := None;
     optionUseDidKeyInProtocols := None;
     optionQueueTransportMessageRepository := None |}.

(** [constructor(options?)] *)
Definition newDidCommModuleConfig (given : option DidCommModuleConfigOptions)
  : DidCommModuleConfig :=
  {| options := match given with Some o => o | None => noOptions end;
     _endpoints := match given with Some o => optionEndpoints o | None => None end;
     _queueTransportMessageRepository :=
       match given with
       | Some o =>
           match optionQueueTransportMessageRepository o with
           | Some r => r
           | None => InMemoryQueueTransportMessageRepository
           end
       | None => InMemoryQueueTransportMessageRepository
       end |}.

(** [get endpoints()] *)
Definition endpoints (config : DidCommModuleConfig) : list string :=
  match _endpoints config with
  | None => [DID_COMM_TRANSPORT_QUEUE]
  | Some [] => [DID_COMM_TRANSPORT_QUEUE]
  | Some configured => configured
  end.

(** [set endpoints(endpoints)] *)
Definition setEndpoints (config : DidCommModuleConfig) (given : list string)
  : DidCommModuleConfig :=
  {| options := options config;
     _endpoints := Some given;
     _queueTransportMessageRepository := _queueTransportMessageRepository config |}.

Definition useDidSovPrefixWhereAllowed (config : DidCommModuleConfig) : bool :=
  match optionUseDidSovPrefixWhereAllowed (options config) with
  | Some b => b
  | None => false
  end.

Definition processDidCommMessagesConcurrently (config : DidCommModuleConfig) : bool :=
  match optionProcessDidCommMessagesConcurrently (options config) with
  | Some b => b
  | None => false
  end.

Definition didCommMimeType (config : DidCommModuleConfig) : string :=
  match optionDidCommMimeType (options config) with
  | Some m => m
  | None => DidCommMimeTypeV1
  end.

Definition useDidKeyInProtocols (config : DidCommModuleConfig) : bool :=
  match optionUseDidKeyInProtocols (options config) with
  | Some b => b
  | None => true
  end.

Definition queueTransportMessageRepository (config : DidCommModuleConfig)
  : Repository :=
  _queueTransportMessageRepository config.

End Config.

End ModuleConfig.

(* ------------------------------------------------------------------ *)
(** * Issue-credential v2: starting and finishing an exchange *)
(* ------------------------------------------------------------------ *)

Module CredentialsLifecycle.

Import Credentials.

Local Open Scope effect_scope.

Inductive AckStatus : Type :=
| AckOK
| AckPending.

Inductive DidCommCredentialProblemReportReason : Type :=
| IssuanceAbandoned.

Record V2CredentialAckMessage : Type := {
  ackId : string;
  ackStatus : AckStatus;
  ackThreadId : string;
  ackParentThreadId : option string
}.

Record V2CredentialProblemReportMessage : Type := {
  problemReportId : string;
  problemReportDescription : string;
  problemReportCode : DidCommCredentialProblemReportReason;
  problemReportThreadId : string;
  problemReportParentThreadId : option string
}.

Record InboundAckContext : Type := {
  inboundAck : V2CredentialAckMessage;
  ackConnection : option ConnectionRecord
}.

(** [createProposal] and [createRequest] need a connection record;
    [createOffer] takes it optionally. *)
Record CreateOptions : Type := {
  createConnectionRecord : option ConnectionRecord;
  createCredentialFormats : CredentialFormatPayload;
  createAutoAcceptCredential : option DidCommAutoAcceptCredential;
  createComment : option string;
  createGoal : option string;
  createGoalCode : option string
}.

Record BoundCreateOptions : Type := {
  boundConnectionRecord : ConnectionRecord;
  boundCredentialFormats : CredentialFormatPayload;
  boundAutoAcceptCredential : option DidCommAutoAcceptCredential;
  boundComment : option string;
  boundGoal : option string;
  boundGoalCode : option string
}.

Record AckReturnType : Type := {
  ackReturnedRecord : DidCommCredentialExchangeRecord;
  ackReturnedMessage : V2CredentialAckMessage
}.

Record ProblemReportReturnType : Type := {
  reportReturnedRecord : DidCommCredentialExchangeRecord;
  reportReturnedMessage : V2CredentialProblemReportMessage
}.

(** Modelled from the spec: [getByProperties] of the base protocol class, the
    failing counterpart of [findByProperties] (section 6); as for the
    message repository, [get] fails with [NotFound] if absent. *)
Definition getByProperties (t : string) (r : DidCommCredentialRole)
  (c : option string) : M World DidCommCredentialExchangeRecord :=
  found <- findByProperties t r c ;;
  match found with
  | Some record => ret record
  | None => throw NotFound
  end.

Section Lifecycle.

Variable registeredFormats : list CredentialFormatService.
Variable coordinatorBuild :
  CoordinatorStep -> CoordinatorOptions -> M (list DidCommMessageRecord) CredentialMessage.

(** The two coordinator methods the negotiation steps do not use:
    [createRequest], and [processCredential] with the stored request
    message. *)
Variable coordinatorCreateRequest :
  CoordinatorOptions -> M (list DidCommMessageRecord) CredentialMessage.
Variable coordinatorProcessCredential :
  CoordinatorOptions -> CredentialMessage -> M (list DidCommMessageRecord) unit.
Variable assertConnectionOrOutOfBandExchange :
  InboundDidCommMessageContext -> option CredentialMessage -> option CredentialMessage
  -> option string -> Result unit.
Variable assertAckConnectionOrOutOfBandExchange :
  InboundAckContext -> option CredentialMessage -> option CredentialMessage
  -> option string -> Result unit.
Variable uuid : nat -> string.

(** [new DidCommCredentialExchangeRecord({ ..., threadId: utils.uuid(), ... })]:
    the thread id is drawn while the properties are built, the record id by
    the constructor. *)
Definition newExchangeRecord (c : option string) (s : DidCommCredentialState)
  (r : DidCommCredentialRole) (policy : option DidCommAutoAcceptCredential)
  : M World DidCommCredentialExchangeRecord :=
  thread <- freshUuid uuid ;;
  newId <- freshUuid uuid ;;
  ret {| id := newId;
         connectionId := c;
         threadId := thread;
         parentThreadId := None;
         state := s;
         role := r;
         autoAcceptCredential := policy;
         protocolVersion := "v2" |}.

Definition createProposal (options : BoundCreateOptions)
  : M World CredentialProtocolMsgReturnType :=
  let formatServices :=
    getFormatServices registeredFormats (boundCredentialFormats options) in
  if isEmpty formatServices then throw UnsupportedFormat
  else
    record <- newExchangeRecord
                (Some (connectionRecordId (boundConnectionRecord options)))
                ProposalSent Holder (boundAutoAcceptCredential options) ;;
    proposalMessage <- onMessages (coordinatorBuild CreateProposal
      {| coordinatorRecord := record;
         coordinatorFormatServices := formatServices;
         coordinatorCredentialFormats := Some (boundCredentialFormats options);
         coordinatorMessage := None;
         coordinatorComment := boundComment options;
         coordinatorGoal := boundGoal options;
         coordinatorGoalCode := boundGoalCode options |}) ;;
    repositorySave record ;;;
    emitStateChangedEvent record None ;;;
    ret {| returnedRecord := record; returnedMessage := proposalMessage |}.

Definition createOffer (options : CreateOptions)
  : M World CredentialProtocolMsgReturnType :=
  let formatServices :=
    getFormatServices registeredFormats (createCredentialFormats options) in
  if isEmpty formatServices then throw UnsupportedFormat
  else
    record <- newExchangeRecord
                (option_map connectionRecordId (createConnectionRecord options))
                OfferSent Issuer (createAutoAcceptCredential options) ;;
    offerMessage <- onMessages (coordinatorBuild CreateOffer
      {| coordinatorRecord := record;
         coordinatorFormatServices := formatServices;
         coordinatorCredentialFormats := Some (createCredentialFormats options);
         coordinatorMessage := None;
         coordinatorComment := createComment options;
         coordinatorGoal := createGoal options;
         coordinatorGoalCode := createGoalCode options |}) ;;
    repositorySave record ;;;
    emitStateChangedEvent record None ;;;
    ret {| returnedRecord := record; returnedMessage := offerMessage |}.

Definition createRequest (options : BoundCreateOptions)
  : M World CredentialProtocolMsgReturnType :=
  let formatServices :=
    getFormatServices registeredFormats (boundCredentialFormats options) in
  if isEmpty formatServices then throw UnsupportedFormat
  else
    record <- newExchangeRecord
                (Some (connectionRecordId (boundConnectionRecord options)))
                RequestSent Holder (boundAutoAcceptCredential options) ;;
    requestMessage <- onMessages (coordinatorCreateRequest
      {| coordinatorRecord := record;
         coordinatorFormatServices := formatServices;
         coordinatorCredentialFormats := Some (boundCredentialFormats options);
         coordinatorMessage := None;
         coordinatorComment := boundComment options;
         coordinatorGoal := boundGoal options;
         coordinatorGoalCode := boundGoalCode options |}) ;;
    repositorySave record ;;;
    emitStateChangedEvent record None ;;;
    ret {| returnedRecord := record; returnedMessage := requestMessage |}.

Definition processCredential (messageContext : InboundDidCommMessageContext)
  : M World DidCommCredentialExchangeRecord :=
  let credentialMessage := message messageContext in
  record <- getByProperties (messageThreadId credentialMessage) Holder
              (connectionIdOf messageContext) ;;
  requestMessage <-
    getAgentMessage (id record) V2RequestCredentialMessage (Some Sender) ;;
  offerMessage <-
    findAgentMessage (id record) V2OfferCredentialMessage (Some Receiver) ;;
  assertProtocolVersion record "v2" ;;;
  assertState record RequestSent ;;;
  lift (assertConnectionOrOutOfBandExchange messageContext
          offerMessage (Some requestMessage) (connectionId record)) ;;;
  let formatServices :=
    getFormatServicesFromMessage registeredFormats (formats credentialMessage) in
  if isEmpty formatServices then throw UnsupportedFormat
  else
    onMessages (coordinatorProcessCredential
      {| coordinatorRecord := record;
         coordinatorFormatServices := formatServices;
         coordinatorCredentialFormats := None;
         coordinatorMessage := Some credentialMessage;
         coordinatorComment := None;
         coordinatorGoal := None;
         coordinatorGoalCode := None |} requestMessage) ;;;
    updateState record CredentialReceived.

Definition acceptCredential (record : DidCommCredentialExchangeRecord)
  : M World AckReturnType :=
  assertProtocolVersion record "v2" ;;;
  assertState record CredentialReceived ;;;
  newId <- freshUuid uuid ;;
  let ackMessage :=
    {| ackId := newId;
       ackStatus := AckOK;
       ackThreadId := threadId record;
       ackParentThreadId := parentThreadId record |} in
  record <- updateState record Done ;;
  ret {| ackReturnedRecord := record; ackReturnedMessage := ackMessage |}.

Definition processAck (messageContext : InboundAckContext)
  : M World DidCommCredentialExchangeRecord :=
  let ackMessage := inboundAck messageContext in
  let inboundConnectionId :=
    option_map connectionRecordId (ackConnection messageContext) in
  found <- getByProperties (ackThreadId ackMessage) Issuer inboundConnectionId ;;
  (* credentialExchangeRecord.connectionId = connection?.id *)
  let record := withConnectionId inboundConnectionId found in
  requestMessage <-
    getAgentMessage (id record) V2RequestCredentialMessage (Some Receiver) ;;
  credentialMessage <-
    getAgentMessage (id record) V2IssueCredentialMessage (Some Sender) ;;
  assertProtocolVersion record "v2" ;;;
  assertState record CredentialIssued ;;;
  lift (assertAckConnectionOrOutOfBandExchange messageContext
          (Some requestMessage) (Some credentialMessage) (connectionId record)) ;;;
  updateState record Done.

Definition createProblemReport (record : DidCommCredentialExchangeRecord)
  (description : string) : M World ProblemReportReturnType :=
  newId <- freshUuid uuid ;;
  ret {| reportReturnedRecord := record;
         reportReturnedMessage :=
           {| problemReportId := newId;
              problemReportDescription := description;
              problemReportCode := IssuanceAbandoned;
              problemReportThreadId := threadId record;
              problemReportParentThreadId := parentThreadId record |} |}.

Definition findCredentialMessage (credentialExchangeId : string)
  : M World (option CredentialMessage) :=
  findAgentMessage credentialExchangeId V2IssueCredentialMessage None.

(** [getFormatServiceForRecordType] *)
Definition getFormatServiceForRecordType (recordType : string)
  : Result CredentialFormatService :=
  match find (fun credentialFormat =>
                String.eqb (credentialRecordType credentialFormat) recordType)
             registeredFormats with
  | Some formatService => Ok formatService
  | None => Err (CredoError "No format service found for credential record type")
  end.

End Lifecycle.

End CredentialsLifecycle.

(* ------------------------------------------------------------------ *)
(** * Scenarios *)
(* ------------------------------------------------------------------ *)

Module PickupScenario.

Import Pickup.

Local Open Scope string_scope.
Local Open Scope list_scope.

Definition sampleUuid (n : nat) : string :=
  String (Ascii.ascii_of_nat (Nat.add 97 n)) EmptyString.

Definition readyConnection : ConnectionRecord :=
  {| connectionRecordId := "C"; isReady := true |}.

Definition recipient : AgentContext :=
  {| contextCorrelationId := "default";
     messagePickupModuleConfig := {| maximumBatchSize := 10 |} |}.

Definition statusOf (n : Z) : InboundMessageContext V2StatusMessage :=
  {| message := {| statusId := "status-1";
                   statusThid := Some "thread-1";
                   statusRecipientKey := None;
                   messageCount := n;
                   liveDelivery := None |};
     connection := Some readyConnection;
     agentContext := recipient |}.

Definition sealed (text : string) : EncryptedMessage :=
  {| protected := "header"; iv := "iv"; ciphertext := text; tag := "tag" |}.

Definition firstMessageId : string := "0b6e1a52-7c7e-4d4b-9a57-3f1d2c8e5a01".

Definition laterMessageId (n : nat) : string :=
  "0b6e1a52-7c7e-4d4b-9a57-3f1d2c8e5b" ++ sampleUuid n ++ sampleUuid n.

Definition firstQueued : QueuedMessage :=
  {| id := firstMessageId; encryptedMessage := sealed "first"; receivedAt := None |}.

(** The queue of the examples keeps the queued messages of every connection
    in one list, oldest first. Taking answers the oldest messages of the
    connection and deletes nothing; only [removeMessages] deletes. *)
Definition ListQueue : Type := list (string * QueuedMessage).

Definition queuedFor (connectionId : string) (q : ListQueue) : list QueuedMessage :=
  map snd (filter (fun entry => String.eqb (fst entry) connectionId) q).

Definition oldest (limit : option Z) (messages : list QueuedMessage)
  : list QueuedMessage :=
  match limit with
  | Some n => if (0 <? n)%Z then firstn (Z.to_nat n) messages else messages
  | None => messages
  end.

#[global] Instance listQueue : QueueTransportMessageRepository ListQueue := {
  getAvailableMessageCount options q :=
    Ok (Z.of_nat (List.length (queuedFor (count_connectionId options) q)));
  takeFromQueue options :=
    fun q => (Ok (oldest (take_limit options)
                         (queuedFor (take_connectionId options) q)), q);
  addMessage options :=
    fun q =>
      let newId := laterMessageId (List.length q) in
      (Ok newId,
       q ++ [(add_connectionId options,
              {| id := newId;
                 encryptedMessage := add_payload options;
                 receivedAt := None |})]);
  removeMessages options :=
    fun q =>
      (Ok tt,
       filter (fun entry =>
                 negb (existsb (String.eqb (id (snd entry)))
                               (remove_messageIds options))) q)
}.

Definition oneQueued : ListQueue := [("C", firstQueued)].

Definition holderWorld : World ListQueue :=
  {| queue := oneQueued; emitted := []; uuidCounter := 0 |}.

Definition emptyWorld : World ListQueue :=
  {| queue := []; emitted := []; uuidCounter := 0 |}.

(** The database client of the examples: it keeps the statements it is sent,
    answers every accepted statement with the same rows and rejects the
    others. *)
Record Recorder : Type := {
  accepts : string -> bool;
  answered : list PostgreSQL.ResultRow;
  sent : list string
}.

#[global] Instance recordingClient : PostgreSQL.Client Recorder := {
  PostgreSQL.query text parameters :=
    fun d =>
      (if accepts d text then Ok (answered d) else Err QueryFailed,
       {| accepts := accepts d; answered := answered d; sent := sent d ++ [text] |})
}.

Definition firstRow : PostgreSQL.ResultRow :=
  {| PostgreSQL.get_uuid := Some firstMessageId;
     PostgreSQL.get_payload := Some (sealed "first") |}.

Definition answering (rows : list PostgreSQL.ResultRow) : Recorder :=
  {| accepts := fun _ => true; answered := rows; sent := [] |}.

(** The client of a database that rejects an empty [IN (  )] list. *)
Definition strict (rows : list PostgreSQL.ResultRow) : Recorder :=
  {| accepts := fun text => negb (String.eqb text (PostgreSQL.removeStatement []));
     answered := rows;
     sent := [] |}.

(** Integers in decimal, as a template literal prints the limits of the
    examples. *)
Definition decimal (n : Z) : string := NilZero.string_of_int (Z.to_int n).

Definition takeFor (connectionId : string) (limit : option Z)
  (keepMessages : option bool) : TakeFromQueueOptions :=
  {| take_connectionId := connectionId;
     take_recipientDid := None;
     take_limit := limit;
     take_keepMessages := keepMessages |}.

Definition deliveryRequestOf (n : Z) : InboundMessageContext V2DeliveryRequestMessage :=
  {| message := {| deliveryRequestId := "request-1";
                   deliveryRequestThid := None;
                   deliveryRequestRecipientKey := None;
                   limit := n |};
     connection := Some readyConnection;
     agentContext := recipient |}.

Definition deliveryOf (attachments : option (list Attachment))
  : InboundMessageContext V2MessageDeliveryMessage :=
  {| message := {| deliveryId := "delivery-1";
                   deliveryThid := Some "thread-1";
                   deliveryRecipientKey := None;
                   appendedAttachments := attachments |};
     connection := Some readyConnection;
     agentContext := recipient |}.

Definition receivedOf (ids : list string)
  : InboundMessageContext V2MessagesReceivedMessage :=
  {| message := {| messagesReceivedId := "received-1";
                   messagesReceivedThid := Some "thread-1";
                   messageIdList := ids |};
     connection := Some readyConnection;
     agentContext := recipient |}.

End PickupScenario.

Module CredentialsScenario.

Import Credentials.

Local Open Scope string_scope.
Local Open Scope list_scope.

Definition sameData (a b : Attachment) : bool :=
  String.eqb (attachmentData a) (attachmentData b).

(** A format capability for format key [key] and wire format ["fmt/" ++ key];
    it approves when the two attachments it compares carry the same data. *)
Definition serviceFor (key : string) : CredentialFormatService :=
  {| formatKey := key;
     credentialRecordType := key;
     supportsFormat := String.eqb ("fmt/" ++ key);
     shouldAutoRespondToProposalFormat := fun _ offer proposal => sameData offer proposal;
     shouldAutoRespondToOfferFormat := fun _ offer proposal => sameData offer proposal;
     shouldAutoRespondToRequestFormat := fun _ offer request _ => sameData offer request;
     shouldAutoRespondToCredentialFormat :=
       fun _ _ credential request _ => sameData credential request |}.

Definition registered : list CredentialFormatService :=
  [serviceFor "F1"; serviceFor "F2"].

Definition builtClass (step : CoordinatorStep) : MessageClass :=
  match step with
  | CreateProposal => V2ProposeCredentialMessage
  | CreateOffer | AcceptProposal => V2OfferCredentialMessage
  | AcceptOffer => V2RequestCredentialMessage
  | AcceptRequest => V2IssueCredentialMessage
  | ProcessProposal => V2ProposeCredentialMessage
  | ProcessOffer => V2OfferCredentialMessage
  | ProcessRequest => V2RequestCredentialMessage
  end.

(** A coordinator that attaches one entry per format service it is handed,
    named after the service's format key, and stores the message it built
    (as sender) or processed (as receiver). *)
Definition recordingBuild (step : CoordinatorStep) (options : CoordinatorOptions)
  : M (list DidCommMessageRecord) CredentialMessage :=
  fun stored =>
    let keys := map (fun s => formatKey (snd s)) (coordinatorFormatServices options) in
    let built :=
      {| messageClass := builtClass step;
         messageId := "built";
         thid := Some (threadId (coordinatorRecord options));
         pthid := parentThreadId (coordinatorRecord options);
         formats := map (fun key => {| attachmentId := key; format := "fmt/" ++ key |}) keys;
         attachments := map (fun key => {| attachmentIdOf := key; attachmentData := "data" |}) keys;
         credentialPreview := None |} in
    (Ok built,
     stored ++ [{| associatedRecordId := id (coordinatorRecord options);
                   messageRole := Sender;
                   agentMessage := built |}]).

Definition recordingProcess (step : CoordinatorStep) (options : CoordinatorOptions)
  : M (list DidCommMessageRecord) unit :=
  fun stored =>
    match coordinatorMessage options with
    | Some m =>
        (Ok tt,
         stored ++ [{| associatedRecordId := id (coordinatorRecord options);
                       messageRole := Receiver;
                       agentMessage := m |}])
    | None => (Ok tt, stored)
    end.

Definition attachmentByFormat (formatService : CredentialFormatService)
  (specs : list DidCommCredentialFormatSpec) (attached : list Attachment)
  : Result Attachment :=
  match find (fun spec => supportsFormat formatService (format spec)) specs with
  | None => Err (CredoError "No attachment found for service")
  | Some spec =>
      match find (fun a => String.eqb (attachmentIdOf a) (attachmentId spec)) attached with
      | Some a => Ok a
      | None => Err (CredoError "Attachment not found in attachments")
      end
  end.

Definition anyConnection (_ : InboundDidCommMessageContext)
  (_ _ : option CredentialMessage) (_ : option string) : Result unit := Ok tt.

Definition anySender (_ : InboundDidCommMessageContext) (_ : option string)
  : Result unit := Ok tt.

Definition sampleUuid (n : nat) : string :=
  String (Ascii.ascii_of_nat (Nat.add 97 n)) EmptyString.

Definition messageOf (class : MessageClass) (keys : list string) (data : string)
  (preview : option V2CredentialPreview) : CredentialMessage :=
  {| messageClass := class;
     messageId := "message";
     thid := Some "T";
     pthid := None;
     formats := map (fun key => {| attachmentId := key; format := "fmt/" ++ key |}) keys;
     attachments := map (fun key => {| attachmentIdOf := key; attachmentData := data |}) keys;
     credentialPreview := preview |}.

(** A message whose attachments carry their own data, one per format key. *)
Definition messageWith (class : MessageClass) (entries : list (string * string))
  (preview : option V2CredentialPreview) : CredentialMessage :=
  {| messageClass := class;
     messageId := "message";
     thid := Some "T";
     pthid := None;
     formats :=
       map (fun entry => {| attachmentId := fst entry; format := "fmt/" ++ fst entry |})
           entries;
     attachments :=
       map (fun entry => {| attachmentIdOf := fst entry; attachmentData := snd entry |})
           entries;
     credentialPreview := preview |}.

Definition recordOf (recordId : string) (c : option string)
  (r : DidCommCredentialRole) (s : DidCommCredentialState)
  (policy : option DidCommAutoAcceptCredential) : DidCommCredentialExchangeRecord :=
  {| id := recordId;
     connectionId := c;
     threadId := "T";
     parentThreadId := None;
     state := s;
     role := r;
     autoAcceptCredential := policy;
     protocolVersion := "v2" |}.

Definition worldOf (records : list DidCommCredentialExchangeRecord)
  (stored : list DidCommMessageRecord) : World :=
  {| credentialRecords := records;
     didCommMessages := stored;
     emitted := [];
     uuidCounter := 0 |}.

(** The issuer offered format F1 only; the request it received attaches F1
    and F2. *)
Definition issuerRecord : DidCommCredentialExchangeRecord :=
  recordOf "record-1" (Some "C") Issuer RequestReceived None.

Definition offerSent : CredentialMessage :=
  messageOf V2OfferCredentialMessage ["F1"] "data" None.

Definition requestReceived : CredentialMessage :=
  messageOf V2RequestCredentialMessage ["F1"; "F2"] "data" None.

Definition issuerWorld : World :=
  worldOf [issuerRecord]
    [{| associatedRecordId := "record-1"; messageRole := Sender;
        agentMessage := offerSent |};
     {| associatedRecordId := "record-1"; messageRole := Receiver;
        agentMessage := requestReceived |}].

Definition acceptWithoutFormats (record : DidCommCredentialExchangeRecord)
  : AcceptOptions :=
  {| credentialExchangeRecord := record;
     credentialFormats := None;
     acceptAutoAcceptCredential := None;
     comment := None;
     goal := None;
     goalCode := None |}.

Definition inboundOn (c : option string) (m : CredentialMessage)
  : InboundDidCommMessageContext :=
  {| message := m; connection := option_map Build_ConnectionRecord c |}.

Definition negotiateWith (record : DidCommCredentialExchangeRecord)
  : NegotiateOptions :=
  {| negotiateRecord := record;
     negotiateCredentialFormats := [("F1", "payload")];
     negotiateAutoAcceptCredential := None;
     negotiateComment := None;
     negotiateGoal := None;
     negotiateGoalCode := None |}.

Definition attribute (n v : string) : CredentialPreviewAttribute :=
  {| name := n; mimeType := None; value := v |}.

Definition previewOf (attrs : list CredentialPreviewAttribute)
  : option V2CredentialPreview :=
  Some {| attributes := attrs |}.

(** A holder that answers offers under [ContentApproved] and has stored the
    given proposal as the one it sent. *)
Definition holderRecord : DidCommCredentialExchangeRecord :=
  recordOf "record-2" (Some "C") Holder OfferReceived (Some ContentApproved).

Definition holderWorld (proposal : CredentialMessage) : World :=
  worldOf [holderRecord]
    [{| associatedRecordId := "record-2"; messageRole := Sender;
        agentMessage := proposal |}].

(** A holder that has sent its request for format F1 and awaits the
    credential. *)
Definition requestingRecord : DidCommCredentialExchangeRecord :=
  recordOf "record-4" (Some "C") Holder RequestSent None.

Definition requestingWorld : World :=
  worldOf [requestingRecord]
    [{| associatedRecordId := "record-4"; messageRole := Sender;
        agentMessage := messageOf V2RequestCredentialMessage ["F1"] "data" None |}].

Definition credentialIssued : CredentialMessage :=
  messageOf V2IssueCredentialMessage ["F1"] "data" None.

(** A coordinator whose [processCredential] stores the credential message
    it is handed. *)
Definition storingCredential (options : CoordinatorOptions)
  (requestMessage : CredentialMessage) : M (list DidCommMessageRecord) unit :=
  fun stored =>
    match coordinatorMessage options with
    | Some m =>
        (Ok tt,
         stored ++ [{| associatedRecordId := id (coordinatorRecord options);
                       messageRole := Receiver;
                       agentMessage := m |}])
    | None => (Ok tt, stored)
    end.

End CredentialsScenario.

(* ------------------------------------------------------------------ *)
(** * Properties of the message pickup protocol *)
(* ------------------------------------------------------------------ *)

Module PickupProperties.

Import Pickup.

Section Generic.

Context {Q : Type} {repository : QueueTransportMessageRepository Q}.
Variable verkeyToDidKey : string -> string.
Variable getDataAsJson : Attachment -> option EncryptedMessage.
Variable uuid : nat -> string.

Lemma assertReadyConnection_ready :
  forall (W T : Type) (messageContext : InboundMessageContext T)
         (c : ConnectionRecord) (w : W),
    connection messageContext = Some c ->
    isReady c = true ->
    assertReadyConnection messageContext w = (Ok c, w).
Proof.
  intros W T messageContext c w Hc Hr.
  unfold assertReadyConnection. rewrite Hc, Hr. reflexivity.
Qed.

(** C7. Every delivery request that [processStatus] answers to a status
    message carries as limit the reported count when that is below
    [maximumBatchSize] and [maximumBatchSize] otherwise, so the limit never
    exceeds the maximum however large the count; and on a ready connection a
    non-zero count is always answered by such a request. *)
Theorem processStatus_limit_capped :
  forall (messageContext : InboundMessageContext V2StatusMessage) (w : World Q),
    let count := messageCount (message messageContext) in
    let maximum :=
      maximumBatchSize (messagePickupModuleConfig (agentContext messageContext)) in
    (forall request,
       fst (processStatus uuid messageContext w) = Ok (Some request) ->
       limit request = (if (count <? maximum)%Z then count else maximum)
       /\ (limit request <= maximum)%Z)
    /\ (forall c,
          connection messageContext = Some c ->
          isReady c = true ->
          count <> 0%Z ->
          exists request,
            fst (processStatus uuid messageContext w) = Ok (Some request)).
Proof.
  intros messageContext w count maximum.
  unfold processStatus, bind, assertReadyConnection, ret, throw.
  fold count maximum.
  destruct (connection messageContext) as [c|].
  - destruct (isReady c) eqn:Hready.
    + destruct (Z.eqb_spec count 0) as [Hz|Hz]; cbn.
      * split; [intros request H; discriminate|].
        intros c' _ _ Hn. contradiction.
      * split.
        -- intros request H. injection H as <-. cbn.
           destruct (Z.ltb_spec count maximum); split; lia.
        -- intros c' _ _ _. eexists. reflexivity.
    + split; [intros request H; discriminate|].
      intros c' Hc Hr. injection Hc as <-. congruence.
  - split; [intros request H; discriminate|].
    intros c' Hc. discriminate.
Qed.

(** C8. A status message that reports zero messages makes [processStatus]
    emit [MessagePickupCompleted] with the connection and the thread id of the
    status message and answer no delivery request; the handler then produces
    no outbound message. Neither call fails. *)
Theorem processStatus_zero_completes :
  forall (messageContext : InboundMessageContext V2StatusMessage)
         (c : ConnectionRecord) (w : World Q),
    connection messageContext = Some c ->
    isReady c = true ->
    messageCount (message messageContext) = 0%Z ->
    let completed :=
      MessagePickupCompleted c
        (threadIdOf (statusId (message messageContext))
                    (statusThid (message messageContext))) in
    let w' := {| queue := queue w;
                 emitted := emitted w ++ [completed];
                 uuidCounter := uuidCounter w |} in
    processStatus uuid messageContext w = (Ok None, w')
    /\ V2StatusHandler_handle uuid messageContext w = (Ok None, w').
Proof.
  intros messageContext c w Hc Hr Hz completed w'.
  assert (Hp : processStatus uuid messageContext w = (Ok None, w')).
  { unfold processStatus, bind.
    rewrite (assertReadyConnection_ready messageContext w Hc Hr).
    rewrite Hz. reflexivity. }
  split; [exact Hp|].
  unfold V2StatusHandler_handle, bind.
  rewrite (assertReadyConnection_ready messageContext w Hc Hr).
  rewrite Hp. reflexivity.
Qed.

Lemma deliverAttachments_not_problem_report :
  forall (context : AgentContext) (attachments : list Attachment)
         (ids : list string) (w : World Q) (reason : RoutingProblemReportReason),
    fst (deliverAttachments getDataAsJson context attachments ids w)
    <> Err (ProblemReportError reason).
Proof.
  intros context attachments.
  induction attachments as [|a rest IH]; intros ids w reason; cbn.
  - discriminate.
  - unfold bind, lift. destruct (getDataAsJson a) as [decoded|]; cbn.
    + apply IH.
    + discriminate.
Qed.

(** C9. [processDelivery] fails with the problem report
    [ErrorProcessingAttachments] only when the delivery message has no
    appended attachments at all, and on a ready connection it does fail so
    whenever they are absent; with a present but empty list it succeeds,
    emits nothing and acknowledges no id. *)
Theorem processDelivery_error_iff_no_attachments :
  forall (messageContext : InboundMessageContext V2MessageDeliveryMessage)
         (w : World Q),
    let run := processDelivery getDataAsJson uuid messageContext w in
    let attached := appendedAttachments (message messageContext) in
    (fst run = Err (ProblemReportError ErrorProcessingAttachments) ->
     attached = None)
    /\ (forall c,
          connection messageContext = Some c ->
          isReady c = true ->
          (attached = None ->
           fst run = Err (ProblemReportError ErrorProcessingAttachments))
          /\ (attached = Some [] ->
              exists received,
                fst run = Ok received
                /\ messageIdList received = []
                /\ emitted (snd run) = emitted w)).
Proof.
  intros messageContext w run attached. subst run attached. split.
  - unfold processDelivery, bind, assertReadyConnection, ret, throw.
    destruct (connection messageContext) as [c|]; [|discriminate].
    destruct (isReady c); [|discriminate].
    destruct (appendedAttachments (message messageContext)) as [attachments|];
      [|reflexivity].
    intros H. exfalso.
    pose proof (@deliverAttachments_not_problem_report
                  (agentContext messageContext) attachments [] w
                  ErrorProcessingAttachments) as Hd.
    destruct (deliverAttachments getDataAsJson (agentContext messageContext)
                attachments [] w) as [[ids|e] w1]; cbn in *.
    + discriminate.
    + congruence.
  - intros c Hc Hr.
    unfold processDelivery, bind.
    rewrite (assertReadyConnection_ready messageContext w Hc Hr).
    destruct (appendedAttachments (message messageContext)) as [attachments|].
    + split; [discriminate|].
      intros H. injection H as ->. cbn. eexists. repeat split.
    + split; [reflexivity|discriminate].
Qed.

(** C10. [processMessagesReceived] with an empty [messageIdList] leaves the
    queue store as it was and still answers a status message with the
    available count; with a non-empty list the queue store is the one
    [removeMessages] leaves when called once with the connection id and
    exactly [messageIdList]. *)
Theorem processMessagesReceived_removes_exactly :
  forall (messageContext : InboundMessageContext V2MessagesReceivedMessage)
         (c : ConnectionRecord) (w : World Q),
    connection messageContext = Some c ->
    isReady c = true ->
    let ids := messageIdList (message messageContext) in
    let countOptions := {| count_connectionId := connectionRecordId c;
                           count_recipientDid := None |} in
    let after := snd (processMessagesReceived uuid messageContext w) in
    (ids = [] ->
       queue after = queue w
       /\ forall n, getAvailableMessageCount countOptions (queue w) = Ok n ->
            exists status,
              fst (processMessagesReceived uuid messageContext w) = Ok status
              /\ messageCount (outboundMessage status) = n)
    /\ (ids <> [] ->
          queue after
          = snd (removeMessages {| remove_connectionId := connectionRecordId c;
                                   remove_messageIds := ids |} (queue w))).
Proof.
  intros messageContext c w Hc Hr ids countOptions after.
  subst after. unfold processMessagesReceived, bind.
  rewrite (assertReadyConnection_ready messageContext w Hc Hr).
  fold ids. split.
  - intros Hnil. rewrite Hnil. cbn. unfold onQueue. cbn.
    split.
    + destruct (getAvailableMessageCount _ (queue w)); reflexivity.
    + intros n Hn. fold countOptions. rewrite Hn. cbn. eexists. split; reflexivity.
  - intros Hne. destruct ids as [|i rest]; [congruence|]. cbn.
    unfold onQueue.
    destruct (removeMessages _ (queue w)) as [[[]|e] q1]; cbn; [|reflexivity].
    destruct (getAvailableMessageCount _ q1); reflexivity.
Qed.

End Generic.

Lemma collectRows_ids :
  forall (rows : list PostgreSQL.ResultRow),
    fst (PostgreSQL.collectRows rows) = map id (snd (PostgreSQL.collectRows rows)).
Proof.
  induction rows as [|row rest IH]; cbn; [reflexivity|].
  destruct (PostgreSQL.collectRows rest) as [uuids messages]. cbn in IH.
  destruct (PostgreSQL.get_uuid row) as [u|]; [|exact IH].
  destruct (PostgreSQL.get_payload row) as [p|]; [|exact IH].
  destruct (truthyString u); [|exact IH].
  cbn. rewrite IH. reflexivity.
Qed.



Import PickupScenario.

Local Open Scope string_scope.
Local Open Scope list_scope.

Lemma processStatus_limit_capped_witness :
  exists request,
    fst (processStatus sampleUuid (statusOf 15) holderWorld) = Ok (Some request)
    /\ limit request = 10%Z.
Proof.
  destruct (@processStatus_limit_capped ListQueue sampleUuid
              (statusOf 15) holderWorld) as [Hlimit Hanswered].
  destruct (Hanswered readyConnection eq_refl eq_refl ltac:(discriminate))
    as [request Hrun].
  exists request. split; [exact Hrun|].
  exact (proj1 (Hlimit request Hrun)).
Defined.

Lemma processStatus_zero_completes_witness :
  V2StatusHandler_handle sampleUuid (statusOf 0) emptyWorld
  = (Ok None,
     {| queue := queue emptyWorld;
        emitted := [MessagePickupCompleted readyConnection "thread-1"];
        uuidCounter := 0 |}).
Proof.
  exact (proj2 (@processStatus_zero_completes ListQueue sampleUuid
                  (statusOf 0) readyConnection emptyWorld
                  eq_refl eq_refl eq_refl)).
Defined.

Lemma processDelivery_error_iff_no_attachments_witness :
  fst (processDelivery (fun a => json (data a)) sampleUuid (deliveryOf None) emptyWorld)
    = Err (ProblemReportError ErrorProcessingAttachments)
  /\ exists received,
       fst (processDelivery (fun a => json (data a)) sampleUuid
              (deliveryOf (Some [])) emptyWorld) = Ok received
       /\ messageIdList received = [].
Proof.
  split.
  - exact (proj1 (proj2 (@processDelivery_error_iff_no_attachments
                           ListQueue (fun a => json (data a)) sampleUuid
                           (deliveryOf None) emptyWorld)
                    readyConnection eq_refl eq_refl) eq_refl).
  - destruct (proj2 (proj2 (@processDelivery_error_iff_no_attachments
                              ListQueue (fun a => json (data a)) sampleUuid
                              (deliveryOf (Some [])) emptyWorld)
                       readyConnection eq_refl eq_refl) eq_refl)
      as [received [Hrun [Hids _]]].
    exists received. split; [exact Hrun|exact Hids].
Defined.

Lemma processMessagesReceived_removes_exactly_witness :
  queue (snd (processMessagesReceived sampleUuid (receivedOf []) holderWorld))
    = oneQueued
  /\ queue (snd (processMessagesReceived sampleUuid (receivedOf [firstMessageId])
                    holderWorld))
     = [].
Proof.
  pose proof (@processMessagesReceived_removes_exactly ListQueue
                listQueue sampleUuid (receivedOf [])
                readyConnection holderWorld eq_refl eq_refl) as Hempty.
  pose proof (@processMessagesReceived_removes_exactly ListQueue
                listQueue sampleUuid
                (receivedOf [firstMessageId])
                readyConnection holderWorld eq_refl eq_refl) as Hone.
  cbv zeta in Hempty, Hone.
  split.
  - exact (proj1 (proj1 Hempty eq_refl)).
  - rewrite (proj2 Hone ltac:(discriminate)). reflexivity.
Defined.



End PickupProperties.

(* ------------------------------------------------------------------ *)
(** * Properties of the issue-credential protocol *)
(* ------------------------------------------------------------------ *)

Module CredentialsProperties.

Import Credentials.

Local Open Scope string_scope.
Local Open Scope list_scope.

Lemma eqbState_eq : forall a b, eqbState a b = true <-> a = b.
Proof.
  intros a b. split.
  - destruct a, b; cbn; intros H; try reflexivity; discriminate.
  - intros ->. destruct b; reflexivity.
Qed.

Lemma eqbState_refl : forall a, eqbState a a = true.
Proof. intros a. apply eqbState_eq. reflexivity. Qed.

Lemma updated_ids :
  forall (record : DidCommCredentialExchangeRecord)
         (records : list DidCommCredentialExchangeRecord),
    map id (map (fun r => if String.eqb (id r) (id record) then record else r) records)
    = map id records.
Proof.
  intros record records. induction records as [|r rest IH]; cbn.
  - reflexivity.
  - rewrite IH. destruct (String.eqb_spec (id r) (id record)) as [Heq|Hne].
    + rewrite Heq. reflexivity.
    + reflexivity.
Qed.

Lemma updateState_ids :
  forall record newState w,
    fst (updateState record newState w) = Ok (withState newState record)
    /\ map id (credentialRecords (snd (updateState record newState w)))
       = map id (credentialRecords w).
Proof.
  intros record newState w. split; [reflexivity|].
  cbn. apply (updated_ids (withState newState record)).
Qed.

Section Generic.

Variable registeredFormats : list CredentialFormatService.
Variable autoAcceptCredentials : DidCommAutoAcceptCredential.
Variable coordinatorBuild :
  CoordinatorStep -> CoordinatorOptions -> M (list DidCommMessageRecord) CredentialMessage.
Variable coordinatorProcess :
  CoordinatorStep -> CoordinatorOptions -> M (list DidCommMessageRecord) unit.
Variable getAttachmentForService :
  CredentialFormatService -> list DidCommCredentialFormatSpec -> list Attachment
  -> Result Attachment.
Variable assertConnectionOrOutOfBandExchange :
  InboundDidCommMessageContext -> option CredentialMessage -> option CredentialMessage
  -> option string -> Result unit.
Variable matchIncomingMessageToRequestMessageInOutOfBandExchange :
  InboundDidCommMessageContext -> option string -> Result unit.
Variable uuid : nat -> string.

Lemma accept_fallback_builds_with_received_services :
  forall (which : AcceptedStep) (options : AcceptOptions) (w : World)
         (received : CredentialMessage),
    protocolVersion (credentialExchangeRecord options) = "v2" ->
    state (credentialExchangeRecord options) = acceptedFrom which ->
    getFormatServices registeredFormats (payloadOrEmpty (credentialFormats options)) = [] ->
    lookupAgentMessage (id (credentialExchangeRecord options)) (fallbackClass which)
                       (Some Receiver) (didCommMessages w) = Some received ->
    accept registeredFormats coordinatorBuild which options w
    = buildWithFormatServices coordinatorBuild which
        (getFormatServicesFromMessage registeredFormats (formats received))
        options w.
Proof.
  intros which options w received Hversion Hstate Hnone Hstored.
  destruct which; cbn in Hstate, Hstored;
    unfold accept, acceptProposal, acceptOffer, acceptRequest,
           buildWithFormatServices, bind, assertProtocolVersion, assertState,
           getAgentMessage, findAgentMessage, gets, bind;
    rewrite Hversion, Hstate, Hnone; cbn; rewrite Hstored; cbn;
    reflexivity.
Qed.

(** C1, as the code has it. When an accept call names no format that
    resolves to a format service, the format services handed to the format
    coordinator are exactly those resolved from the stored message this agent
    received from the counterpart (the proposal for [acceptProposal], the
    offer for [acceptOffer], the request for [acceptRequest]); no other
    stored message is read to choose them. With no such service the call
    fails with [NoSupportedFormats] and changes nothing. Otherwise the
    coordinator is called once with these services, and the call does what
    the coordinator does with them: it fails with the coordinator's error,
    leaving the records as they were, or it answers the message the
    coordinator built, with the record in the next state. *)
Theorem accept_fallback_uses_received_message :
  forall (which : AcceptedStep) (options : AcceptOptions) (w : World)
         (received : CredentialMessage),
    protocolVersion (credentialExchangeRecord options) = "v2" ->
    state (credentialExchangeRecord options) = acceptedFrom which ->
    getFormatServices registeredFormats (payloadOrEmpty (credentialFormats options)) = [] ->
    lookupAgentMessage (id (credentialExchangeRecord options)) (fallbackClass which)
                       (Some Receiver) (didCommMessages w) = Some received ->
    let formatServices :=
      getFormatServicesFromMessage registeredFormats (formats received) in
    let built :=
      coordinatorBuild (acceptBuiltBy which)
        {| coordinatorRecord := credentialExchangeRecord options;
           coordinatorFormatServices := formatServices;
           coordinatorCredentialFormats := credentialFormats options;
           coordinatorMessage := None;
           coordinatorComment := comment options;
           coordinatorGoal := goal options;
           coordinatorGoalCode := goalCode options |}
        (didCommMessages w) in
    let run := accept registeredFormats coordinatorBuild which options w in
    (formatServices = [] -> run = (Err NoSupportedFormats, w))
    /\ (formatServices <> [] ->
        (forall e,
           fst built = Err e ->
           fst run = Err e
           /\ credentialRecords (snd run) = credentialRecords w
           /\ emitted (snd run) = emitted w
           /\ didCommMessages (snd run) = snd built)
        /\ (forall credentialMessage,
              fst built = Ok credentialMessage ->
              exists answer,
                fst run = Ok answer
                /\ returnedMessage answer = credentialMessage
                /\ id (returnedRecord answer) = id (credentialExchangeRecord options)
                /\ state (returnedRecord answer) = acceptedTo which
                /\ didCommMessages (snd run) = snd built)).
Proof.
  intros which options w received Hversion Hstate Hnone Hstored
         formatServices built run.
  subst run.
  rewrite (accept_fallback_builds_with_received_services which options w
             Hversion Hstate Hnone Hstored).
  fold formatServices. unfold buildWithFormatServices.
  split.
  - intros Hempty. rewrite Hempty. reflexivity.
  - intros Hsome.
    destruct formatServices as [|service services] eqn:Hservices; [congruence|].
    cbn [isEmpty]. unfold bind, onMessages. fold built.
    destruct built as [[credentialMessage|e] stored']; cbn.
    + split; [intros e H; discriminate|].
      intros credentialMessage' H. injection H as <-.
      eexists. repeat split.
    + split; [|intros credentialMessage H; discriminate].
      intros e' H. injection H as <-. repeat split.
Qed.

Lemma onMessages_records :
  forall (A : Type) (m : M (list DidCommMessageRecord) A) (w : World),
    credentialRecords (snd (onMessages m w)) = credentialRecords w.
Proof.
  intros A m w. unfold onMessages. destruct (m (didCommMessages w)). reflexivity.
Qed.

Ltac stopped_early :=
  cbn; split; [reflexivity|];
  split;
  [ intros ? ?; discriminate
  | intros ? [?|?]; first [contradiction | congruence | reflexivity] ].

(** C3. When the lookup of an inbound proposal, offer or request by thread
    id, role and (for offers) connection finds a record, the call creates no
    second record: the store keeps the same record ids; a successful call
    answers that very record, which then had protocol version v2 and was in
    the expected predecessor state; and if the message has a supported format
    but the record has another version or state, the call fails with
    [InvalidStateTransition] and leaves the world as it was. *)
Theorem process_matches_existing_record :
  forall (which : InboundStep) (messageContext : InboundDidCommMessageContext)
         (w : World) (record : DidCommCredentialExchangeRecord),
    find (matchesProperties (messageThreadId (message messageContext))
                            (lookupRole which)
                            (lookupConnection which messageContext))
         (credentialRecords w) = Some record ->
    let run :=
      process registeredFormats coordinatorProcess
              assertConnectionOrOutOfBandExchange
              matchIncomingMessageToRequestMessageInOutOfBandExchange
              uuid which messageContext w in
    map id (credentialRecords (snd run)) = map id (credentialRecords w)
    /\ (forall answered, fst run = Ok answered ->
          id answered = id record
          /\ protocolVersion record = "v2"
          /\ state record = predecessor which)
    /\ (getFormatServicesFromMessage registeredFormats
          (formats (message messageContext)) <> [] ->
        protocolVersion record <> "v2" \/ state record <> predecessor which ->
        run = (Err InvalidStateTransition, w)).
Proof.
  intros which messageContext w record Hfound run. subst run.
  destruct which; cbn in Hfound;
    unfold process, processProposal, processOffer, processRequest,
           findByProperties, findAgentMessage, gets, bind,
           assertProtocolVersion, assertState, lift, ret, throw;
    rewrite Hfound.
  all: destruct (getFormatServicesFromMessage registeredFormats
                   (formats (message messageContext))) as [|service services] eqn:Hformats;
    cbn [isEmpty]; [stopped_early|].
  all: destruct (String.eqb_spec (protocolVersion record) "v2") as [Hv|Hv];
    [|stopped_early].
  all: cbn [predecessor].
  all: match goal with
       | |- context [eqbState (state ?r) ?expected] =>
           destruct (eqbState (state r) expected) eqn:Hs
       end; [apply eqbState_eq in Hs|stopped_early].
  all: destruct (assertConnectionOrOutOfBandExchange _ _ _ _) as [[]|e];
    [|stopped_early].
  all: try (destruct (truthyOptString (connectionId record)); cbn [negb];
            [|destruct (matchIncomingMessageToRequestMessageInOutOfBandExchange _ _)
                as [[]|e]; [|stopped_early]]).
  all: unfold onMessages.
  all: match goal with
       | |- context [coordinatorProcess ?step ?options ?stored] =>
           destruct (coordinatorProcess step options stored) as [[[]|e] stored']
       end; [|stopped_early].
  all: cbn; split;
    [ match goal with
      | |- map id (map (fun r => if _ then ?new else r) ?stored) = _ =>
          exact (updated_ids new stored)
      end | ]; split;
    [ intros answered Ha; injection Ha as <-; repeat split; assumption
    | intros _ [H|H]; contradiction ].
Qed.

(** When the lookup finds no record, a successful call saves exactly one new
    record, the one it answers, under the thread id of the message. *)
Lemma process_creates_record_when_absent :
  forall (which : InboundStep) (messageContext : InboundDidCommMessageContext)
         (w : World) (answered : DidCommCredentialExchangeRecord),
    find (matchesProperties (messageThreadId (message messageContext))
                            (lookupRole which)
                            (lookupConnection which messageContext))
         (credentialRecords w) = None ->
    fst (process registeredFormats coordinatorProcess
                 assertConnectionOrOutOfBandExchange
                 matchIncomingMessageToRequestMessageInOutOfBandExchange
                 uuid which messageContext w) = Ok answered ->
    credentialRecords
      (snd (process registeredFormats coordinatorProcess
                    assertConnectionOrOutOfBandExchange
                    matchIncomingMessageToRequestMessageInOutOfBandExchange
                    uuid which messageContext w))
    = credentialRecords w ++ [answered]
    /\ threadId answered = messageThreadId (message messageContext)
    /\ role answered = lookupRole which.
Proof.
  intros which messageContext w answered Hfound.
  destruct which; cbn in Hfound;
    unfold process, processProposal, processOffer, processRequest,
           findByProperties, findAgentMessage, gets, bind,
           assertProtocolVersion, assertState, lift, ret, throw;
    rewrite Hfound.
  all: destruct (getFormatServicesFromMessage registeredFormats
                   (formats (message messageContext))) as [|service services];
    cbn [isEmpty]; [cbn; discriminate|].
  all: destruct (assertConnectionOrOutOfBandExchange _ _ _ _) as [[]|e];
    [|cbn; discriminate].
  all: unfold freshUuid, onMessages.
  all: match goal with
       | |- context [coordinatorProcess ?step ?options ?stored] =>
           destruct (coordinatorProcess step options stored) as [[[]|e] stored']
       end; [|cbn; discriminate].
  all: cbn; intros Ha; injection Ha as <-; repeat split.
Qed.

(** C4. [negotiateProposal] and [negotiateOffer] on a record without
    connection id always fail and leave the world untouched; for a v2 record
    in the state the negotiation is valid from, the failure is
    [NegotiationNotSupported]. With a connection id, a supported format and a
    coordinator that builds the counter-message, the call succeeds and
    persists the record in [OfferSent] (after [negotiateProposal]) or
    [ProposalSent] (after [negotiateOffer]). *)
Theorem negotiate_requires_connection :
  forall (which : Negotiation) (options : NegotiateOptions) (w : World),
    let record := negotiateRecord options in
    let run := negotiate registeredFormats coordinatorBuild which options w in
    (connectionId record = None ->
       snd run = w
       /\ isOk (fst run) = false
       /\ (protocolVersion record = "v2" ->
           state record = negotiatedFrom which ->
           fst run = Err NegotiationNotSupported))
    /\ (protocolVersion record = "v2" ->
        state record = negotiatedFrom which ->
        truthyOptString (connectionId record) = true ->
        getFormatServices registeredFormats (negotiateCredentialFormats options) <> [] ->
        (forall asked,
           isOk (fst (coordinatorBuild (negotiationBuiltBy which) asked
                        (didCommMessages w))) = true) ->
        exists answer,
          fst run = Ok answer
          /\ id (returnedRecord answer) = id record
          /\ state (returnedRecord answer) = negotiatedTo which
          /\ credentialRecords (snd run)
             = map (fun r => if String.eqb (id r) (id record)
                             then returnedRecord answer else r)
                   (credentialRecords w)).
Proof.
  intros which options w record run. subst run. split.
  - intros Hnone.
    destruct which;
      unfold negotiate, negotiateProposal, negotiateOffer, bind,
             assertProtocolVersion, assertState, ret, throw;
      fold record; rewrite Hnone; cbn [negotiatedFrom truthyOptString negb].
    all: destruct (String.eqb_spec (protocolVersion record) "v2") as [Hv|Hv];
      [|cbn; repeat split; intros; congruence].
    all: match goal with
         | |- context [eqbState (state ?r) ?expected] =>
             destruct (eqbState (state r) expected) eqn:Hs
         end;
      [|apply not_true_iff_false in Hs; rewrite eqbState_eq in Hs;
        cbn; repeat split; intros; congruence].
    all: cbn; repeat split.
  - intros Hv Hs Hc Hformats Hbuilds.
    destruct which; cbn [negotiatedFrom negotiatedTo negotiationBuiltBy] in *;
      unfold negotiate, negotiateProposal, negotiateOffer, bind,
             assertProtocolVersion, assertState, ret, throw, onMessages;
      fold record; rewrite Hv, Hs, Hc; cbn.
    all: destruct (getFormatServices registeredFormats
                     (negotiateCredentialFormats options)) as [|service services];
      [congruence|]; cbn.
    all: match goal with
         | |- context [coordinatorBuild ?step ?asked ?stored] =>
             specialize (Hbuilds asked);
             destruct (coordinatorBuild step asked stored) as [[built|e] stored']
         end; [|discriminate].
    all: cbn; eexists; repeat split.
Qed.

Lemma allFormatsRespond_true :
  forall (respond : CredentialFormatService -> Result bool)
         (formatServices : list FoundService),
    allFormatsRespond formatServices respond = Ok true ->
    forall s, In s formatServices -> respond (snd s) = Ok true.
Proof.
  intros respond formatServices.
  induction formatServices as [|[position service] rest IH]; cbn.
  - intros _ s [].
  - destruct (respond service) as [[|]|e] eqn:Hr; try discriminate.
    intros Hrest s [<-|Hin]; [exact Hr|apply IH; assumption].
Qed.

Lemma allFormatsRespond_all_true :
  forall (respond : CredentialFormatService -> Result bool)
         (formatServices : list FoundService),
    (forall s, In s formatServices -> respond (snd s) = Ok true) ->
    allFormatsRespond formatServices respond = Ok true.
Proof.
  intros respond formatServices.
  induction formatServices as [|[position service] rest IH]; cbn; intros Hall.
  - reflexivity.
  - pose proof (Hall (position, service) (or_introl eq_refl)) as Hhead.
    cbn in Hhead. rewrite Hhead.
    apply IH. intros s Hin. apply Hall. right. exact Hin.
Qed.

Lemma allFormatsRespond_first_refusal :
  forall (respond : CredentialFormatService -> Result bool)
         (before after : list FoundService) (s : FoundService),
    (forall b, In b before -> respond (snd b) = Ok true) ->
    respond (snd s) <> Ok true ->
    allFormatsRespond (before ++ s :: after) respond = respond (snd s).
Proof.
  intros respond before after [position service].
  induction before as [|[position' service'] rest IH]; cbn; intros Hbefore Hrefuses.
  - destruct (respond service) as [[|]|e]; [congruence|reflexivity|reflexivity].
  - pose proof (Hbefore (position', service') (or_introl eq_refl)) as Hhead.
    cbn in Hhead. rewrite Hhead.
    apply IH; [|exact Hrefuses].
    intros b Hin. apply Hbefore. right. exact Hin.
Qed.

(** C5, as the code has it. Each auto-accept decision reads the world
    without changing it and resolves the policy as the record's override,
    else the module default. [Always] answers true and [Never] false. Under
    [ContentApproved] a missing stored counterpart message answers false.
    Otherwise the format services of the stored message are consulted in
    order: for each one the attachments are looked up in the messages and its
    capability is asked. The first format that does not approve decides: when
    its capability answers false the decision is false, and when a lookup of
    its attachments fails the call raises that error, whatever the later
    formats would answer. When every format approves, the decision is the
    preview comparison. *)
Theorem shouldAutoRespond_decision :
  forall (which : AutoResponse) (record : DidCommCredentialExchangeRecord)
         (inbound : CredentialMessage) (w : World),
    let policy :=
      composeAutoAccept (autoAcceptCredential record) autoAcceptCredentials in
    let run :=
      shouldAutoRespond registeredFormats autoAcceptCredentials
                        getAttachmentForService which record inbound w in
    let stored class :=
      lookupAgentMessage (id record) class None (didCommMessages w) in
    policy = match autoAcceptCredential record with
             | Some override => override
             | None => autoAcceptCredentials
             end
    /\ snd run = w
    /\ (policy = Always -> fst run = Ok true)
    /\ (policy = Never -> fst run = Ok false)
    /\ (policy = ContentApproved -> stored (priorClass which) = None ->
        fst run = Ok false)
    /\ (forall prior,
          policy = ContentApproved ->
          stored (priorClass which) = Some prior ->
          let consulted :=
            getFormatServicesFromMessage registeredFormats (formats prior) in
          let attached formatService m :=
            getAttachmentForService formatService (formats m) (attachments m) in
          let optional formatService m :=
            match m with
            | Some m' =>
                match attached formatService m' with
                | Ok a => Ok (Some a)
                | Err e => Err e
                end
            | None => Ok None
            end in
          let answer formatService :=
            match which with
            | ToProposal =>
                match attached formatService prior with
                | Ok offerAttachment =>
                    match attached formatService inbound with
                    | Ok proposalAttachment =>
                        Ok (shouldAutoRespondToProposalFormat formatService record
                              offerAttachment proposalAttachment)
                    | Err e => Err e
                    end
                | Err e => Err e
                end
            | ToOffer =>
                match attached formatService inbound with
                | Ok offerAttachment =>
                    match attached formatService prior with
                    | Ok proposalAttachment =>
                        Ok (shouldAutoRespondToOfferFormat formatService record
                              offerAttachment proposalAttachment)
                    | Err e => Err e
                    end
                | Err e => Err e
                end
            | ToRequest =>
                match attached formatService prior with
                | Ok offerAttachment =>
                    match optional formatService (stored V2ProposeCredentialMessage) with
                    | Ok proposalAttachment =>
                        match attached formatService inbound with
                        | Ok requestAttachment =>
                            Ok (shouldAutoRespondToRequestFormat formatService record
                                  offerAttachment requestAttachment proposalAttachment)
                        | Err e => Err e
                        end
                    | Err e => Err e
                    end
                | Err e => Err e
                end
            | ToCredential =>
                match optional formatService (stored V2OfferCredentialMessage) with
                | Ok offerAttachment =>
                    match optional formatService (stored V2ProposeCredentialMessage) with
                    | Ok proposalAttachment =>
                        match attached formatService prior with
                        | Ok requestAttachment =>
                            match attached formatService inbound with
                            | Ok credentialAttachment =>
                                Ok (shouldAutoRespondToCredentialFormat formatService
                                      record offerAttachment credentialAttachment
                                      requestAttachment proposalAttachment)
                            | Err e => Err e
                            end
                        | Err e => Err e
                        end
                    | Err e => Err e
                    end
                | Err e => Err e
                end
            end in
          (fst run = Ok true ->
             forall s, In s consulted -> answer (snd s) = Ok true)
          /\ (forall before s after,
                consulted = before ++ s :: after ->
                (forall b, In b before -> answer (snd b) = Ok true) ->
                answer (snd s) <> Ok true ->
                fst run = answer (snd s))
          /\ ((forall s, In s consulted -> answer (snd s) = Ok true) ->
              fst run = Ok (previewDecision which inbound prior))).
Proof.
  intros which record inbound w policy run stored.
  split; [reflexivity|].
  assert (Hrun : run = shouldAutoRespond registeredFormats autoAcceptCredentials
                         getAttachmentForService which record inbound w)
    by reflexivity.
  clearbody run. subst stored. cbv beta.
  destruct which; cbn [priorClass];
    unfold shouldAutoRespond, shouldAutoRespondToProposal, shouldAutoRespondToOffer,
           shouldAutoRespondToRequest, shouldAutoRespondToCredential,
           findOfferMessage, findProposalMessage, findRequestMessage,
           findAgentMessage, gets, bind, lift, ret in Hrun;
    fold policy in Hrun; cbn [fst snd] in Hrun.
  all: destruct policy eqn:Hpolicy;
    [ subst run; cbn; repeat split; intros; congruence
    | | subst run; cbn; repeat split; intros; congruence ].
  all: match goal with
       | |- context [lookupAgentMessage ?r ?class None ?ms = None -> _] =>
           destruct (lookupAgentMessage r class None ms) as [prior|] eqn:Hstored
       end;
    [| subst run; cbn; repeat split; intros; congruence ].
  all: split;
    [ subst run;
      match goal with
      | |- context [allFormatsRespond ?l ?f] => destruct (allFormatsRespond l f) as [[|]|e]
      end; cbn;
      repeat match goal with
             | |- context [if ?b then _ else _] => destruct b; cbn
             end; reflexivity | ].
  all: split; [discriminate|]; split; [discriminate|]; split; [discriminate|].
  all: intros prior' _ Hprior; injection Hprior as <-.
  all: match type of Hrun with
       | context [allFormatsRespond ?l ?f] =>
           split; [|split];
           [ intros Htrue s Hin; subst run;
             destruct (allFormatsRespond l f) as [[|]|e] eqn:Hall;
             [ exact (allFormatsRespond_true f l Hall s Hin)
             | cbn in Htrue; discriminate
             | cbn in Htrue; discriminate ]
           | intros before s after Hsplit Hbefore Hrefuses; subst run;
             rewrite Hsplit;
             rewrite (allFormatsRespond_first_refusal f before after s
                        Hbefore Hrefuses);
             match goal with
             | |- _ = ?answered => change answered with (f (snd s))
             end;
             destruct (f (snd s)) as [[|]|e] eqn:Hanswered;
             [ exfalso; apply Hrefuses; exact Hanswered
             | reflexivity
             | reflexivity ]
           | intros Hall; subst run;
             rewrite (allFormatsRespond_all_true f l Hall); cbn;
             repeat match goal with
                    | |- context [if ?b then _ else _] => destruct b; cbn
                    end; reflexivity ]
       end.
Qed.

End Generic.

Import CredentialsScenario.

Lemma accept_fallback_uses_received_message_witness :
  exists answer,
    fst (acceptRequest registered recordingBuild (acceptWithoutFormats issuerRecord)
                       issuerWorld) = Ok answer
    /\ state (returnedRecord answer) = CredentialIssued
    /\ Ok (returnedMessage answer)
       = fst (recordingBuild AcceptRequest
                {| coordinatorRecord := issuerRecord;
                   coordinatorFormatServices :=
                     [(0%nat, serviceFor "F1"); (1%nat, serviceFor "F2")];
                   coordinatorCredentialFormats := None;
                   coordinatorMessage := None;
                   coordinatorComment := None;
                   coordinatorGoal := None;
                   coordinatorGoalCode := None |}
                (didCommMessages issuerWorld)).
Proof.
  destruct (@accept_fallback_uses_received_message registered recordingBuild
              AcceptingRequest (acceptWithoutFormats issuerRecord) issuerWorld
              requestReceived eq_refl eq_refl eq_refl eq_refl)
    as [_ Hcalled].
  destruct (proj2 (Hcalled ltac:(discriminate)) _ eq_refl)
    as [answer [Hrun [Hmessage [_ [Hstate _]]]]].
  exists answer. split; [exact Hrun|]. split; [exact Hstate|].
  rewrite Hmessage. reflexivity.
Defined.

(** C1 as stated fails. The issuer's last sent message, the offer, carries
    format F1 only; the request it received attaches F1 and F2.
    [acceptRequest] without explicit formats hands the format coordinator the
    services of F1 and of F2, whatever the coordinator is: F2 is not ignored.
    A coordinator that rejects these services makes the call fail with its
    error, and the message of one that builds from them is the message
    answered. *)
Lemma acceptRequest_uses_inbound_request_formats :
  lookupAgentMessage "record-1" V2OfferCredentialMessage (Some Sender)
    (didCommMessages issuerWorld) = Some offerSent
  /\ getFormatServicesFromMessage registered (formats offerSent)
     = [(0%nat, serviceFor "F1")]
  /\ (forall (coordinatorBuild :
                CoordinatorStep -> CoordinatorOptions
                -> M (list DidCommMessageRecord) CredentialMessage),
        (forall e stored',
           coordinatorBuild AcceptRequest
             {| coordinatorRecord := issuerRecord;
                coordinatorFormatServices :=
                  [(0%nat, serviceFor "F1"); (1%nat, serviceFor "F2")];
                coordinatorCredentialFormats := None;
                coordinatorMessage := None;
                coordinatorComment := None;
                coordinatorGoal := None;
                coordinatorGoalCode := None |}
             (didCommMessages issuerWorld) = (Err e, stored') ->
           fst (acceptRequest registered coordinatorBuild
                  (acceptWithoutFormats issuerRecord) issuerWorld) = Err e)
        /\ (forall credentialMessage stored',
              coordinatorBuild AcceptRequest
                {| coordinatorRecord := issuerRecord;
                   coordinatorFormatServices :=
                     [(0%nat, serviceFor "F1"); (1%nat, serviceFor "F2")];
                   coordinatorCredentialFormats := None;
                   coordinatorMessage := None;
                   coordinatorComment := None;
                   coordinatorGoal := None;
                   coordinatorGoalCode := None |}
                (didCommMessages issuerWorld) = (Ok credentialMessage, stored') ->
              exists answer,
                fst (acceptRequest registered coordinatorBuild
                       (acceptWithoutFormats issuerRecord) issuerWorld) = Ok answer
                /\ returnedMessage answer = credentialMessage)).
Proof.
  split; [reflexivity|]. split; [reflexivity|].
  intros coordinatorBuild.
  pose proof (@accept_fallback_builds_with_received_services registered
                coordinatorBuild AcceptingRequest (acceptWithoutFormats issuerRecord)
                issuerWorld requestReceived eq_refl eq_refl eq_refl eq_refl) as Hrun.
  change (accept registered coordinatorBuild AcceptingRequest)
    with (acceptRequest registered coordinatorBuild) in Hrun.
  rewrite Hrun. unfold buildWithFormatServices, bind, onMessages.
  change (isEmpty (getFormatServicesFromMessage registered (formats requestReceived)))
    with false.
  cbv iota.
  split.
  - intros e stored' Hbuilt.
    match type of Hbuilt with
    | ?call = _ =>
        match goal with
        | |- context [coordinatorBuild ?step ?asked ?stored] =>
            change (coordinatorBuild step asked stored) with call
        end
    end.
    rewrite Hbuilt. reflexivity.
  - intros credentialMessage stored' Hbuilt.
    match type of Hbuilt with
    | ?call = _ =>
        match goal with
        | |- context [coordinatorBuild ?step ?asked ?stored] =>
            change (coordinatorBuild step asked stored) with call
        end
    end.
    rewrite Hbuilt. eexists. split; reflexivity.
Qed.

Lemma process_matches_existing_record_witness :
  let proposal := messageOf V2ProposeCredentialMessage ["F1"] "data" None in
  let offer := messageOf V2OfferCredentialMessage ["F1"] "data" None in
  processOffer registered recordingProcess anyConnection sampleUuid
               (inboundOn (Some "C") offer) (holderWorld proposal)
  = (Err InvalidStateTransition, holderWorld proposal).
Proof.
  intros proposal offer.
  apply (proj2 (proj2 (@process_matches_existing_record registered recordingProcess
                         anyConnection anySender sampleUuid InboundOffer
                         (inboundOn (Some "C") offer) (holderWorld proposal)
                         holderRecord eq_refl))).
  - discriminate.
  - right. discriminate.
Defined.

(** A first offer on a new thread creates the holder's record; the same
    offer replayed is matched to it and rejected, and the store still holds
    one record. *)
Example replayed_offer_is_rejected :
  let offer := messageOf V2OfferCredentialMessage ["F1"] "data" None in
  let first :=
    processOffer registered recordingProcess anyConnection sampleUuid
                 (inboundOn (Some "C") offer) (worldOf [] []) in
  let replay :=
    processOffer registered recordingProcess anyConnection sampleUuid
                 (inboundOn (Some "C") offer) (snd first) in
  isOk (fst first) = true
  /\ List.length (credentialRecords (snd first)) = 1%nat
  /\ fst replay = Err InvalidStateTransition
  /\ snd replay = snd first.
Proof. repeat split. Qed.

Lemma negotiate_requires_connection_witness :
  let connectionless := recordOf "record-3" None Issuer ProposalReceived None in
  let connected := recordOf "record-3" (Some "C") Issuer ProposalReceived None in
  negotiateProposal registered recordingBuild (negotiateWith connectionless)
                    (worldOf [connectionless] [])
  = (Err NegotiationNotSupported, worldOf [connectionless] [])
  /\ exists answer,
       fst (negotiateProposal registered recordingBuild (negotiateWith connected)
              (worldOf [connected] [])) = Ok answer
       /\ state (returnedRecord answer) = OfferSent.
Proof.
  intros connectionless connected. split.
  - destruct (proj1 (@negotiate_requires_connection registered recordingBuild
                       NegotiatingProposal (negotiateWith connectionless)
                       (worldOf [connectionless] [])) eq_refl)
      as [Hworld [_ Herror]].
    specialize (Herror eq_refl eq_refl).
    apply injective_projections; [exact Herror|exact Hworld].
  - destruct (proj2 (@negotiate_requires_connection registered recordingBuild
                       NegotiatingProposal (negotiateWith connected)
                       (worldOf [connected] []))
                eq_refl eq_refl eq_refl ltac:(discriminate)
                (fun asked => eq_refl))
      as [answer [Hrun [_ [Hstate _]]]].
    exists answer. split; [exact Hrun|exact Hstate].
Defined.

Lemma shouldAutoRespond_decision_witness :
  let proposal :=
    messageWith V2ProposeCredentialMessage [("F1", "data"); ("F2", "data")] None in
  let agreeing :=
    messageWith V2OfferCredentialMessage [("F1", "data"); ("F2", "data")] None in
  let disagreeing :=
    messageWith V2OfferCredentialMessage [("F1", "data"); ("F2", "other")] None in
  fst (shouldAutoRespondToOffer registered Never attachmentByFormat
         holderRecord agreeing (holderWorld proposal)) = Ok true
  /\ fst (shouldAutoRespondToOffer registered Never attachmentByFormat
            holderRecord disagreeing (holderWorld proposal)) = Ok false
  /\ fst (shouldAutoRespondToOffer registered Never attachmentByFormat
            holderRecord agreeing (worldOf [holderRecord] [])) = Ok false.
Proof.
  intros proposal agreeing disagreeing.
  pose proof (@shouldAutoRespond_decision registered Never attachmentByFormat
                ToOffer holderRecord agreeing (holderWorld proposal))
    as [_ [_ [_ [_ [_ Hagreeing]]]]].
  pose proof (@shouldAutoRespond_decision registered Never attachmentByFormat
                ToOffer holderRecord disagreeing (holderWorld proposal))
    as [_ [_ [_ [_ [_ Hdisagreeing]]]]].
  pose proof (@shouldAutoRespond_decision registered Never attachmentByFormat
                ToOffer holderRecord agreeing (worldOf [holderRecord] []))
    as [_ [_ [_ [_ [Hmissing _]]]]].
  split; [|split].
  - destruct (Hagreeing proposal eq_refl eq_refl) as [_ [_ Hall]].
    apply Hall. intros s [<-|[<-|[]]]; reflexivity.
  - destruct (Hdisagreeing proposal eq_refl eq_refl) as [_ [Hfirst _]].
    apply (Hfirst [(0%nat, serviceFor "F1")] (1%nat, serviceFor "F2") [] eq_refl).
    + intros b [<-|[]]. reflexivity.
    + discriminate.
  - exact (Hmissing eq_refl eq_refl).
Defined.

(** C5 as stated fails. The holder's stored proposal carries formats F1 and
    F2; the inbound offer attaches F2 only, with other data, so the capability
    of F2 refuses. F1 is consulted first: when the lookup of its attachment in
    the offer fails, [shouldAutoRespondToOffer] raises that error instead of
    answering false, whatever the lookup is; with the lookup of the examples
    it does fail. *)
Lemma shouldAutoRespondToOffer_raises_on_a_missing_attachment :
  (forall (getAttachmentForService :
             CredentialFormatService -> list DidCommCredentialFormatSpec
             -> list Attachment -> Result Attachment)
          (e : Error),
     getAttachmentForService (serviceFor "F1")
       (formats (messageWith V2OfferCredentialMessage [("F2", "other")] None))
       (attachments (messageWith V2OfferCredentialMessage [("F2", "other")] None))
     = Err e ->
     fst (shouldAutoRespondToOffer registered Never getAttachmentForService
            holderRecord
            (messageWith V2OfferCredentialMessage [("F2", "other")] None)
            (holderWorld (messageWith V2ProposeCredentialMessage
                            [("F1", "data"); ("F2", "data")] None)))
     = Err e)
  /\ shouldAutoRespondToOfferFormat (serviceFor "F2") holderRecord
       {| attachmentIdOf := "F2"; attachmentData := "other" |}
       {| attachmentIdOf := "F2"; attachmentData := "data" |} = false
  /\ isOk (fst (shouldAutoRespondToOffer registered Never attachmentByFormat
                  holderRecord
                  (messageWith V2OfferCredentialMessage [("F2", "other")] None)
                  (holderWorld (messageWith V2ProposeCredentialMessage
                                  [("F1", "data"); ("F2", "data")] None))))
     = false.
Proof.
  split; [|split; reflexivity].
  intros getAttachmentForService e Hmissing.
  unfold shouldAutoRespondToOffer, findProposalMessage, findAgentMessage, gets,
         bind, lift.
  change (composeAutoAccept (autoAcceptCredential holderRecord) Never)
    with ContentApproved.
  cbv iota beta.
  change (lookupAgentMessage (id holderRecord) V2ProposeCredentialMessage None
            (didCommMessages
               (holderWorld (messageWith V2ProposeCredentialMessage
                               [("F1", "data"); ("F2", "data")] None))))
    with (Some (messageWith V2ProposeCredentialMessage
                  [("F1", "data"); ("F2", "data")] None)).
  cbv iota beta zeta.
  change (getFormatServicesFromMessage registered
            (formats (messageWith V2ProposeCredentialMessage
                        [("F1", "data"); ("F2", "data")] None)))
    with [(0%nat, serviceFor "F1"); (1%nat, serviceFor "F2")].
  cbn [allFormatsRespond].
  unfold offerFormatResponse at 1. unfold attachmentOf at 1.
  rewrite Hmissing. reflexivity.
Qed.

(** C6, evaluated. Under [ContentApproved] the holder's stored proposal
    carries a preview with no attribute and the inbound offer carries no
    preview at all (or the other way round): [shouldAutoRespondToOffer]
    answers true, where the specification, the comment above the comparison
    and the sibling [shouldAutoRespondToProposal] on the mirrored input say
    false. Unequal attribute values (John, Jane) do answer false. *)
Theorem shouldAutoRespondToOffer_accepts_one_sided_empty_preview :
  let withEmptyPreview class := messageOf class ["F1"] "data" (previewOf []) in
  let withoutPreview class := messageOf class ["F1"] "data" None in
  let named class who :=
    messageOf class ["F1"] "data" (previewOf [attribute "name" who]) in
  let issuer :=
    recordOf "record-2" (Some "C") Issuer ProposalReceived (Some ContentApproved) in
  let offeringWorld offer :=
    worldOf [issuer]
      [{| associatedRecordId := "record-2"; messageRole := Sender;
          agentMessage := offer |}] in
  fst (shouldAutoRespondToOffer registered Never attachmentByFormat holderRecord
         (withoutPreview V2OfferCredentialMessage)
         (holderWorld (withEmptyPreview V2ProposeCredentialMessage))) = Ok true
  /\ fst (shouldAutoRespondToOffer registered Never attachmentByFormat holderRecord
            (withEmptyPreview V2OfferCredentialMessage)
            (holderWorld (withoutPreview V2ProposeCredentialMessage))) = Ok true
  /\ fst (shouldAutoRespondToProposal registered Never attachmentByFormat issuer
            (withEmptyPreview V2ProposeCredentialMessage)
            (offeringWorld (withoutPreview V2OfferCredentialMessage))) = Ok false
  /\ fst (shouldAutoRespondToOffer registered Never attachmentByFormat holderRecord
            (named V2OfferCredentialMessage "Jane")
            (holderWorld (named V2ProposeCredentialMessage "John"))) = Ok false.
Proof. repeat split. Qed.

End CredentialsProperties.

(* ------------------------------------------------------------------ *)
(** * Further properties of the message pickup protocol *)
(* ------------------------------------------------------------------ *)

Module PickupFurther.

Import Pickup PickupClient.

Local Open Scope list_scope.

Section Decoding.

Context {Q : Type}.
Variable getDataAsJson : Attachment -> option EncryptedMessage.

(** The events [processDelivery] emits for a run of decoded attachments. *)
Lemma deliverAttachments_decoded :
  forall (context : AgentContext) (attachments : list Attachment)
         (payloads : list EncryptedMessage) (ids : list string) (w : World Q),
    map getDataAsJson attachments = map Some payloads ->
    deliverAttachments getDataAsJson context attachments ids w
    = (Ok (ids ++ map attachmentId attachments),
       {| queue := queue w;
          emitted :=
            emitted w
            ++ map (fun ap => AgentMessageReceived (snd ap)
                                (contextCorrelationId context) (lastmodTime (fst ap)))
                   (combine attachments payloads);
          uuidCounter := uuidCounter w |}).
Proof.
  intros context attachments.
  induction attachments as [|a rest IH]; intros payloads ids w Hdecoded.
  - destruct payloads; [|discriminate]. cbn.
    rewrite !app_nil_r. destruct w; reflexivity.
  - destruct payloads as [|p payloads]; [discriminate|].
    cbn in Hdecoded. injection Hdecoded as Ha Hrest.
    cbn. unfold bind, lift. rewrite Ha. cbn.
    rewrite (IH payloads _ _ Hrest). cbn.
    rewrite <- !app_assoc. reflexivity.
Qed.

Lemma deliverAttachments_app :
  forall (context : AgentContext) (first rest : list Attachment)
         (payloads : list EncryptedMessage) (ids : list string) (w : World Q),
    map getDataAsJson first = map Some payloads ->
    deliverAttachments getDataAsJson context (first ++ rest) ids w
    = deliverAttachments getDataAsJson context rest
        (ids ++ map attachmentId first)
        {| queue := queue w;
           emitted :=
             emitted w
             ++ map (fun ap => AgentMessageReceived (snd ap)
                                 (contextCorrelationId context) (lastmodTime (fst ap)))
                    (combine first payloads);
           uuidCounter := uuidCounter w |}.
Proof.
  intros context first.
  induction first as [|a more IH]; intros rest payloads ids w Hdecoded.
  - destruct payloads; [|discriminate]. cbn.
    rewrite !app_nil_r. destruct w; reflexivity.
  - destruct payloads as [|p payloads]; [discriminate|].
    cbn in Hdecoded. injection Hdecoded as Ha Hrest.
    cbn. unfold bind, lift. rewrite Ha. cbn.
    rewrite (IH rest payloads _ _ Hrest). cbn.
    rewrite <- !app_assoc. reflexivity.
Qed.

End Decoding.

Section Generic.

Context {Q : Type} {repository : QueueTransportMessageRepository Q}.
Variable verkeyToDidKey : string -> string.
Variable getDataAsJson : Attachment -> option EncryptedMessage.
Variable uuid : nat -> string.

Lemma assertReadyConnection_not_ready :
  forall (W T : Type) (messageContext : InboundMessageContext T) (w : W),
    (forall c, connection messageContext = Some c -> isReady c = false) ->
    assertReadyConnection messageContext w = (Err ConnectionNotReady, w).
Proof.
  intros W T messageContext w Hnot. unfold assertReadyConnection.
  destruct (connection messageContext) as [c|]; [|reflexivity].
  rewrite (Hnot c eq_refl). reflexivity.
Qed.

(** Every inbound step of the pickup protocol, and the status handler,
    checks the connection first: without a ready connection the call fails
    with [ConnectionNotReady] and leaves the queue, the events and the id
    counter as they were. *)
Theorem inbound_pickup_fails_fast_without_ready_connection :
  (forall (messageContext : InboundMessageContext V2StatusRequestMessage) (w : World Q),
     (forall c, connection messageContext = Some c -> isReady c = false) ->
     processStatusRequest verkeyToDidKey uuid messageContext w
     = (Err ConnectionNotReady, w))
  /\ (forall (messageContext : InboundMessageContext V2DeliveryRequestMessage)
             (w : World Q),
        (forall c, connection messageContext = Some c -> isReady c = false) ->
        processDeliveryRequest verkeyToDidKey uuid messageContext w
        = (Err ConnectionNotReady, w))
  /\ (forall (messageContext : InboundMessageContext V2MessagesReceivedMessage)
             (w : World Q),
        (forall c, connection messageContext = Some c -> isReady c = false) ->
        processMessagesReceived uuid messageContext w = (Err ConnectionNotReady, w))
  /\ (forall (messageContext : InboundMessageContext V2StatusMessage) (w : World Q),
        (forall c, connection messageContext = Some c -> isReady c = false) ->
        processStatus uuid messageContext w = (Err ConnectionNotReady, w)
        /\ V2StatusHandler_handle uuid messageContext w = (Err ConnectionNotReady, w))
  /\ (forall (messageContext : InboundMessageContext V2MessageDeliveryMessage)
             (w : World Q),
        (forall c, connection messageContext = Some c -> isReady c = false) ->
        processDelivery getDataAsJson uuid messageContext w
        = (Err ConnectionNotReady, w)).
Proof.
  split; [|split; [|split; [|split]]]; intros messageContext w Hnot;
    unfold processStatusRequest, processDeliveryRequest, processMessagesReceived,
           processStatus, V2StatusHandler_handle, processDelivery, bind;
    rewrite (assertReadyConnection_not_ready messageContext w Hnot);
    try split; reflexivity.
Qed.

(** On a ready connection, a delivery whose attachments all decode is
    acknowledged in full: [messageIdList] is the list of attachment ids in
    the order received, one [AgentMessageReceived] event is emitted per
    attachment in that order with its payload and [lastmodTime], and the
    queue is not touched. *)
Theorem processDelivery_acknowledges_every_attachment :
  forall (messageContext : InboundMessageContext V2MessageDeliveryMessage)
         (c : ConnectionRecord) (w : World Q)
         (attachments : list Attachment) (payloads : list EncryptedMessage),
    connection messageContext = Some c ->
    isReady c = true ->
    appendedAttachments (message messageContext) = Some attachments ->
    map getDataAsJson attachments = map Some payloads ->
    processDelivery getDataAsJson uuid messageContext w
    = (Ok {| messagesReceivedId := uuid (uuidCounter w);
             messagesReceivedThid := None;
             messageIdList := map attachmentId attachments |},
       {| queue := queue w;
          emitted :=
            emitted w
            ++ map (fun ap => AgentMessageReceived (snd ap)
                                (contextCorrelationId (agentContext messageContext))
                                (lastmodTime (fst ap)))
                   (combine attachments payloads);
          uuidCounter := S (uuidCounter w) |}).
Proof.
  intros messageContext c w attachments payloads Hc Hr Hattached Hdecoded.
  unfold processDelivery, bind.
  rewrite (PickupProperties.assertReadyConnection_ready messageContext w Hc Hr).
  rewrite Hattached.
  rewrite (@deliverAttachments_decoded _ getDataAsJson (agentContext messageContext)
             attachments payloads [] w Hdecoded).
  reflexivity.
Qed.

(** [processDelivery] is not atomic: when the attachment after a decodable
    prefix cannot be decoded, the call fails with a plain error (not a
    problem report) and acknowledges nothing, yet the events of the prefix
    have already been emitted. *)
Theorem processDelivery_emits_prefix_before_failing :
  forall (messageContext : InboundMessageContext V2MessageDeliveryMessage)
         (c : ConnectionRecord) (w : World Q)
         (decodable : list Attachment) (broken : Attachment)
         (rest : list Attachment) (payloads : list EncryptedMessage),
    connection messageContext = Some c ->
    isReady c = true ->
    appendedAttachments (message messageContext)
      = Some (decodable ++ broken :: rest) ->
    map getDataAsJson decodable = map Some payloads ->
    getDataAsJson broken = None ->
    processDelivery getDataAsJson uuid messageContext w
    = (Err (CredoError "No attachment data found"),
       {| queue := queue w;
          emitted :=
            emitted w
            ++ map (fun ap => AgentMessageReceived (snd ap)
                                (contextCorrelationId (agentContext messageContext))
                                (lastmodTime (fst ap)))
                   (combine decodable payloads);
          uuidCounter := uuidCounter w |}).
Proof.
  intros messageContext c w decodable broken rest payloads
         Hc Hr Hattached Hdecoded Hbroken.
  unfold processDelivery, bind.
  rewrite (PickupProperties.assertReadyConnection_ready messageContext w Hc Hr).
  rewrite Hattached.
  rewrite (@deliverAttachments_app _ getDataAsJson (agentContext messageContext)
             decodable (broken :: rest) payloads [] w Hdecoded).
  cbn. unfold bind, lift. rewrite Hbroken. reflexivity.
Qed.

Lemma toAttachment_decodes :
  forall messages : list QueuedMessage,
    map (fun a => json (data a)) (map toAttachment messages)
    = map Some (map encryptedMessage messages).
Proof.
  intros messages. induction messages as [|m rest IH]; cbn.
  - reflexivity.
  - rewrite IH. reflexivity.
Qed.

Lemma toAttachment_ids :
  forall messages : list QueuedMessage,
    map attachmentId (map toAttachment messages) = map id messages.
Proof.
  intros messages. induction messages as [|m rest IH]; cbn.
  - reflexivity.
  - rewrite IH. reflexivity.
Qed.

Lemma toAttachment_events :
  forall (correlation : string) (messages : list QueuedMessage),
    map (fun ap => AgentMessageReceived (snd ap) correlation (lastmodTime (fst ap)))
        (combine (map toAttachment messages) (map encryptedMessage messages))
    = map (fun m => AgentMessageReceived (encryptedMessage m) correlation (receivedAt m))
          messages.
Proof.
  intros correlation messages. induction messages as [|m rest IH]; cbn.
  - reflexivity.
  - rewrite IH. reflexivity.
Qed.

(** What the holder delivers, the recipient acknowledges. When the queue
    hands [processDeliveryRequest] no message, the answer is a status with
    count zero on the thread of the request. When it hands out messages, the
    answer is a delivery on that thread, and [processDelivery] on that
    delivery emits the encrypted payload of each message in queue order and
    returns exactly the ids of the messages taken. *)
Theorem delivered_messages_are_acknowledged :
  forall (R : Type) (recipientUuid : nat -> string)
         (request : InboundMessageContext V2DeliveryRequestMessage)
         (c : ConnectionRecord) (w : World Q)
         (messages : list QueuedMessage) (q' : Q),
    connection request = Some c ->
    isReady c = true ->
    takeFromQueue
      {| take_connectionId := connectionRecordId c;
         take_recipientDid :=
           recipientDidOf verkeyToDidKey (deliveryRequestRecipientKey (message request));
         take_limit := Some (limit (message request));
         take_keepMessages := None |} (queue w) = (Ok messages, q') ->
    let run := processDeliveryRequest verkeyToDidKey uuid request w in
    let thread :=
      threadIdOf (deliveryRequestId (message request))
                 (deliveryRequestThid (message request)) in
    queue (snd run) = q'
    /\ (messages = [] ->
        exists status,
          fst run = Ok {| outboundMessage := Status status; outboundConnection := c |}
          /\ messageCount status = 0%Z
          /\ statusThid status = Some thread)
    /\ (messages <> [] ->
        exists delivery,
          fst run = Ok {| outboundMessage := Delivery delivery;
                          outboundConnection := c |}
          /\ deliveryThid delivery = Some thread
          /\ forall (inbound : InboundMessageContext V2MessageDeliveryMessage)
                    (rc : ConnectionRecord) (rw : World R),
               message inbound = delivery ->
               connection inbound = Some rc ->
               isReady rc = true ->
               exists received,
                 fst (processDelivery (fun a => json (data a)) recipientUuid inbound rw)
                   = Ok received
                 /\ messageIdList received = map id messages
                 /\ emitted (snd (processDelivery (fun a => json (data a))
                                    recipientUuid inbound rw))
                    = emitted rw
                      ++ map (fun m => AgentMessageReceived (encryptedMessage m)
                                         (contextCorrelationId (agentContext inbound))
                                         (receivedAt m))
                             messages).
Proof.
  intros R recipientUuid request c w messages q' Hc Hr Htake run thread.
  subst run. unfold processDeliveryRequest, bind.
  rewrite (PickupProperties.assertReadyConnection_ready request w Hc Hr).
  unfold onQueue. rewrite Htake. cbn. split; [reflexivity|]. split.
  - intros ->. cbn. eexists. repeat split.
  - intros Hne. destruct messages as [|m rest]; [congruence|]. cbn [List.length Nat.ltb Nat.leb].
    eexists. split; [reflexivity|]. split; [reflexivity|].
    intros inbound rc rw Hmessage Hrc Hrr.
    unfold processDelivery, bind.
    rewrite (PickupProperties.assertReadyConnection_ready inbound rw Hrc Hrr).
    rewrite Hmessage. cbn [appendedAttachments].
    rewrite (@deliverAttachments_decoded _ (fun a => json (data a))
               (agentContext inbound) (map toAttachment (m :: rest))
               (map encryptedMessage (m :: rest)) [] rw
               (toAttachment_decodes (m :: rest))).
    cbn [fst snd]. eexists. split; [reflexivity|]. split.
    + cbn [messageIdList app]. apply toAttachment_ids.
    + cbn [emitted]. rewrite toAttachment_events. reflexivity.
Qed.

(** [createDeliveryMessage] with messages supplied by the caller never reads
    or changes the queue: an empty list answers nothing at all, a non-empty
    one a delivery with one attachment per message, in order, carrying the
    message id, its [receivedAt] and its payload. Without a ready connection
    record it fails before anything else. *)
Theorem createDeliveryMessage_with_given_messages :
  forall (options : DeliverMessagesProtocolOptions) (w : World Q)
         (messages : list QueuedMessage),
    deliverMessages options = Some messages ->
    let run := createDeliveryMessage uuid options w in
    (isReady (deliverConnectionRecord options) = false ->
     run = (Err ConnectionNotReady, w))
    /\ (isReady (deliverConnectionRecord options) = true ->
        queue (snd run) = queue w
        /\ emitted (snd run) = emitted w
        /\ (messages = [] -> fst run = Ok None)
        /\ (messages <> [] ->
            exists delivery,
              fst run = Ok (Some delivery)
              /\ appendedAttachments delivery = Some (map toAttachment messages)
              /\ option_map (map attachmentId) (appendedAttachments delivery)
                 = Some (map id messages))).
Proof.
  intros options w messages Hgiven run. subst run.
  unfold createDeliveryMessage, assertReady, bind. rewrite Hgiven. split.
  - intros ->. reflexivity.
  - intros ->. cbn.
    destruct messages as [|m rest]; cbn.
    + repeat split. intros H. congruence.
    + repeat split; [discriminate|].
      intros _. eexists. split; [reflexivity|]. split; [reflexivity|].
      cbn. rewrite toAttachment_ids. reflexivity.
Qed.

(** [createDeliveryMessage] without given messages asks the queue. On a
    ready connection it performs one [takeFromQueue], for the connection and
    the given recipient, with limit 10 and without [keepMessages]: the queue
    after the call is the one that take leaves and nothing is emitted. A
    failing take fails the call; when the take answers no message there is
    no delivery message; otherwise every taken message is attached, in the
    order the queue answered. *)
Theorem createDeliveryMessage_asks_the_queue_for_ten :
  forall (options : DeliverMessagesProtocolOptions) (w : World Q),
    deliverMessages options = None ->
    isReady (deliverConnectionRecord options) = true ->
    let taken :=
      takeFromQueue
        {| take_connectionId := connectionRecordId (deliverConnectionRecord options);
           take_recipientDid := deliverRecipientKey options;
           take_limit := Some 10%Z;
           take_keepMessages := None |} (queue w) in
    let run := createDeliveryMessage uuid options w in
    queue (snd run) = snd taken
    /\ emitted (snd run) = emitted w
    /\ (forall e, fst taken = Err e -> fst run = Err e)
    /\ (fst taken = Ok [] -> fst run = Ok None)
    /\ (forall messages,
          fst taken = Ok messages ->
          messages <> [] ->
          exists delivery,
            fst run = Ok (Some delivery)
            /\ appendedAttachments delivery = Some (map toAttachment messages)).
Proof.
  intros options w Hnone Hready taken run. subst run taken.
  unfold createDeliveryMessage, assertReady, bind, onQueue.
  rewrite Hnone, Hready. cbn [ret].
  destruct (takeFromQueue _ (queue w)) as [[messages|e] q1]; cbn.
  - destruct messages as [|m rest]; cbn.
    + repeat split; intros; congruence.
    + split; [reflexivity|]. split; [reflexivity|].
      split; [intros e H; discriminate|]. split; [intros H; discriminate|].
      intros messages H _. injection H as <-. eexists. split; reflexivity.
  - split; [reflexivity|]. split; [reflexivity|].
    split; [intros e' H; injection H as <-; reflexivity|].
    split; [intros H; discriminate|].
    intros messages H. discriminate.
Qed.

(** The count the holder answers drives the recipient's next request. On a
    ready connection [processStatusRequest] answers, on the thread of the
    request and with its recipient key, the count the queue repository gives,
    and leaves queue and events untouched. [processStatus] on that answer
    completes the pickup when the count is zero, and otherwise asks for the
    smaller of that count and the maximum batch size, for the same recipient
    key. *)
Theorem status_answer_drives_the_delivery_request :
  forall (R : Type) (recipientUuid : nat -> string)
         (request : InboundMessageContext V2StatusRequestMessage)
         (c : ConnectionRecord) (w : World Q) (n : Z),
    connection request = Some c ->
    isReady c = true ->
    getAvailableMessageCount
      {| count_connectionId := connectionRecordId c;
         count_recipientDid :=
           recipientDidOf verkeyToDidKey (statusRequestRecipientKey (message request)) |}
      (queue w) = Ok n ->
    exists status,
      processStatusRequest verkeyToDidKey uuid request w
      = (Ok {| outboundMessage := status; outboundConnection := c |},
         {| queue := queue w; emitted := emitted w; uuidCounter := S (uuidCounter w) |})
      /\ messageCount status = n
      /\ statusThid status
         = Some (threadIdOf (statusRequestId (message request))
                            (statusRequestThid (message request)))
      /\ forall (inbound : InboundMessageContext V2StatusMessage)
                (rc : ConnectionRecord) (rw : World R),
           message inbound = status ->
           connection inbound = Some rc ->
           isReady rc = true ->
           (n = 0%Z ->
            processStatus recipientUuid inbound rw
            = (Ok None,
               {| queue := queue rw;
                  emitted :=
                    emitted rw
                    ++ [MessagePickupCompleted rc
                          (threadIdOf (statusRequestId (message request))
                                      (statusRequestThid (message request)))];
                  uuidCounter := uuidCounter rw |}))
           /\ (n <> 0%Z ->
               exists deliveryRequest,
                 fst (processStatus recipientUuid inbound rw) = Ok (Some deliveryRequest)
                 /\ limit deliveryRequest
                    = Z.min n (maximumBatchSize
                                 (messagePickupModuleConfig (agentContext inbound)))
                 /\ deliveryRequestRecipientKey deliveryRequest
                    = statusRequestRecipientKey (message request)).
Proof.
  intros R recipientUuid request c w n Hc Hr Hcount.
  unfold processStatusRequest, bind.
  rewrite (PickupProperties.assertReadyConnection_ready request w Hc Hr).
  unfold onQueue. rewrite Hcount. cbn.
  eexists. split; [reflexivity|]. split; [reflexivity|]. split; [reflexivity|].
  intros inbound rc rw Hmessage Hrc Hrr.
  unfold processStatus, bind.
  rewrite (PickupProperties.assertReadyConnection_ready inbound rw Hrc Hrr).
  rewrite Hmessage. cbn [messageCount statusRecipientKey statusId statusThid].
  split.
  - intros ->. cbn. unfold threadIdOf. reflexivity.
  - intros Hn. destruct (Z.eqb_spec n 0) as [|_]; [contradiction|].
    cbn. eexists. split; [reflexivity|]. split; [|reflexivity].
    cbn. destruct (Z.ltb_spec n (maximumBatchSize
                                   (messagePickupModuleConfig (agentContext inbound))));
      lia.
Qed.

End Generic.

Import PickupScenario.

Local Open Scope string_scope.
Local Open Scope list_scope.

Lemma inbound_pickup_fails_fast_without_ready_connection_witness :
  let offline := {| connectionRecordId := "C"; isReady := false |} in
  processDeliveryRequest (fun key => key) sampleUuid
    {| message := message (deliveryRequestOf 10);
       connection := Some offline;
       agentContext := recipient |} holderWorld
  = (Err ConnectionNotReady, holderWorld).
Proof.
  intros offline.
  apply (proj1 (proj2 (@inbound_pickup_fails_fast_without_ready_connection
                         ListQueue listQueue (fun key => key)
                         (fun a => json (data a)) sampleUuid))).
  intros c H. injection H as <-. reflexivity.
Defined.

Lemma processDelivery_acknowledges_every_attachment_witness :
  let attached :=
    [{| attachmentId := firstMessageId;
        lastmodTime := None;
        data := {| json := Some (sealed "first"); base64 := None |} |}] in
  exists received,
    fst (processDelivery (fun a => json (data a)) sampleUuid
           (deliveryOf (Some attached)) emptyWorld) = Ok received
    /\ messageIdList received = [firstMessageId].
Proof.
  intros attached.
  rewrite (@processDelivery_acknowledges_every_attachment
             ListQueue (fun a => json (data a)) sampleUuid
             (deliveryOf (Some attached)) readyConnection emptyWorld
             attached [sealed "first"] eq_refl eq_refl eq_refl eq_refl).
  eexists. split; reflexivity.
Defined.

Lemma processDelivery_emits_prefix_before_failing_witness :
  let decodable :=
    {| attachmentId := firstMessageId;
       lastmodTime := None;
       data := {| json := Some (sealed "first"); base64 := None |} |} in
  let broken :=
    {| attachmentId := laterMessageId 0;
       lastmodTime := None;
       data := {| json := None; base64 := None |} |} in
  let run :=
    processDelivery (fun a => json (data a)) sampleUuid
      (deliveryOf (Some [decodable; broken])) emptyWorld in
  isOk (fst run) = false
  /\ emitted (snd run) = [AgentMessageReceived (sealed "first") "default" None].
Proof.
  intros decodable broken run. subst run.
  rewrite (@processDelivery_emits_prefix_before_failing
             ListQueue (fun a => json (data a)) sampleUuid
             (deliveryOf (Some [decodable; broken])) readyConnection emptyWorld
             [decodable] broken [] [sealed "first"]
             eq_refl eq_refl eq_refl eq_refl eq_refl).
  split; reflexivity.
Defined.

Lemma delivered_messages_are_acknowledged_witness :
  let run :=
    processDeliveryRequest (fun key => key) sampleUuid (deliveryRequestOf 10)
                           holderWorld in
  exists delivery,
    fst run = Ok {| outboundMessage := Delivery delivery;
                    outboundConnection := readyConnection |}
    /\ exists received,
         fst (processDelivery (fun a => json (data a)) sampleUuid
                {| message := delivery;
                   connection := Some readyConnection;
                   agentContext := recipient |}
                emptyWorld) = Ok received
         /\ messageIdList received = [firstMessageId].
Proof.
  intros run.
  destruct (@delivered_messages_are_acknowledged
              ListQueue listQueue (fun key => key) sampleUuid
              ListQueue sampleUuid (deliveryRequestOf 10)
              readyConnection holderWorld
              [{| id := firstMessageId;
                  encryptedMessage := sealed "first";
                  receivedAt := None |}]
              oneQueued
              eq_refl eq_refl eq_refl)
    as [_ [_ Hdelivered]].
  destruct (Hdelivered ltac:(discriminate)) as [delivery [Hrun [_ Hreceived]]].
  exists delivery. split; [exact Hrun|].
  destruct (Hreceived
              {| message := delivery;
                 connection := Some readyConnection;
                 agentContext := recipient |}
              readyConnection emptyWorld eq_refl eq_refl eq_refl)
    as [received [Hok [Hids _]]].
  exists received. split; [exact Hok|exact Hids].
Defined.

Lemma createDeliveryMessage_with_given_messages_witness :
  exists delivery,
    fst (PickupClient.createDeliveryMessage sampleUuid
           {| PickupClient.deliverConnectionRecord := readyConnection;
              PickupClient.deliverRecipientKey := None;
              PickupClient.deliverMessages :=
                Some [{| id := firstMessageId;
                         encryptedMessage := sealed "first";
                         receivedAt := None |}] |}
           emptyWorld) = Ok (Some delivery)
    /\ option_map (map attachmentId) (appendedAttachments delivery)
       = Some [firstMessageId].
Proof.
  destruct (@createDeliveryMessage_with_given_messages
              ListQueue listQueue sampleUuid
              {| PickupClient.deliverConnectionRecord := readyConnection;
                 PickupClient.deliverRecipientKey := None;
                 PickupClient.deliverMessages :=
                   Some [{| id := firstMessageId;
                            encryptedMessage := sealed "first";
                            receivedAt := None |}] |}
              emptyWorld _ eq_refl)
    as [_ Hready].
  destruct (Hready eq_refl) as [_ [_ [_ Hdelivery]]].
  destruct (Hdelivery ltac:(discriminate)) as [delivery [Hrun [_ Hids]]].
  exists delivery. split; [exact Hrun|exact Hids].
Defined.

Lemma createDeliveryMessage_asks_the_queue_for_ten_witness :
  exists delivery,
    fst (PickupClient.createDeliveryMessage sampleUuid
           {| PickupClient.deliverConnectionRecord := readyConnection;
              PickupClient.deliverRecipientKey := None;
              PickupClient.deliverMessages := None |}
           holderWorld) = Ok (Some delivery)
    /\ appendedAttachments delivery = Some [toAttachment firstQueued].
Proof.
  destruct (@createDeliveryMessage_asks_the_queue_for_ten ListQueue listQueue
              sampleUuid
              {| PickupClient.deliverConnectionRecord := readyConnection;
                 PickupClient.deliverRecipientKey := None;
                 PickupClient.deliverMessages := None |}
              holderWorld eq_refl eq_refl)
    as [_ [_ [_ [_ Hdelivered]]]].
  exact (Hdelivered [firstQueued] eq_refl ltac:(discriminate)).
Defined.

Lemma status_answer_drives_the_delivery_request_witness :
  let request :=
    {| message := {| statusRequestId := "status-request-1";
                     statusRequestThid := None;
                     statusRequestRecipientKey := None |};
       connection := Some readyConnection;
       agentContext := recipient |} in
  exists status,
    fst (processStatusRequest (fun key => key) sampleUuid request holderWorld)
    = Ok {| outboundMessage := status; outboundConnection := readyConnection |}
    /\ exists deliveryRequest,
         fst (processStatus sampleUuid
                {| message := status;
                   connection := Some readyConnection;
                   agentContext := recipient |}
                emptyWorld) = Ok (Some deliveryRequest)
         /\ limit deliveryRequest = 1%Z.
Proof.
  intros request.
  destruct (@status_answer_drives_the_delivery_request
              ListQueue listQueue
              (fun key => key) sampleUuid ListQueue sampleUuid
              request readyConnection holderWorld 1%Z eq_refl eq_refl eq_refl)
    as [status [Hrun [_ [_ Hnext]]]].
  exists status. split; [rewrite Hrun; reflexivity|].
  destruct (Hnext {| message := status;
                     connection := Some readyConnection;
                     agentContext := recipient |}
                  readyConnection emptyWorld eq_refl eq_refl eq_refl)
    as [_ Hrequest].
  destruct (Hrequest ltac:(discriminate)) as [deliveryRequest [Hok [Hlimit _]]].
  exists deliveryRequest. split; [exact Hok|exact Hlimit].
Defined.

End PickupFurther.

(* ------------------------------------------------------------------ *)
(** * Properties of the PostgreSQL queue repository *)
(* ------------------------------------------------------------------ *)

Module PostgreSQLFurther.

Import Pickup Pickup.PostgreSQL.

Local Open Scope list_scope.
Local Open Scope string_scope.

Section AnyClient.

Context {D : Type} {client : Client D}.
Variable numberToString : Z -> string.
Variable randomUUID : nat -> string.

Lemma collected_messages :
  forall (rows : list ResultRow),
    snd (collectRows rows)
    = flat_map (fun row =>
                  match get_uuid row, get_payload row with
                  | Some uuid, Some payload =>
                      if truthyString uuid then
                        [{| id := uuid;
                            encryptedMessage := payload;
                            receivedAt := None |}]
                      else []
                  | _, _ => []
                  end) rows.
Proof.
  induction rows as [|row rest IH]; cbn; [reflexivity|].
  destruct (collectRows rest) as [uuids messages]. cbn in IH.
  destruct (get_uuid row) as [u|]; [|exact IH].
  destruct (get_payload row) as [p|]; [|exact IH].
  destruct (truthyString u); [|exact IH].
  cbn. rewrite IH. reflexivity.
Qed.

(** The id [asyncAddMessage] answers is the uuid it bound as the first
    parameter of the INSERT, and it answers it exactly when the database
    accepts the statement; otherwise the call fails with the database's
    error. The connection id and the payload are bound parameters too, so the
    statement text is the same for every message. One uuid is drawn either
    way. *)
Theorem asyncAddMessage_answers_the_bound_uuid :
  forall (options : AddMessageOptions) (drawn : nat) (db : D),
    let inserted :=
      query "INSERT INTO MESSAGES (uuid, connection_id, payload) VALUES ( $1, $2, $3 )"
            [TextParameter (randomUUID drawn);
             TextParameter (add_connectionId options);
             JsonParameter (add_payload options)] db in
    let run := asyncAddMessage randomUUID options (drawn, db) in
    snd run = (S drawn, snd inserted)
    /\ (forall rows, fst inserted = Ok rows -> fst run = Ok (randomUUID drawn))
    /\ (forall e, fst inserted = Err e -> fst run = Err e).
Proof.
  intros options drawn db inserted run. subst inserted run.
  unfold asyncAddMessage, insertStatement.
  destruct (query _ _ db) as [[rows|e] db1]; cbn [fst snd].
  - split; [reflexivity|]. split; [reflexivity|]. intros e H. discriminate.
  - split; [reflexivity|]. split; [intros rows H; discriminate|].
    intros e' H. injection H as <-. reflexivity.
Qed.

(** A take that keeps the messages sends the SELECT and nothing else. It
    answers one message per result row that has a non-empty uuid and a
    payload, in the order the database answered the rows, with the uuid as id
    and without [receivedAt]; the other rows are skipped silently. *)
Theorem asyncTakeFromQueue_keeping_answers_the_usable_rows :
  forall (options : TakeFromQueueOptions) (db db1 : D) (rows : list ResultRow),
    truthyOptBool (take_keepMessages options) = true ->
    query (takeStatement numberToString options) [] db = (Ok rows, db1) ->
    asyncTakeFromQueue numberToString options db
    = (Ok (flat_map (fun row =>
                       match get_uuid row, get_payload row with
                       | Some uuid, Some payload =>
                           if truthyString uuid then
                             [{| id := uuid;
                                 encryptedMessage := payload;
                                 receivedAt := None |}]
                           else []
                       | _, _ => []
                       end) rows), db1).
Proof.
  intros options db db1 rows Hk Hselect.
  unfold asyncTakeFromQueue, bind, ret. rewrite Hselect.
  rewrite <- collected_messages.
  destruct (collectRows rows) as [uuids messages]. rewrite Hk. reflexivity.
Qed.

(** A limit that is absent or [0] asks for every message: the statement ends
    in [LIMIT ALL], and the take is the one without a limit. *)
Theorem asyncTakeFromQueue_zero_limit_takes_all :
  forall (options : TakeFromQueueOptions),
    truthyOptNumber (take_limit options) = false ->
    takeStatement numberToString options
    = "SELECT uuid, connection_id, payload FROM messages WHERE connection_id = '"
      ++ take_connectionId options ++ "' ORDER BY timestamp ASC LIMIT ALL"
    /\ forall (db : D),
         asyncTakeFromQueue numberToString options db
         = asyncTakeFromQueue numberToString
             {| take_connectionId := take_connectionId options;
                take_recipientDid := take_recipientDid options;
                take_limit := None;
                take_keepMessages := take_keepMessages options |} db.
Proof.
  intros options Hl.
  assert (Hs : takeStatement numberToString options
               = "SELECT uuid, connection_id, payload FROM messages WHERE connection_id = '"
                 ++ take_connectionId options ++ "' ORDER BY timestamp ASC LIMIT ALL").
  { unfold takeStatement, messagesToTake. rewrite Hl. reflexivity. }
  split; [exact Hs|].
  intros db. unfold asyncTakeFromQueue. rewrite Hs. reflexivity.
Qed.

(** How a take fails. When the database rejects the SELECT the take fails
    with that error and sends nothing else. When the SELECT answers no usable
    row and the messages are not kept, the take still sends a DELETE, with an
    empty list between the parentheses; it answers the empty list only if
    the database accepts that statement and fails with its error otherwise. *)
Theorem asyncTakeFromQueue_fails_with_the_database :
  forall (options : TakeFromQueueOptions) (db db1 : D),
    (forall e,
       query (takeStatement numberToString options) [] db = (Err e, db1) ->
       asyncTakeFromQueue numberToString options db = (Err e, db1))
    /\ (forall rows,
          truthyOptBool (take_keepMessages options) = false ->
          query (takeStatement numberToString options) [] db = (Ok rows, db1) ->
          snd (collectRows rows) = [] ->
          asyncTakeFromQueue numberToString options db
          = (match fst (query "DELETE FROM MESSAGES WHERE uuid IN (  )" [] db1) with
             | Ok _ => Ok []
             | Err e => Err e
             end,
             snd (query "DELETE FROM MESSAGES WHERE uuid IN (  )" [] db1))).
Proof.
  intros options db db1. split.
  - intros e Hselect. unfold asyncTakeFromQueue, bind. rewrite Hselect. reflexivity.
  - intros rows Hk Hselect Hnone.
    unfold asyncTakeFromQueue, asyncRemoveMessages, bind, ret. rewrite Hselect.
    pose proof (PickupProperties.collectRows_ids rows) as Hids.
    destruct (collectRows rows) as [uuids messages]. cbn [fst snd] in *.
    subst messages. cbn [map] in Hids. subst uuids. rewrite Hk.
    cbv beta iota zeta. cbn [negb remove_messageIds].
    change (removeStatement []) with "DELETE FROM MESSAGES WHERE uuid IN (  )".
    destruct (query "DELETE FROM MESSAGES WHERE uuid IN (  )" [] db1)
      as [[deletedRows|e] db2]; reflexivity.
Qed.

(** What the repository does not look at. [asyncRemoveMessages] deletes by
    uuid alone: the connection id of its options is not part of the
    statement, which lists the ids in the given order, each between single
    quotes. [asyncTakeFromQueue] does not look at the recipient. *)
Theorem asyncRemoveMessages_ignores_the_connection :
  (forall (options other : RemoveMessagesOptions) (db : D),
     remove_messageIds options = remove_messageIds other ->
     asyncRemoveMessages options db = asyncRemoveMessages other db)
  /\ (forall (options : RemoveMessagesOptions) (db : D),
        asyncRemoveMessages options db
        = (match fst (query ("DELETE FROM MESSAGES WHERE uuid IN ( "
                             ++ String.concat ","
                                  (map (fun s => "'" ++ s ++ "'")
                                       (remove_messageIds options))
                             ++ " )") [] db) with
           | Ok _ => Ok tt
           | Err e => Err e
           end,
           snd (query ("DELETE FROM MESSAGES WHERE uuid IN ( "
                       ++ String.concat ","
                            (map (fun s => "'" ++ s ++ "'")
                                 (remove_messageIds options))
                       ++ " )") [] db)))
  /\ (forall (options other : TakeFromQueueOptions) (db : D),
        take_connectionId options = take_connectionId other ->
        take_limit options = take_limit other ->
        take_keepMessages options = take_keepMessages other ->
        asyncTakeFromQueue numberToString options db
        = asyncTakeFromQueue numberToString other db).
Proof.
  split; [|split].
  - intros options other db Hids. unfold asyncRemoveMessages. rewrite Hids.
    reflexivity.
  - intros options db. unfold asyncRemoveMessages, bind, ret.
    change (removeStatement (remove_messageIds options))
      with ("DELETE FROM MESSAGES WHERE uuid IN ( "
            ++ String.concat ","
                 (map (fun s => "'" ++ s ++ "'") (remove_messageIds options))
            ++ " )").
    destruct (query _ [] db) as [[rows|e] db1]; reflexivity.
  - intros options other db Hc Hl Hk.
    unfold asyncTakeFromQueue, takeStatement, messagesToTake.
    rewrite Hc, Hl, Hk. reflexivity.
Qed.

(** A take that does not keep the messages answers them only after the
    database has accepted the DELETE of exactly their ids: whenever it
    succeeds, the SELECT was answered, the messages are the ones collected
    from its rows, and the statement that deletes the ids of these messages
    was sent next and accepted. *)
Theorem asyncTakeFromQueue_answers_only_what_it_deleted :
  forall (options : TakeFromQueueOptions) (db db' : D)
         (messages : list QueuedMessage),
    truthyOptBool (take_keepMessages options) = false ->
    asyncTakeFromQueue numberToString options db = (Ok messages, db') ->
    exists rows db1 deletedRows,
      query (takeStatement numberToString options) [] db = (Ok rows, db1)
      /\ messages = snd (collectRows rows)
      /\ query (removeStatement (map id messages)) [] db1 = (Ok deletedRows, db').
Proof.
  intros options db db' messages Hk.
  unfold asyncTakeFromQueue, asyncRemoveMessages, bind, ret.
  destruct (query (takeStatement numberToString options) [] db)
    as [[rows|e] db1]; [|discriminate].
  pose proof (PickupProperties.collectRows_ids rows) as Hids.
  destruct (collectRows rows) as [uuids collected] eqn:Hcollect.
  cbn [fst snd] in *. subst uuids. rewrite Hk.
  cbv beta iota zeta. cbn [negb remove_messageIds].
  destruct (query (removeStatement (map id collected)) [] db1)
    as [[deletedRows|e] db2] eqn:Hdelete; [|discriminate].
  intros H. injection H as <- <-.
  exists rows, db1, deletedRows. split; [reflexivity|].
  rewrite Hcollect. split; [reflexivity|]. exact Hdelete.
Qed.

End AnyClient.

Import PickupScenario.

Lemma asyncAddMessage_answers_the_bound_uuid_witness :
  PostgreSQL.asyncAddMessage laterMessageId
    {| add_connectionId := "C"; add_payload := sealed "second" |}
    (0%nat, answering [])
  = (Ok (laterMessageId 0),
     (1%nat,
      {| accepts := fun _ => true;
         answered := [];
         sent := ["INSERT INTO MESSAGES (uuid, connection_id, payload) VALUES ( $1, $2, $3 )"] |})).
Proof.
  destruct (@asyncAddMessage_answers_the_bound_uuid Recorder recordingClient
              laterMessageId
              {| add_connectionId := "C"; add_payload := sealed "second" |}
              0%nat (answering []))
    as [Hworld [Hok _]].
  specialize (Hok [] eq_refl).
  destruct (PostgreSQL.asyncAddMessage laterMessageId
              {| add_connectionId := "C"; add_payload := sealed "second" |}
              (0%nat, answering [])) as [answer world].
  cbn [fst snd] in *. rewrite Hok, Hworld. reflexivity.
Defined.

Lemma asyncTakeFromQueue_keeping_answers_the_usable_rows_witness :
  let withoutPayload :=
    {| get_uuid := Some (laterMessageId 0); get_payload := None |} in
  let withoutUuid :=
    {| get_uuid := Some ""; get_payload := Some (sealed "second") |} in
  asyncTakeFromQueue decimal (takeFor "C" (Some 10%Z) (Some true))
    (answering [withoutPayload; firstRow; withoutUuid])
  = (Ok [firstQueued],
     {| accepts := fun _ => true;
        answered := [withoutPayload; firstRow; withoutUuid];
        sent := ["SELECT uuid, connection_id, payload FROM messages WHERE connection_id = 'C' ORDER BY timestamp ASC LIMIT 10"] |}).
Proof.
  intros withoutPayload withoutUuid.
  exact (@asyncTakeFromQueue_keeping_answers_the_usable_rows
           Recorder recordingClient decimal
           (takeFor "C" (Some 10%Z) (Some true))
           (answering [withoutPayload; firstRow; withoutUuid]) _
           [withoutPayload; firstRow; withoutUuid] eq_refl eq_refl).
Defined.

Lemma asyncTakeFromQueue_zero_limit_takes_all_witness :
  takeStatement decimal (takeFor "C" (Some 0%Z) (Some true))
  = "SELECT uuid, connection_id, payload FROM messages WHERE connection_id = 'C' ORDER BY timestamp ASC LIMIT ALL"
  /\ asyncTakeFromQueue decimal (takeFor "C" (Some 0%Z) (Some true))
       (answering [firstRow])
     = asyncTakeFromQueue decimal (takeFor "C" None (Some true))
         (answering [firstRow]).
Proof.
  destruct (@asyncTakeFromQueue_zero_limit_takes_all Recorder recordingClient
              decimal (takeFor "C" (Some 0%Z) (Some true)) eq_refl)
    as [Hstatement Hsame].
  split; [exact Hstatement|exact (Hsame (answering [firstRow]))].
Defined.

Lemma asyncTakeFromQueue_fails_with_the_database_witness :
  asyncTakeFromQueue decimal (takeFor "C" (Some 10%Z) None) (strict [])
  = (Err QueryFailed,
     {| accepts := accepts (strict []);
        answered := [];
        sent := ["SELECT uuid, connection_id, payload FROM messages WHERE connection_id = 'C' ORDER BY timestamp ASC LIMIT 10";
                 "DELETE FROM MESSAGES WHERE uuid IN (  )"] |}).
Proof.
  exact (proj2 (@asyncTakeFromQueue_fails_with_the_database
                  Recorder recordingClient decimal
                  (takeFor "C" (Some 10%Z) None) (strict []) _)
               [] eq_refl eq_refl eq_refl).
Defined.

Lemma asyncRemoveMessages_ignores_the_connection_witness :
  asyncRemoveMessages
    {| remove_connectionId := "C";
       remove_messageIds := [firstMessageId; laterMessageId 0] |} (answering [])
  = asyncRemoveMessages
      {| remove_connectionId := "another connection";
         remove_messageIds := [firstMessageId; laterMessageId 0] |} (answering [])
  /\ sent (snd (asyncRemoveMessages
                  {| remove_connectionId := "C";
                     remove_messageIds := [firstMessageId; laterMessageId 0] |}
                  (answering [])))
     = ["DELETE FROM MESSAGES WHERE uuid IN ( '0b6e1a52-7c7e-4d4b-9a57-3f1d2c8e5a01','0b6e1a52-7c7e-4d4b-9a57-3f1d2c8e5baa' )"].
Proof.
  destruct (@asyncRemoveMessages_ignores_the_connection Recorder recordingClient
              decimal) as [Hsame [Hstatement _]].
  split.
  - exact (Hsame _ _ (answering []) eq_refl).
  - rewrite Hstatement. reflexivity.
Defined.

Lemma asyncTakeFromQueue_answers_only_what_it_deleted_witness :
  exists rows db1 deletedRows,
    query (takeStatement decimal (takeFor "C" (Some 10%Z) None)) []
          (answering [firstRow]) = (Ok rows, db1)
    /\ [firstQueued] = snd (collectRows rows)
    /\ query "DELETE FROM MESSAGES WHERE uuid IN ( '0b6e1a52-7c7e-4d4b-9a57-3f1d2c8e5a01' )"
             [] db1
       = (Ok deletedRows,
          snd (asyncTakeFromQueue decimal (takeFor "C" (Some 10%Z) None)
                 (answering [firstRow]))).
Proof.
  exact (@asyncTakeFromQueue_answers_only_what_it_deleted
           Recorder recordingClient decimal
           (takeFor "C" (Some 10%Z) None) (answering [firstRow]) _
           [firstQueued] eq_refl eq_refl).
Defined.

End PostgreSQLFurther.

(* ------------------------------------------------------------------ *)
(** * Properties of the change converter and of the module configuration *)
(* ------------------------------------------------------------------ *)

Module ChangesAndConfiguration.

Import PostgreSQLChanges.

Local Open Scope string_scope.
Local Open Scope list_scope.

Lemma sameValue_eq :
  forall a b : option string, sameValue a b = true <-> a = b.
Proof.
  intros [x|] [y|]; cbn; split; intros H; try discriminate; try reflexivity.
  - apply String.eqb_eq in H. congruence.
  - injection H as ->. apply String.eqb_refl.
Qed.

Lemma existsb_sameValue :
  forall (v : option string) (seen : list (option string)),
    existsb (sameValue v) seen = true <-> In v seen.
Proof.
  intros v seen. rewrite existsb_exists. split.
  - intros [x [Hin Hsame]]. apply sameValue_eq in Hsame. subst. exact Hin.
  - intros Hin. exists v. split; [exact Hin|apply sameValue_eq; reflexivity].
Qed.

Lemma toSet_in :
  forall (values seen : list (option string)) (v : option string),
    In v (toSet seen values) <-> In v seen \/ In v values.
Proof.
  intros values. induction values as [|x rest IH]; intros seen v; cbn.
  - tauto.
  - destruct (existsb (sameValue x) seen) eqn:Hseen.
    + apply existsb_sameValue in Hseen. rewrite IH.
      split; [tauto|]. intros [H|[<-|H]]; tauto.
    + rewrite IH, in_app_iff. cbn. tauto.
Qed.

Lemma toSet_nodup :
  forall (values seen : list (option string)),
    NoDup seen -> NoDup (toSet seen values).
Proof.
  intros values. induction values as [|x rest IH]; intros seen Hseen; cbn.
  - exact Hseen.
  - destruct (existsb (sameValue x) seen) eqn:Hx.
    + apply IH. exact Hseen.
    + apply IH. apply NoDup_app; [exact Hseen|repeat constructor; intros []|].
      intros a Ha [<-|[]].
      apply existsb_sameValue in Ha. congruence.
Qed.

Lemma findIndex_first :
  forall (p : string -> bool) (names : list string) (idx : nat),
    findIndex p names = Some idx <->
    (exists name, nth_error names idx = Some name /\ p name = true)
    /\ (forall j name, j < idx -> nth_error names j = Some name -> p name = false).
Proof.
  intros p names. induction names as [|n rest IH]; intros idx; cbn.
  - split; [discriminate|]. intros [[name [Hnth _]] _].
    destruct idx; discriminate.
  - destruct (p n) eqn:Hp.
    + split.
      * intros H. injection H as <-. split.
        -- exists n. split; [reflexivity|exact Hp].
        -- intros j name Hj. lia.
      * intros [_ Hfirst]. destruct idx as [|idx]; [reflexivity|].
        specialize (Hfirst 0 n (Nat.lt_0_succ idx) eq_refl). congruence.
    + destruct (findIndex p rest) as [found|] eqn:Hfound; cbn.
      * split.
        -- intros H. injection H as <-.
           destruct (proj1 (IH found) eq_refl) as [Hat Hbefore]. split.
           ++ exact Hat.
           ++ intros j name Hj Hnth. destruct j as [|j]; cbn in Hnth.
              ** congruence.
              ** apply (Hbefore j name); [lia|exact Hnth].
        -- intros [[name [Hnth Hname]] Hbefore].
           destruct idx as [|idx]; cbn in Hnth; [congruence|].
           f_equal. assert (Some found = Some idx) as Heq; [|congruence].
           apply IH. split.
           ++ exists name. split; assumption.
           ++ intros j name' Hj Hnth'. apply (Hbefore (S j) name'); [lia|exact Hnth'].
      * split; [discriminate|].
        intros [[name [Hnth Hname]] Hbefore].
        destruct idx as [|idx]; cbn in Hnth; [congruence|].
        assert (None = Some idx) as Heq; [|discriminate].
        apply IH. split.
        -- exists name. split; assumption.
        -- intros j name' Hj Hnth'. apply (Hbefore (S j) name'); [lia|exact Hnth'].
Qed.

(** [convertCDCMessage] answers each value once, and a connection id is
    answered exactly when some change is an insert into table MESSAGES whose
    value at the position of the first [connection_id] column is that id;
    changes of another kind or table contribute nothing. *)
Theorem convertCDCMessage_collects_inserted_connections :
  forall changes : list Change,
    NoDup (convertCDCMessage changes)
    /\ forall connectionId : string,
         In (Some connectionId) (convertCDCMessage changes)
         <-> exists change idx,
               In change changes
               /\ kind change = "insert"
               /\ table change = "MESSAGES"
               /\ nth_error (columnnames change) idx = Some "connection_id"
               /\ (forall j name, j < idx ->
                     nth_error (columnnames change) j = Some name ->
                     name <> "connection_id")
               /\ nth_error (columnvalues change) idx = Some connectionId.
Proof.
  intros changes. unfold convertCDCMessage. split.
  - apply toSet_nodup. constructor.
  - intros connectionId. rewrite toSet_in, in_map_iff. split.
    + intros [[]|[change [Hvalue Hin]]].
      apply filter_In in Hin. destruct Hin as [Hin Hinsert].
      unfold isMessageInsert in Hinsert. apply andb_true_iff in Hinsert.
      destruct Hinsert as [Hkind Htable].
      apply String.eqb_eq in Hkind, Htable.
      unfold insertedConnectionId in Hvalue.
      destruct (findIndex (fun name => String.eqb name "connection_id")
                          (columnnames change)) as [idx|] eqn:Hidx; [|discriminate].
      apply findIndex_first in Hidx.
      destruct Hidx as [[name [Hnth Hname]] Hbefore].
      apply String.eqb_eq in Hname. subst name.
      exists change, idx. repeat split; try assumption.
      intros j name Hj Hnthj Heq.
      specialize (Hbefore j name Hj Hnthj). subst name. discriminate.
    + intros [change [idx [Hin [Hkind [Htable [Hnth [Hbefore Hvalue]]]]]]].
      right. exists change. split.
      * unfold insertedConnectionId.
        assert (Hidx : findIndex (fun name => String.eqb name "connection_id")
                                 (columnnames change) = Some idx).
        { apply findIndex_first. split.
          - exists "connection_id". split; [exact Hnth|reflexivity].
          - intros j name Hj Hnthj. apply String.eqb_neq.
            apply (Hbefore j name Hj Hnthj). }
        rewrite Hidx. exact Hvalue.
      * apply filter_In. split; [exact Hin|].
        unfold isMessageInsert. rewrite Hkind, Htable. reflexivity.
Qed.

Lemma convertCDCMessage_collects_inserted_connections_witness :
  let inserted :=
    {| kind := "insert";
       table := "MESSAGES";
       columnnames := ["uuid"; "connection_id"; "timestamp"];
       columnvalues := ["0b6e1a52-7c7e-4d4b-9a57-3f1d2c8e5a01"; "C"; "1"] |} in
  let updated :=
    {| kind := "update";
       table := "MESSAGES";
       columnnames := ["uuid"; "connection_id"; "timestamp"];
       columnvalues := ["0b6e1a52-7c7e-4d4b-9a57-3f1d2c8e5a01"; "D"; "2"] |} in
  In (Some "C") (convertCDCMessage [updated; inserted]).
Proof.
  intros inserted updated.
  apply (proj2 (convertCDCMessage_collects_inserted_connections [updated; inserted])
               "C").
  exists inserted, 1. split; [right; left; reflexivity|].
  split; [reflexivity|]. split; [reflexivity|]. split; [reflexivity|].
  split; [|reflexivity].
  intros j name Hj Hnth. destruct j as [|j]; [|lia].
  injection Hnth as <-. discriminate.
Defined.

Section Configuration.

Variable Repository : Type.
Variable inMemory : Repository.
Variable queueEndpoint : string.

(** The [endpoints] getter never answers an empty list: it is the configured
    list when that has an entry, and the queue endpoint alone otherwise, also
    after the setter was given an empty list; a non-empty list given to the
    setter is read back as it is. Without options the configuration uses the
    in-memory queue repository. *)
Theorem endpoints_is_never_empty :
  forall (config : ModuleConfig.DidCommModuleConfig Repository)
         (given : list string),
    ModuleConfig.endpoints queueEndpoint config <> []
    /\ ModuleConfig.endpoints queueEndpoint (ModuleConfig.setEndpoints config given)
       = match given with
         | [] => [queueEndpoint]
         | _ :: _ => given
         end
    /\ ModuleConfig.endpoints queueEndpoint
         (ModuleConfig.newDidCommModuleConfig inMemory None) = [queueEndpoint]
    /\ ModuleConfig.queueTransportMessageRepository
         (ModuleConfig.newDidCommModuleConfig inMemory None) = inMemory.
Proof.
  intros config given. split; [|split; [|split]].
  - unfold ModuleConfig.endpoints.
    destruct (ModuleConfig._endpoints config) as [[|e rest]|]; discriminate.
  - destruct given; reflexivity.
  - reflexivity.
  - reflexivity.
Qed.

End Configuration.

End ChangesAndConfiguration.

(* ------------------------------------------------------------------ *)
(** * Further properties of the issue-credential protocol *)
(* ------------------------------------------------------------------ *)

Module CredentialsFurther.

Import Credentials CredentialsLifecycle.

Local Open Scope string_scope.
Local Open Scope list_scope.

Section Resolution.

Variable registeredFormats : list CredentialFormatService.

Lemma findFrom_first :
  forall (p : CredentialFormatService -> bool)
         (services : list CredentialFormatService) (start i : nat)
         (s : CredentialFormatService),
    findFrom p services start = Some (i, s) <->
    exists k,
      i = start + k
      /\ nth_error services k = Some s
      /\ p s = true
      /\ forall j s', j < k -> nth_error services j = Some s' -> p s' = false.
Proof.
  intros p services. induction services as [|x rest IH]; intros start i s; cbn.
  - split; [discriminate|]. intros [k [_ [Hnth _]]]. destruct k; discriminate.
  - destruct (p x) eqn:Hp.
    + split.
      * intros H. injection H as <- <-. exists 0. repeat split.
        -- lia.
        -- exact Hp.
        -- intros j s' Hj. lia.
      * intros [k [Hi [Hnth [Hs Hbefore]]]]. destruct k as [|k].
        -- cbn in Hnth. injection Hnth as <-. subst i. repeat f_equal. lia.
        -- specialize (Hbefore 0 x (Nat.lt_0_succ k) eq_refl). congruence.
    + rewrite IH. split.
      * intros [k [Hi [Hnth [Hs Hbefore]]]]. exists (S k). repeat split.
        -- lia.
        -- exact Hnth.
        -- exact Hs.
        -- intros j s' Hj Hnthj. destruct j as [|j]; cbn in Hnthj.
           ++ congruence.
           ++ apply (Hbefore j s'); [lia|exact Hnthj].
      * intros [k [Hi [Hnth [Hs Hbefore]]]]. destruct k as [|k]; cbn in Hnth.
        -- congruence.
        -- exists k. repeat split.
           ++ lia.
           ++ exact Hnth.
           ++ exact Hs.
           ++ intros j s' Hj Hnthj. apply (Hbefore (S j) s'); [lia|exact Hnthj].
Qed.

(** The services collected by the [Set] loops of [getFormatServices] and
    [getFormatServicesFromMessage], for any way [resolve] of looking a
    service up in [this.credentialFormats]. *)
Lemma collected_services :
  forall (X : Type) (resolve : X -> option FoundService) (xs : list X)
         (set : list FoundService),
    (forall x i s, resolve x = Some (i, s) -> nth_error registeredFormats i = Some s) ->
    (forall i s, In (i, s) set -> nth_error registeredFormats i = Some s) ->
    NoDup (map fst set) ->
    let found :=
      fold_left (fun formatServices x =>
                   match resolve x with
                   | Some service => setAdd service formatServices
                   | None => formatServices
                   end) xs set in
    NoDup (map fst found)
    /\ (forall i s, In (i, s) found <->
                    In (i, s) set \/ exists x, In x xs /\ resolve x = Some (i, s)).
Proof.
  intros X resolve xs. induction xs as [|x rest IH]; intros set Hresolve Hset Hnodup; cbn.
  - split; [exact Hnodup|]. intros i s. split; [tauto|].
    intros [H|[x [[] _]]]. exact H.
  - destruct (resolve x) as [[p service]|] eqn:Hx.
    + unfold setAdd. cbn [fst].
      destruct (existsb (fun y => Nat.eqb (fst y) p) set) eqn:Hseen.
      * destruct (IH set Hresolve Hset Hnodup) as [Hnd Hin].
        split; [exact Hnd|]. intros i s. rewrite Hin. split.
        -- intros [H|[y [Hy Hr]]]; [left; exact H|].
           right. exists y. split; [right; exact Hy|exact Hr].
        -- intros [H|[y [[<-|Hy] Hr]]]; [left; exact H| |].
           ++ left. rewrite Hx in Hr. injection Hr as <- <-.
              apply existsb_exists in Hseen. destruct Hseen as [[q t] [Hqt Heq]].
              cbn in Heq. apply Nat.eqb_eq in Heq. subst q.
              pose proof (Hset p t Hqt) as Ht.
              pose proof (Hresolve x p service Hx) as Hs.
              assert (t = service) by congruence. subst t. exact Hqt.
           ++ right. exists y. split; assumption.
      * assert (Hnotin : ~ In p (map fst set)).
        { intros Hp. apply in_map_iff in Hp. destruct Hp as [[q t] [Heq Hqt]].
          cbn in Heq. subst q.
          assert (existsb (fun y => Nat.eqb (fst y) p) set = true) as Hseen'.
          { apply existsb_exists. exists (p, t). split; [exact Hqt|].
            cbn. apply Nat.eqb_refl. }
          congruence. }
        destruct (IH (set ++ [(p, service)]) Hresolve) as [Hnd Hin].
        -- intros i s Hi. apply in_app_or in Hi. destruct Hi as [Hi|[Hi|[]]].
           ++ apply Hset. exact Hi.
           ++ injection Hi as <- <-. apply (Hresolve x). exact Hx.
        -- rewrite map_app. cbn. apply NoDup_app.
           ++ exact Hnodup.
           ++ repeat constructor. intros [].
           ++ intros a Ha [<-|[]]. contradiction.
        -- split; [exact Hnd|]. intros i s. rewrite Hin, in_app_iff. cbn. split.
           ++ intros [[H|[H|[]]]|[y [Hy Hr]]].
              ** left. exact H.
              ** right. exists x. split; [left; reflexivity|].
                 rewrite Hx. f_equal. exact H.
              ** right. exists y. split; [right; exact Hy|exact Hr].
           ++ intros [H|[y [[<-|Hy] Hr]]].
              ** left. left. exact H.
              ** left. right. left. rewrite Hx in Hr. injection Hr as <- <-.
                 reflexivity.
              ** right. exists y. split; assumption.
    + destruct (IH set Hresolve Hset Hnodup) as [Hnd Hin].
      split; [exact Hnd|]. intros i s. rewrite Hin. split.
      * intros [H|[y [Hy Hr]]]; [left; exact H|].
        right. exists y. split; [right; exact Hy|exact Hr].
      * intros [H|[y [[<-|Hy] Hr]]]; [left; exact H|congruence|].
        right. exists y. split; assumption.
Qed.

(** Format resolution. The services [getFormatServicesFromMessage] answers
    are distinct; position [i] with service [s] is among them exactly when
    [s] is the first registered service that supports some format of the
    message; and the answer is empty exactly when no registered service
    supports any of the formats. [getFormatServices] does the same by format
    key. *)
Theorem format_services_are_first_registered_matches :
  forall (messageFormats : list DidCommCredentialFormatSpec)
         (payload : CredentialFormatPayload),
    let fromMessage := getFormatServicesFromMessage registeredFormats messageFormats in
    let fromKeys := getFormatServices registeredFormats payload in
    NoDup (map fst fromMessage)
    /\ (forall i s,
          In (i, s) fromMessage <->
          exists spec,
            In spec messageFormats
            /\ nth_error registeredFormats i = Some s
            /\ supportsFormat s (format spec) = true
            /\ forall j s', j < i -> nth_error registeredFormats j = Some s' ->
                            supportsFormat s' (format spec) = false)
    /\ (fromMessage = [] <->
        forall spec s, In spec messageFormats -> In s registeredFormats ->
                       supportsFormat s (format spec) = false)
    /\ NoDup (map fst fromKeys)
    /\ (forall i s,
          In (i, s) fromKeys <->
          exists key,
            In key (map fst payload)
            /\ nth_error registeredFormats i = Some s
            /\ formatKey s = key
            /\ forall j s', j < i -> nth_error registeredFormats j = Some s' ->
                            formatKey s' <> key).
Proof.
  intros messageFormats payload fromMessage fromKeys.
  assert (HresolveM : forall (spec : DidCommCredentialFormatSpec) i s,
            getFormatServiceForFormat registeredFormats (format spec) = Some (i, s) ->
            nth_error registeredFormats i = Some s).
  { intros spec i s H. apply findFrom_first in H.
    destruct H as [k [-> [Hnth _]]]. exact Hnth. }
  assert (HresolveK : forall (key : string) i s,
            getFormatServiceForFormatKey registeredFormats key = Some (i, s) ->
            nth_error registeredFormats i = Some s).
  { intros key i s H. apply findFrom_first in H.
    destruct H as [k [-> [Hnth _]]]. exact Hnth. }
  destruct (@collected_services DidCommCredentialFormatSpec
              (fun spec => getFormatServiceForFormat registeredFormats (format spec))
              messageFormats [] HresolveM (fun i s H => match H with end)
              (NoDup_nil _)) as [HndM HinM].
  destruct (@collected_services string
              (getFormatServiceForFormatKey registeredFormats)
              (map fst payload) [] HresolveK (fun i s H => match H with end)
              (NoDup_nil _)) as [HndK HinK].
  fold (getFormatServicesFromMessage registeredFormats messageFormats) in HndM, HinM.
  fold (getFormatServices registeredFormats payload) in HndK, HinK.
  fold fromMessage in HndM, HinM. fold fromKeys in HndK, HinK.
  assert (HmemberM : forall i s,
            In (i, s) fromMessage <->
            exists spec,
              In spec messageFormats
              /\ nth_error registeredFormats i = Some s
              /\ supportsFormat s (format spec) = true
              /\ forall j s', j < i -> nth_error registeredFormats j = Some s' ->
                              supportsFormat s' (format spec) = false).
  { intros i s. rewrite HinM. split.
    - intros [[]|[spec [Hspec Hr]]]. exists spec. split; [exact Hspec|].
      apply findFrom_first in Hr. destruct Hr as [k [-> H]]. exact H.
    - intros [spec [Hspec H]]. right. exists spec. split; [exact Hspec|].
      apply findFrom_first. exists i. split; [reflexivity|exact H]. }
  split; [exact HndM|]. split; [exact HmemberM|]. split; [|split; [exact HndK|]].
  - split.
    + intros Hempty spec s Hspec Hs.
      destruct (supportsFormat s (format spec)) eqn:Hsupports; [|reflexivity].
      exfalso.
      destruct (getFormatServiceForFormat registeredFormats (format spec))
        as [[i t]|] eqn:Hr.
      * assert (In (i, t) fromMessage) as Hin.
        { apply HinM. right. exists spec. split; assumption. }
        rewrite Hempty in Hin. destruct Hin.
      * unfold getFormatServiceForFormat in Hr.
        clear -Hr Hs Hsupports. revert Hr. generalize 0.
        induction registeredFormats as [|x rest IH]; intros n; cbn; [destruct Hs|].
        destruct Hs as [<-|Hs].
        -- rewrite Hsupports. discriminate.
        -- destruct (supportsFormat x (format spec)); [discriminate|].
           apply IH. exact Hs.
    + intros Hnone.
      assert (Hnil : forall l : list FoundService, (forall x, ~ In x l) -> l = []).
      { intros [|x l] H; [reflexivity|]. exfalso. apply (H x). left. reflexivity. }
      apply Hnil. intros [i s] Hin.
      apply HmemberM in Hin. destruct Hin as [spec [Hspec [Hnth [Hsupports _]]]].
      rewrite (Hnone spec s Hspec (nth_error_In _ _ Hnth)) in Hsupports.
      discriminate.
  - intros i s. rewrite HinK. split.
    + intros [[]|[key [Hkey Hr]]]. exists key. split; [exact Hkey|].
      apply findFrom_first in Hr. destruct Hr as [k [-> [Hnth [Hs Hbefore]]]].
      apply String.eqb_eq in Hs. repeat split; try assumption.
      intros j s' Hj Hnthj. apply String.eqb_neq. apply (Hbefore j s' Hj Hnthj).
    + intros [key [Hkey [Hnth [Hs Hbefore]]]]. right. exists key.
      split; [exact Hkey|]. apply findFrom_first. exists i. repeat split.
      * exact Hnth.
      * apply String.eqb_eq. exact Hs.
      * intros j s' Hj Hnthj. apply String.eqb_neq. apply (Hbefore j s' Hj Hnthj).
Qed.

End Resolution.

Section Generic.

Variable registeredFormats : list CredentialFormatService.
Variable autoAcceptCredentials : DidCommAutoAcceptCredential.
Variable coordinatorBuild :
  CoordinatorStep -> CoordinatorOptions -> M (list DidCommMessageRecord) CredentialMessage.
Variable coordinatorProcess :
  CoordinatorStep -> CoordinatorOptions -> M (list DidCommMessageRecord) unit.
Variable coordinatorCreateRequest :
  CoordinatorOptions -> M (list DidCommMessageRecord) CredentialMessage.
Variable coordinatorProcessCredential :
  CoordinatorOptions -> CredentialMessage -> M (list DidCommMessageRecord) unit.
Variable getAttachmentForService :
  CredentialFormatService -> list DidCommCredentialFormatSpec -> list Attachment
  -> Result Attachment.
Variable assertConnectionOrOutOfBandExchange :
  InboundDidCommMessageContext -> option CredentialMessage -> option CredentialMessage
  -> option string -> Result unit.
Variable assertAckConnectionOrOutOfBandExchange :
  InboundAckContext -> option CredentialMessage -> option CredentialMessage
  -> option string -> Result unit.
Variable matchIncomingMessageToRequestMessageInOutOfBandExchange :
  InboundDidCommMessageContext -> option string -> Result unit.
Variable uuid : nat -> string.

(** Rejections of [acceptProposal], [acceptOffer] and [acceptRequest]. A
    record of another protocol version or state is rejected with
    [InvalidStateTransition]; without a resolvable explicit format, a missing
    received message is [NotFound] and a received message none of whose
    formats is supported is [NoSupportedFormats]; these three leave the world
    untouched. After any failure, also one raised by the coordinator, the
    record store, the events and the identifier counter are as before. *)
Theorem accept_rejections_change_nothing :
  forall (which : AcceptedStep) (options : AcceptOptions) (w : World),
    let record := credentialExchangeRecord options in
    let run := accept registeredFormats coordinatorBuild which options w in
    let requested :=
      getFormatServices registeredFormats (payloadOrEmpty (credentialFormats options)) in
    let received :=
      lookupAgentMessage (id record) (fallbackClass which) (Some Receiver)
                         (didCommMessages w) in
    (protocolVersion record <> "v2" \/ state record <> acceptedFrom which ->
       run = (Err InvalidStateTransition, w))
    /\ (protocolVersion record = "v2" -> state record = acceptedFrom which ->
        requested = [] -> received = None ->
        run = (Err NotFound, w))
    /\ (forall m,
          protocolVersion record = "v2" -> state record = acceptedFrom which ->
          requested = [] -> received = Some m ->
          getFormatServicesFromMessage registeredFormats (formats m) = [] ->
          run = (Err NoSupportedFormats, w))
    /\ (forall e, fst run = Err e ->
          credentialRecords (snd run) = credentialRecords w
          /\ emitted (snd run) = emitted w
          /\ uuidCounter (snd run) = uuidCounter w).
Proof.
  intros which options w record run requested received.
  subst run received.
  destruct which; cbn [acceptedFrom fallbackClass] in *;
    unfold accept, acceptProposal, acceptOffer, acceptRequest, bind,
           assertProtocolVersion, assertState, getAgentMessage, findAgentMessage,
           gets, bind, ret, throw, onMessages;
    fold record; fold requested.
  all: destruct (String.eqb_spec (protocolVersion record) "v2") as [Hv|Hv];
    [|cbn; repeat split; intros; congruence].
  all: match goal with
       | |- context [eqbState (state ?r) ?expected] =>
           destruct (eqbState (state r) expected) eqn:Hs
       end;
    [ apply CredentialsProperties.eqbState_eq in Hs
    | apply not_true_iff_false in Hs;
      rewrite CredentialsProperties.eqbState_eq in Hs;
      cbn; repeat split; intros; congruence ].
  all: destruct requested as [|service services] eqn:Hrequested; cbn [isEmpty].
  all: try (cbv beta iota;
            match goal with
            | |- context [lookupAgentMessage ?i ?c ?r ?ms] =>
                destruct (lookupAgentMessage i c r ms) as [m|] eqn:Hreceived
            end; cbn [fst snd];
            [ destruct (getFormatServicesFromMessage registeredFormats (formats m))
                as [|service services] eqn:Hformats; cbn [isEmpty] | ]).
  all: try match goal with
           | |- context [coordinatorBuild ?step ?asked ?stored] =>
               destruct (coordinatorBuild step asked stored) as [[built|e'] stored']
           end.
  all: cbn; repeat split; intros; try congruence; try tauto.
Qed.

(** What a successful accept call has done. The record handed in had version
    v2 and was in the state the call is valid from; the record answered is
    that record in the next state of the exchange with the auto-accept
    override of the call, else its own; the store holds it under the same id;
    one state-changed event with the previous state follows the earlier
    events; no identifier was drawn; and the message answered was built by
    the coordinator from the explicit formats when one of them resolves, else
    from the formats of the received message. *)
Theorem accept_success_effects :
  forall (which : AcceptedStep) (options : AcceptOptions) (w : World)
         (answer : CredentialProtocolMsgReturnType),
    let record := credentialExchangeRecord options in
    let run := accept registeredFormats coordinatorBuild which options w in
    let requested :=
      getFormatServices registeredFormats (payloadOrEmpty (credentialFormats options)) in
    fst run = Ok answer ->
    protocolVersion record = "v2"
    /\ state record = acceptedFrom which
    /\ returnedRecord answer
       = withState (acceptedTo which)
           (withAutoAccept (orElse (acceptAutoAcceptCredential options)
                                   (autoAcceptCredential record)) record)
    /\ credentialRecords (snd run)
       = map (fun r => if String.eqb (id r) (id record)
                       then returnedRecord answer else r)
             (credentialRecords w)
    /\ emitted (snd run)
       = emitted w ++ [DidCommCredentialStateChanged (returnedRecord answer)
                         (Some (acceptedFrom which))]
    /\ uuidCounter (snd run) = uuidCounter w
    /\ exists used,
         used <> []
         /\ (requested <> [] -> used = requested)
         /\ (requested = [] ->
             exists m,
               lookupAgentMessage (id record) (fallbackClass which) (Some Receiver)
                                  (didCommMessages w) = Some m
               /\ used = getFormatServicesFromMessage registeredFormats (formats m))
         /\ coordinatorBuild (acceptBuiltBy which)
              {| coordinatorRecord := record;
                 coordinatorFormatServices := used;
                 coordinatorCredentialFormats := credentialFormats options;
                 coordinatorMessage := None;
                 coordinatorComment := comment options;
                 coordinatorGoal := goal options;
                 coordinatorGoalCode := goalCode options |}
              (didCommMessages w)
            = (Ok (returnedMessage answer), didCommMessages (snd run)).
Proof.
  intros which options w answer record run requested.
  subst run.
  destruct which; cbn [acceptedFrom acceptedTo fallbackClass acceptBuiltBy] in *;
    unfold accept, acceptProposal, acceptOffer, acceptRequest, bind,
           assertProtocolVersion, assertState, getAgentMessage, findAgentMessage,
           gets, bind, ret, throw, onMessages;
    fold record; fold requested.
  all: destruct (String.eqb_spec (protocolVersion record) "v2") as [Hv|Hv];
    [|cbn; discriminate].
  all: match goal with
       | |- context [eqbState (state ?r) ?expected] =>
           destruct (eqbState (state r) expected) eqn:Hs
       end;
    [ apply CredentialsProperties.eqbState_eq in Hs | cbn; discriminate ].
  all: destruct requested as [|service services] eqn:Hrequested; cbn [isEmpty].
  all: try (cbv beta iota;
            match goal with
            | |- context [lookupAgentMessage ?i ?c ?r ?ms] =>
                destruct (lookupAgentMessage i c r ms) as [m|] eqn:Hreceived
            end; cbn [fst snd]; [|cbn; discriminate];
            destruct (getFormatServicesFromMessage registeredFormats (formats m))
              as [|service services] eqn:Hformats; cbn [isEmpty];
            [cbn; discriminate|]).
  all: match goal with
       | |- context [coordinatorBuild ?step ?asked ?stored] =>
           destruct (coordinatorBuild step asked stored) as [[built|e'] stored'] eqn:Hbuilt
       end; [|cbn; discriminate].
  all: cbn; intros Ha; injection Ha as <-; cbn.
  all: rewrite Hs.
  all: split; [exact Hv|]; split; [reflexivity|].
  all: do 4 (split; [reflexivity|]).
  all: exists (service :: services).
  all: split; [discriminate|]; split; [|split; [|exact Hbuilt]].
  all: try (intros _; reflexivity).
  all: try (intros Hcontra; congruence).
  all: intros _; exists m; split; [reflexivity|symmetry; exact Hformats].
Qed.

Ltac created_exchange :=
  cbv zeta;
  match goal with
  | |- context [isEmpty ?l] =>
      destruct l as [|service services] eqn:Hformats; cbn [isEmpty]
  end;
  [ cbn; repeat split; intros; congruence | ];
  unfold newExchangeRecord, freshUuid, bind, ret, onMessages;
  cbv beta iota; cbn [didCommMessages];
  match goal with
  | |- context [coordinatorBuild ?step ?asked ?stored] =>
      destruct (coordinatorBuild step asked stored) as [[built|e'] stored']
  | |- context [coordinatorCreateRequest ?asked ?stored] =>
      destruct (coordinatorCreateRequest asked stored) as [[built|e'] stored']
  end;
  cbn; repeat split; intros; try congruence;
  match goal with
  | H : Ok _ = Ok _ |- _ => injection H as <-; reflexivity
  end.

(** [createProposal], [createOffer] and [createRequest]. When no key of the
    given formats has a registered service the call fails and the world is as
    before; any other failure leaves the record store and the events as they
    were; a successful call has saved exactly one new record, the one it
    answers, after those of the store, with the connection of the call (none
    for an offer made without connection), the auto-accept setting of the
    call, version v2, and state and role [ProposalSent] as holder, [OfferSent]
    as issuer, [RequestSent] as holder; and it has emitted one state-changed
    event for that record with no previous state. *)
Theorem create_starts_one_exchange :
  (forall (options : BoundCreateOptions) (w : World),
     let run := createProposal registeredFormats coordinatorBuild uuid options w in
     (getFormatServices registeredFormats (boundCredentialFormats options) = [] ->
        run = (Err UnsupportedFormat, w))
     /\ (forall e, fst run = Err e ->
           credentialRecords (snd run) = credentialRecords w
           /\ emitted (snd run) = emitted w)
     /\ (forall answer, fst run = Ok answer ->
           credentialRecords (snd run) = credentialRecords w ++ [returnedRecord answer]
           /\ emitted (snd run)
              = emitted w ++ [DidCommCredentialStateChanged (returnedRecord answer) None]
           /\ connectionId (returnedRecord answer)
              = Some (connectionRecordId (boundConnectionRecord options))
           /\ state (returnedRecord answer) = ProposalSent
           /\ role (returnedRecord answer) = Holder
           /\ autoAcceptCredential (returnedRecord answer)
              = boundAutoAcceptCredential options
           /\ protocolVersion (returnedRecord answer) = "v2"))
  /\ (forall (options : CreateOptions) (w : World),
        let run := createOffer registeredFormats coordinatorBuild uuid options w in
        (getFormatServices registeredFormats (createCredentialFormats options) = [] ->
           run = (Err UnsupportedFormat, w))
        /\ (forall e, fst run = Err e ->
              credentialRecords (snd run) = credentialRecords w
              /\ emitted (snd run) = emitted w)
        /\ (forall answer, fst run = Ok answer ->
              credentialRecords (snd run) = credentialRecords w ++ [returnedRecord answer]
              /\ emitted (snd run)
                 = emitted w ++ [DidCommCredentialStateChanged (returnedRecord answer) None]
              /\ connectionId (returnedRecord answer)
                 = option_map connectionRecordId (createConnectionRecord options)
              /\ state (returnedRecord answer) = OfferSent
              /\ role (returnedRecord answer) = Issuer
              /\ autoAcceptCredential (returnedRecord answer)
                 = createAutoAcceptCredential options
              /\ protocolVersion (returnedRecord answer) = "v2"))
  /\ (forall (options : BoundCreateOptions) (w : World),
        let run := createRequest registeredFormats coordinatorCreateRequest uuid options w in
        (getFormatServices registeredFormats (boundCredentialFormats options) = [] ->
           run = (Err UnsupportedFormat, w))
        /\ (forall e, fst run = Err e ->
              credentialRecords (snd run) = credentialRecords w
              /\ emitted (snd run) = emitted w)
        /\ (forall answer, fst run = Ok answer ->
              credentialRecords (snd run) = credentialRecords w ++ [returnedRecord answer]
              /\ emitted (snd run)
                 = emitted w ++ [DidCommCredentialStateChanged (returnedRecord answer) None]
              /\ connectionId (returnedRecord answer)
                 = Some (connectionRecordId (boundConnectionRecord options))
              /\ state (returnedRecord answer) = RequestSent
              /\ role (returnedRecord answer) = Holder
              /\ autoAcceptCredential (returnedRecord answer)
                 = boundAutoAcceptCredential options
              /\ protocolVersion (returnedRecord answer) = "v2")).
Proof.
  split; [|split]; intros options w run; subst run.
  - unfold createProposal. created_exchange.
  - unfold createOffer. created_exchange.
  - unfold createRequest. created_exchange.
Qed.

Lemma find_after_update :
  forall (p : DidCommCredentialExchangeRecord -> bool)
         (records : list DidCommCredentialExchangeRecord)
         (record record' : DidCommCredentialExchangeRecord),
    find p records = Some record ->
    p record' = true ->
    id record' = id record ->
    find p (map (fun r => if String.eqb (id r) (id record') then record' else r) records)
    = Some record'.
Proof.
  intros p records record record' Hfound Hp Hid.
  induction records as [|r rest IH]; cbn in *; [discriminate|].
  destruct (p r) eqn:Hr.
  - injection Hfound as ->. rewrite Hid, String.eqb_refl. cbn. rewrite Hp. reflexivity.
  - destruct (String.eqb (id r) (id record')).
    + cbn. rewrite Hp. reflexivity.
    + cbn. rewrite Hr. apply IH. exact Hfound.
Qed.

Lemma find_after_save :
  forall (p : DidCommCredentialExchangeRecord -> bool)
         (records : list DidCommCredentialExchangeRecord)
         (record : DidCommCredentialExchangeRecord),
    find p records = None ->
    p record = true ->
    find p (records ++ [record]) = Some record.
Proof.
  intros p records record Hnone Hp.
  induction records as [|r rest IH]; cbn in *.
  - rewrite Hp. reflexivity.
  - destruct (p r); [discriminate|]. apply IH. exact Hnone.
Qed.

(** A message with a supported format whose record is found in another
    state than the predecessor is rejected before anything is written. *)
Lemma replay_is_rejected :
  forall (which : InboundStep) (messageContext : InboundDidCommMessageContext)
         (w : World) (record : DidCommCredentialExchangeRecord),
    getFormatServicesFromMessage registeredFormats
      (formats (message messageContext)) <> [] ->
    find (matchesProperties (messageThreadId (message messageContext))
                            (lookupRole which)
                            (lookupConnection which messageContext))
         (credentialRecords w) = Some record ->
    state record <> predecessor which ->
    process registeredFormats coordinatorProcess
            assertConnectionOrOutOfBandExchange
            matchIncomingMessageToRequestMessageInOutOfBandExchange
            uuid which messageContext w
    = (Err InvalidStateTransition, w).
Proof.
  intros which messageContext w record Hformats Hfound Hstate.
  destruct which; cbn in Hfound, Hstate;
    unfold process, processProposal, processOffer, processRequest,
           findByProperties, findAgentMessage, gets, bind,
           assertProtocolVersion, assertState, lift, ret, throw;
    rewrite Hfound.
  all: destruct (getFormatServicesFromMessage registeredFormats
                   (formats (message messageContext))) as [|service services];
    [congruence|]; cbn [isEmpty].
  all: destruct (String.eqb (protocolVersion record) "v2"); [|reflexivity].
  all: match goal with
       | |- context [eqbState (state ?r) ?expected] =>
           destruct (eqbState (state r) expected) eqn:Hs
       end; [apply CredentialsProperties.eqbState_eq in Hs; congruence|reflexivity].
Qed.

(** A processed message cannot be processed twice. After [processProposal],
    [processOffer] or [processRequest] has succeeded, the record it answers
    has version v2 and is in the state the accept call for that message is
    valid from, the lookup of the same message now finds that record, and
    processing the same message again fails with [InvalidStateTransition]
    and changes nothing. *)
Theorem processed_message_is_not_processed_twice :
  forall (which : InboundStep) (messageContext : InboundDidCommMessageContext)
         (w : World) (answered : DidCommCredentialExchangeRecord),
    let run :=
      process registeredFormats coordinatorProcess
              assertConnectionOrOutOfBandExchange
              matchIncomingMessageToRequestMessageInOutOfBandExchange
              uuid which messageContext w in
    fst run = Ok answered ->
    protocolVersion answered = "v2"
    /\ state answered
       = acceptedFrom match which with
                      | InboundProposal => AcceptingProposal
                      | InboundOffer => AcceptingOffer
                      | InboundRequest => AcceptingRequest
                      end
    /\ find (matchesProperties (messageThreadId (message messageContext))
                               (lookupRole which)
                               (lookupConnection which messageContext))
            (credentialRecords (snd run)) = Some answered
    /\ process registeredFormats coordinatorProcess
               assertConnectionOrOutOfBandExchange
               matchIncomingMessageToRequestMessageInOutOfBandExchange
               uuid which messageContext (snd run)
       = (Err InvalidStateTransition, snd run).
Proof.
  intros which messageContext w answered run Hrun.
  assert (Hshape :
            getFormatServicesFromMessage registeredFormats
              (formats (message messageContext)) <> []
            /\ protocolVersion answered = "v2"
            /\ state answered
               = acceptedFrom match which with
                              | InboundProposal => AcceptingProposal
                              | InboundOffer => AcceptingOffer
                              | InboundRequest => AcceptingRequest
                              end
            /\ find (matchesProperties (messageThreadId (message messageContext))
                                       (lookupRole which)
                                       (lookupConnection which messageContext))
                    (credentialRecords (snd run)) = Some answered).
  { subst run. revert Hrun.
    destruct (find (matchesProperties (messageThreadId (message messageContext))
                                      (lookupRole which)
                                      (lookupConnection which messageContext))
                   (credentialRecords w)) as [record|] eqn:Hfound.
    - pose proof (find_some _ _ Hfound) as [_ Hmatches].
      destruct which; cbn [lookupRole lookupConnection acceptedFrom] in *;
        unfold process, processProposal, processOffer, processRequest,
               findByProperties, findAgentMessage, gets, bind,
               assertProtocolVersion, assertState, lift, ret, throw;
        rewrite Hfound.
      all: destruct (getFormatServicesFromMessage registeredFormats
                       (formats (message messageContext))) as [|service services];
        cbn [isEmpty]; [cbn; discriminate|].
      all: destruct (String.eqb_spec (protocolVersion record) "v2") as [Hv|Hv];
        [|cbn; discriminate].
      all: match goal with
           | |- context [eqbState (state ?r) ?expected] =>
               destruct (eqbState (state r) expected) eqn:Hs
           end; [|cbn; discriminate].
      all: destruct (assertConnectionOrOutOfBandExchange _ _ _ _) as [[]|e];
        [|cbn; discriminate].
      all: try (destruct (truthyOptString (connectionId record)); cbn [negb];
                [|destruct (matchIncomingMessageToRequestMessageInOutOfBandExchange _ _)
                    as [[]|e]; [|cbn; discriminate]]).
      all: unfold onMessages.
      all: match goal with
           | |- context [coordinatorProcess ?step ?options ?stored] =>
               destruct (coordinatorProcess step options stored) as [[[]|e] stored']
           end; [|cbn; discriminate].
      all: cbn; intros Ha; injection Ha as <-.
      all: split; [discriminate|]; split; [exact Hv|]; split; [reflexivity|].
      all: match goal with
           | |- find ?p (map (fun r => if _ then ?new else r) ?stored) = _ =>
               apply (@find_after_update p stored record new Hfound);
               [exact Hmatches|reflexivity]
           end.
    - destruct which; cbn [lookupRole lookupConnection acceptedFrom] in *;
        unfold process, processProposal, processOffer, processRequest,
               findByProperties, findAgentMessage, gets, bind,
               assertProtocolVersion, assertState, lift, ret, throw;
        rewrite Hfound.
      all: destruct (getFormatServicesFromMessage registeredFormats
                       (formats (message messageContext))) as [|service services];
        cbn [isEmpty]; [cbn; discriminate|].
      all: destruct (assertConnectionOrOutOfBandExchange _ _ _ _) as [[]|e];
        [|cbn; discriminate].
      all: unfold freshUuid, onMessages.
      all: match goal with
           | |- context [coordinatorProcess ?step ?options ?stored] =>
               destruct (coordinatorProcess step options stored) as [[[]|e] stored']
           end; [|cbn; discriminate].
      all: cbn; intros Ha; injection Ha as <-.
      all: split; [discriminate|]; split; [reflexivity|]; split; [reflexivity|].
      all: apply find_after_save; [exact Hfound|].
      all: unfold matchesProperties; cbn; rewrite String.eqb_refl; cbn.
      all: try reflexivity.
      all: destruct (connectionIdOf messageContext) as [c|] eqn:Hc; cbn;
        [apply String.eqb_refl|reflexivity]. }
  destruct Hshape as [Hformats [Hv [Hstate Hfind]]].
  split; [exact Hv|]. split; [exact Hstate|]. split; [exact Hfind|].
  apply (@replay_is_rejected which messageContext (snd run) answered Hformats Hfind).
  rewrite Hstate. destruct which; discriminate.
Qed.

Lemma matchesProperties_thread :
  forall t r c record,
    matchesProperties t r c record = true -> threadId record = t.
Proof.
  intros t r c record H. unfold matchesProperties in H.
  apply andb_prop in H. destruct H as [H _].
  apply andb_prop in H. destruct H as [H _].
  apply String.eqb_eq. exact H.
Qed.

Lemma processCredential_outcomes :
  forall (messageContext : InboundDidCommMessageContext) (w : World),
    let run :=
      processCredential registeredFormats coordinatorProcessCredential
                        assertConnectionOrOutOfBandExchange messageContext w in
    let stored :=
      find (matchesProperties (messageThreadId (message messageContext)) Holder
                              (connectionIdOf messageContext))
           (credentialRecords w) in
    map id (credentialRecords (snd run)) = map id (credentialRecords w)
    /\ (stored = None -> isOk (fst run) = false /\ snd run = w)
    /\ (forall answered, fst run = Ok answered ->
          exists record requestMessage,
            stored = Some record
            /\ protocolVersion record = "v2"
            /\ state record = RequestSent
            /\ lookupAgentMessage (id record) V2RequestCredentialMessage (Some Sender)
                                  (didCommMessages w) = Some requestMessage
            /\ getFormatServicesFromMessage registeredFormats
                 (formats (message messageContext)) <> []
            /\ answered = withState CredentialReceived record
            /\ credentialRecords (snd run)
               = map (fun r => if String.eqb (id r) (id record) then answered else r)
                     (credentialRecords w)
            /\ emitted (snd run)
               = emitted w ++ [DidCommCredentialStateChanged answered (Some RequestSent)]).
Proof.
  intros messageContext w run stored. subst run stored.
  unfold processCredential, getByProperties, findByProperties, getAgentMessage,
         findAgentMessage, gets, bind, assertProtocolVersion, assertState, lift,
         ret, throw, onMessages.
  cbv beta iota.
  destruct (find (matchesProperties (messageThreadId (message messageContext)) Holder
                                    (connectionIdOf messageContext))
                 (credentialRecords w)) as [record|] eqn:Hfound;
    [|cbn; repeat split; intros; congruence].
  cbv beta iota.
  destruct (lookupAgentMessage (id record) V2RequestCredentialMessage (Some Sender)
                               (didCommMessages w)) as [requestMessage|] eqn:Hrequest;
    [|cbn; repeat split; intros; congruence].
  cbv beta iota.
  destruct (String.eqb_spec (protocolVersion record) "v2") as [Hv|Hv];
    [|cbn; repeat split; intros; congruence].
  cbv beta iota.
  destruct (eqbState (state record) RequestSent) eqn:Hs;
    [apply CredentialsProperties.eqbState_eq in Hs
    |cbn; repeat split; intros; congruence].
  cbv beta iota.
  destruct (assertConnectionOrOutOfBandExchange _ _ _ _) as [[]|e];
    [|cbn; repeat split; intros; congruence].
  cbv beta iota.
  destruct (getFormatServicesFromMessage registeredFormats
              (formats (message messageContext))) as [|service services] eqn:Hformats;
    cbn [isEmpty]; [cbn; repeat split; intros; congruence|].
  match goal with
  | |- context [coordinatorProcessCredential ?asked ?request ?held] =>
      destruct (coordinatorProcessCredential asked request held) as [[[]|e] stored']
  end; [|cbn; repeat split; intros; congruence].
  cbn. split; [|split].
  - exact (CredentialsProperties.updated_ids (withState CredentialReceived record)
             (credentialRecords w)).
  - discriminate.
  - intros answered Ha. injection Ha as <-.
    exists record, requestMessage. rewrite Hs.
    repeat split; try assumption; try reflexivity. discriminate.
Qed.

Lemma processCredential_succeeds :
  forall (messageContext : InboundDidCommMessageContext) (w : World)
         (record : DidCommCredentialExchangeRecord)
         (requestMessage : CredentialMessage)
         (stored' : list DidCommMessageRecord),
    find (matchesProperties (messageThreadId (message messageContext)) Holder
                            (connectionIdOf messageContext))
         (credentialRecords w) = Some record ->
    lookupAgentMessage (id record) V2RequestCredentialMessage (Some Sender)
                       (didCommMessages w) = Some requestMessage ->
    protocolVersion record = "v2" ->
    state record = RequestSent ->
    assertConnectionOrOutOfBandExchange messageContext
      (lookupAgentMessage (id record) V2OfferCredentialMessage (Some Receiver)
                          (didCommMessages w))
      (Some requestMessage) (connectionId record) = Ok tt ->
    getFormatServicesFromMessage registeredFormats
      (formats (message messageContext)) <> [] ->
    coordinatorProcessCredential
      {| coordinatorRecord := record;
         coordinatorFormatServices :=
           getFormatServicesFromMessage registeredFormats
             (formats (message messageContext));
         coordinatorCredentialFormats := None;
         coordinatorMessage := Some (message messageContext);
         coordinatorComment := None;
         coordinatorGoal := None;
         coordinatorGoalCode := None |}
      requestMessage (didCommMessages w) = (Ok tt, stored') ->
    fst (processCredential registeredFormats coordinatorProcessCredential
                           assertConnectionOrOutOfBandExchange messageContext w)
    = Ok (withState CredentialReceived record).
Proof.
  intros messageContext w record requestMessage stored'
         Hfound Hrequest Hversion Hstate Hconnection Hformats Hprocessed.
  unfold processCredential, getByProperties, findByProperties, getAgentMessage,
         findAgentMessage, gets, bind, assertProtocolVersion, assertState, lift,
         ret, throw, onMessages.
  cbv beta iota. rewrite Hfound. cbv beta iota. rewrite Hrequest. cbv beta iota.
  rewrite Hversion, Hstate, String.eqb_refl. cbn [eqbState]. cbv beta iota.
  rewrite Hconnection. cbv beta iota zeta.
  destruct (getFormatServicesFromMessage registeredFormats
              (formats (message messageContext))) as [|service services];
    [congruence|].
  cbn [isEmpty]. cbv beta iota. rewrite Hprocessed. reflexivity.
Qed.

(** [processCredential] never creates a record: whatever the outcome, the
    store holds the same record ids; without a holder record on the thread of
    the message it fails and changes nothing. A successful call found such a
    record, of version v2 and in [RequestSent], together with the request
    this agent sent for it; the credential had a supported format; and the
    record answered is that record in [CredentialReceived], stored under the
    same id, with one state-changed event from [RequestSent]. Conversely,
    when such a record and its sent request are stored, the connection
    assertion passes, the credential has a supported format and the format
    coordinator accepts it, the call succeeds with that record in
    [CredentialReceived]. *)
Theorem processCredential_completes_a_sent_request :
  forall (messageContext : InboundDidCommMessageContext) (w : World),
    let run :=
      processCredential registeredFormats coordinatorProcessCredential
                        assertConnectionOrOutOfBandExchange messageContext w in
    let stored :=
      find (matchesProperties (messageThreadId (message messageContext)) Holder
                              (connectionIdOf messageContext))
           (credentialRecords w) in
    map id (credentialRecords (snd run)) = map id (credentialRecords w)
    /\ (stored = None -> isOk (fst run) = false /\ snd run = w)
    /\ (forall answered, fst run = Ok answered ->
          exists record requestMessage,
            stored = Some record
            /\ protocolVersion record = "v2"
            /\ state record = RequestSent
            /\ lookupAgentMessage (id record) V2RequestCredentialMessage (Some Sender)
                                  (didCommMessages w) = Some requestMessage
            /\ getFormatServicesFromMessage registeredFormats
                 (formats (message messageContext)) <> []
            /\ answered = withState CredentialReceived record
            /\ credentialRecords (snd run)
               = map (fun r => if String.eqb (id r) (id record) then answered else r)
                     (credentialRecords w)
            /\ emitted (snd run)
               = emitted w ++ [DidCommCredentialStateChanged answered (Some RequestSent)])
    /\ (forall record requestMessage stored',
          stored = Some record ->
          lookupAgentMessage (id record) V2RequestCredentialMessage (Some Sender)
                             (didCommMessages w) = Some requestMessage ->
          protocolVersion record = "v2" ->
          state record = RequestSent ->
          assertConnectionOrOutOfBandExchange messageContext
            (lookupAgentMessage (id record) V2OfferCredentialMessage (Some Receiver)
                                (didCommMessages w))
            (Some requestMessage) (connectionId record) = Ok tt ->
          getFormatServicesFromMessage registeredFormats
            (formats (message messageContext)) <> [] ->
          coordinatorProcessCredential
            {| coordinatorRecord := record;
               coordinatorFormatServices :=
                 getFormatServicesFromMessage registeredFormats
                   (formats (message messageContext));
               coordinatorCredentialFormats := None;
               coordinatorMessage := Some (message messageContext);
               coordinatorComment := None;
               coordinatorGoal := None;
               coordinatorGoalCode := None |}
            requestMessage (didCommMessages w) = (Ok tt, stored') ->
          fst run = Ok (withState CredentialReceived record)).
Proof.
  intros messageContext w run stored.
  destruct (processCredential_outcomes messageContext w) as [Hids [Hnone Hsuccess]].
  split; [exact Hids|]. split; [exact Hnone|]. split; [exact Hsuccess|].
  intros record requestMessage stored' Hfound.
  exact (@processCredential_succeeds messageContext w record requestMessage stored'
           Hfound).
Qed.

Lemma processCredential_answer_shape :
  forall (messageContext : InboundDidCommMessageContext) (w : World)
         (answered : DidCommCredentialExchangeRecord),
    fst (processCredential registeredFormats coordinatorProcessCredential
                           assertConnectionOrOutOfBandExchange messageContext w)
    = Ok answered ->
    protocolVersion answered = "v2"
    /\ state answered = CredentialReceived
    /\ threadId answered = messageThreadId (message messageContext).
Proof.
  intros messageContext w answered.
  unfold processCredential, getByProperties, findByProperties, getAgentMessage,
         findAgentMessage, gets, bind, assertProtocolVersion, assertState, lift,
         ret, throw, onMessages.
  cbv beta iota.
  destruct (find (matchesProperties (messageThreadId (message messageContext)) Holder
                                    (connectionIdOf messageContext))
                 (credentialRecords w)) as [record|] eqn:Hfound;
    [|cbn; discriminate].
  cbv beta iota.
  destruct (lookupAgentMessage (id record) V2RequestCredentialMessage (Some Sender)
                               (didCommMessages w)) as [requestMessage|];
    [|cbn; discriminate].
  cbv beta iota.
  destruct (String.eqb_spec (protocolVersion record) "v2") as [Hv|Hv];
    [|cbn; discriminate].
  cbv beta iota.
  destruct (eqbState (state record) RequestSent); [|cbn; discriminate].
  cbv beta iota.
  destruct (assertConnectionOrOutOfBandExchange _ _ _ _) as [[]|e];
    [|cbn; discriminate].
  cbv beta iota.
  destruct (getFormatServicesFromMessage registeredFormats
              (formats (message messageContext))) as [|service services];
    cbn [isEmpty]; [cbn; discriminate|].
  match goal with
  | |- context [coordinatorProcessCredential ?asked ?request ?held] =>
      destruct (coordinatorProcessCredential asked request held) as [[[]|e] stored']
  end; [|cbn; discriminate].
  cbn. intros Ha. injection Ha as <-. cbn.
  split; [exact Hv|]. split; [reflexivity|].
  apply find_some in Hfound. destruct Hfound as [_ Hmatches].
  apply (matchesProperties_thread _ _ _ _ Hmatches).
Qed.

(** A received credential is acknowledged on its own thread. On the record
    [processCredential] answers, [acceptCredential] succeeds: the
    acknowledgement has status OK and the thread id of the credential
    message, and the record is stored in [Done]. On every record that is not
    a v2 record in [CredentialReceived], [acceptCredential] fails with
    [InvalidStateTransition] and changes nothing. *)
Theorem acceptCredential_acknowledges_the_processed_credential :
  (forall (messageContext : InboundDidCommMessageContext) (w : World)
          (answered : DidCommCredentialExchangeRecord),
     let processed :=
       processCredential registeredFormats coordinatorProcessCredential
                         assertConnectionOrOutOfBandExchange messageContext w in
     fst processed = Ok answered ->
     exists acknowledged,
       fst (acceptCredential uuid answered (snd processed)) = Ok acknowledged
       /\ ackStatus (ackReturnedMessage acknowledged) = AckOK
       /\ ackThreadId (ackReturnedMessage acknowledged)
          = messageThreadId (message messageContext)
       /\ id (ackReturnedRecord acknowledged) = id answered
       /\ state (ackReturnedRecord acknowledged) = Done
       /\ credentialRecords (snd (acceptCredential uuid answered (snd processed)))
          = map (fun r => if String.eqb (id r) (id answered)
                          then ackReturnedRecord acknowledged else r)
                (credentialRecords (snd processed)))
  /\ (forall (record : DidCommCredentialExchangeRecord) (w : World),
        protocolVersion record <> "v2" \/ state record <> CredentialReceived ->
        acceptCredential uuid record w = (Err InvalidStateTransition, w)).
Proof.
  split.
  - intros messageContext w answered processed Hprocessed.
    destruct (@processCredential_answer_shape messageContext w
                answered Hprocessed) as [Hv [Hs Ht]].
    unfold acceptCredential, bind, assertProtocolVersion, assertState, ret, throw.
    rewrite Hv, Hs. cbn. eexists. repeat split. cbn. exact Ht.
  - intros record w Hwrong.
    unfold acceptCredential, bind, assertProtocolVersion, assertState, ret, throw.
    destruct (String.eqb_spec (protocolVersion record) "v2") as [Hv|Hv];
      [|reflexivity].
    destruct (eqbState (state record) CredentialReceived) eqn:Hs; [|reflexivity].
    apply CredentialsProperties.eqbState_eq in Hs. destruct Hwrong; contradiction.
Qed.

(** [processAck] binds the record to the connection the acknowledgement
    arrived on. A successful call found an issuer record on the thread of the
    acknowledgement, of version v2 and in [CredentialIssued], with the
    request it received and the credential it sent; the record answered and
    stored is that record in [Done] with the connection id of the inbound
    message, so an acknowledgement that arrives without a connection erases
    the connection id of the record. A failed call changes nothing. *)
Theorem processAck_rebinds_the_connection :
  forall (messageContext : InboundAckContext) (w : World),
    let run := processAck assertAckConnectionOrOutOfBandExchange messageContext w in
    let inboundConnectionId :=
      option_map connectionRecordId (ackConnection messageContext) in
    (forall e, fst run = Err e -> snd run = w)
    /\ (forall answered, fst run = Ok answered ->
          exists record requestMessage credentialMessage,
            find (matchesProperties (ackThreadId (inboundAck messageContext)) Issuer
                                    inboundConnectionId)
                 (credentialRecords w) = Some record
            /\ protocolVersion record = "v2"
            /\ state record = CredentialIssued
            /\ lookupAgentMessage (id record) V2RequestCredentialMessage
                 (Some Receiver) (didCommMessages w) = Some requestMessage
            /\ lookupAgentMessage (id record) V2IssueCredentialMessage
                 (Some Sender) (didCommMessages w) = Some credentialMessage
            /\ assertAckConnectionOrOutOfBandExchange messageContext
                 (Some requestMessage) (Some credentialMessage) inboundConnectionId
               = Ok tt
            /\ answered = withState Done (withConnectionId inboundConnectionId record)
            /\ connectionId answered = inboundConnectionId
            /\ credentialRecords (snd run)
               = map (fun r => if String.eqb (id r) (id record) then answered else r)
                     (credentialRecords w)
            /\ emitted (snd run)
               = emitted w ++ [DidCommCredentialStateChanged answered
                                 (Some CredentialIssued)]).
Proof.
  intros messageContext w run inboundConnectionId. subst run.
  unfold processAck, getByProperties, findByProperties, getAgentMessage,
         findAgentMessage, gets, bind, assertProtocolVersion, assertState, lift,
         ret, throw.
  fold inboundConnectionId. cbv beta iota.
  destruct (find (matchesProperties (ackThreadId (inboundAck messageContext)) Issuer
                                    inboundConnectionId)
                 (credentialRecords w)) as [record|] eqn:Hfound;
    [|cbn; split; intros; congruence].
  cbv beta iota. cbn [id withConnectionId protocolVersion state connectionId].
  destruct (lookupAgentMessage (id record) V2RequestCredentialMessage (Some Receiver)
                               (didCommMessages w)) as [requestMessage|] eqn:Hrequest;
    [|cbn; split; intros; congruence].
  cbv beta iota.
  destruct (lookupAgentMessage (id record) V2IssueCredentialMessage (Some Sender)
                               (didCommMessages w)) as [credentialMessage|] eqn:Hcredential;
    [|cbn; split; intros; congruence].
  cbv beta iota.
  destruct (String.eqb_spec (protocolVersion record) "v2") as [Hv|Hv];
    [|cbn; split; intros; congruence].
  cbv beta iota.
  destruct (eqbState (state record) CredentialIssued) eqn:Hs;
    [apply CredentialsProperties.eqbState_eq in Hs
    |cbn; split; intros; congruence].
  cbv beta iota.
  destruct (assertAckConnectionOrOutOfBandExchange messageContext
              (Some requestMessage) (Some credentialMessage) inboundConnectionId)
    as [[]|e] eqn:Hconnection;
    [|cbn; split; intros; congruence].
  cbn. split; [discriminate|].
  intros answered Ha. injection Ha as <-.
  exists record, requestMessage, credentialMessage. rewrite Hs.
  repeat split; assumption.
Qed.

(** The preview rule of [shouldAutoRespondToProposal]. Under
    [ContentApproved] a true answer means that the offer this agent stored
    for the record exists, that proposal and offer either both lack a
    preview or both carry one, and that in the second case the attributes of
    the two previews are equal. *)
Theorem shouldAutoRespondToProposal_needs_matching_previews :
  forall (record : DidCommCredentialExchangeRecord)
         (proposalMessage : CredentialMessage) (w : World),
    composeAutoAccept (autoAcceptCredential record) autoAcceptCredentials
    = ContentApproved ->
    fst (shouldAutoRespondToProposal registeredFormats autoAcceptCredentials
           getAttachmentForService record proposalMessage w) = Ok true ->
    exists offerMessage,
      lookupAgentMessage (id record) V2OfferCredentialMessage None (didCommMessages w)
      = Some offerMessage
      /\ hasPreview proposalMessage = hasPreview offerMessage
      /\ (hasPreview proposalMessage = true ->
          arePreviewAttributesEqual (previewAttributes proposalMessage)
                                    (previewAttributes offerMessage) = true).
Proof.
  intros record proposalMessage w Hpolicy.
  unfold shouldAutoRespondToProposal, findOfferMessage, findAgentMessage, gets,
         bind, lift, ret.
  rewrite Hpolicy. cbv beta iota.
  destruct (lookupAgentMessage (id record) V2OfferCredentialMessage None
                               (didCommMessages w)) as [offerMessage|];
    [|cbn; discriminate].
  cbv beta iota zeta.
  destruct (allFormatsRespond _ _) as [[|]|e]; cbn [negb fst];
    [|cbn; discriminate|cbn; discriminate].
  destruct (hasPreview proposalMessage) eqn:Hp, (hasPreview offerMessage) eqn:Ho;
    cbn; try discriminate; intros H; exists offerMessage; rewrite Ho;
    (split; [reflexivity|split; [reflexivity|]]);
    [intros _; congruence|discriminate].
Qed.

(** Content approval is vacuous when no format of the stored message is
    supported. Under [ContentApproved], if the stored counterpart message
    exists but none of its formats has a registered service, no format
    service is consulted: the decision is the preview comparison alone, so
    [shouldAutoRespondToRequest] and [shouldAutoRespondToCredential] answer
    true. *)
Theorem content_approval_without_supported_format_consults_nothing :
  forall (which : AutoResponse) (record : DidCommCredentialExchangeRecord)
         (inbound prior : CredentialMessage) (w : World),
    composeAutoAccept (autoAcceptCredential record) autoAcceptCredentials
    = ContentApproved ->
    lookupAgentMessage (id record) (priorClass which) None (didCommMessages w)
    = Some prior ->
    getFormatServicesFromMessage registeredFormats (formats prior) = [] ->
    shouldAutoRespond registeredFormats autoAcceptCredentials
                      getAttachmentForService which record inbound w
    = (Ok (previewDecision which inbound prior), w)
    /\ (which = ToRequest \/ which = ToCredential ->
        shouldAutoRespond registeredFormats autoAcceptCredentials
                          getAttachmentForService which record inbound w
        = (Ok true, w)).
Proof.
  intros which record inbound prior w Hpolicy Hprior Hformats.
  assert (Hrun : shouldAutoRespond registeredFormats autoAcceptCredentials
                   getAttachmentForService which record inbound w
                 = (Ok (previewDecision which inbound prior), w)).
  { destruct which; cbn [priorClass] in Hprior;
      unfold shouldAutoRespond, shouldAutoRespondToProposal, shouldAutoRespondToOffer,
             shouldAutoRespondToRequest, shouldAutoRespondToCredential,
             findOfferMessage, findProposalMessage, findRequestMessage,
             findAgentMessage, gets, bind, lift, ret;
      rewrite Hpolicy; cbv beta iota; rewrite Hprior; cbv beta iota zeta;
      rewrite Hformats; cbn;
      repeat match goal with
             | |- context [if ?b then _ else _] => destruct b; cbn
             end; reflexivity. }
  split; [exact Hrun|].
  intros [->| ->]; exact Hrun.
Qed.

(** Outcomes of [negotiateProposal] and [negotiateOffer]. The version and
    state of the record are checked before its connection: a record of
    another version or state is rejected with [InvalidStateTransition] also
    when it has no connection. On a connected record in the right state,
    formats none of whose keys has a registered service are rejected with
    [UnsupportedFormat]. Every failure leaves the record store and the events
    as they were. A successful call answers the record in the state of the
    counter-message sent, with the auto-accept setting of the call, else its
    own, stores it under the same id and emits one state-changed event; the
    counter-message is the one the coordinator built for the services of the
    given formats. *)
Theorem negotiate_outcomes :
  forall (which : Negotiation) (options : NegotiateOptions) (w : World),
    let record := negotiateRecord options in
    let run := negotiate registeredFormats coordinatorBuild which options w in
    let formatServices :=
      getFormatServices registeredFormats (negotiateCredentialFormats options) in
    (protocolVersion record <> "v2" \/ state record <> negotiatedFrom which ->
       run = (Err InvalidStateTransition, w))
    /\ (protocolVersion record = "v2" -> state record = negotiatedFrom which ->
        truthyOptString (connectionId record) = true ->
        formatServices = [] ->
        run = (Err UnsupportedFormat, w))
    /\ (forall e, fst run = Err e ->
          credentialRecords (snd run) = credentialRecords w
          /\ emitted (snd run) = emitted w)
    /\ (forall answer, fst run = Ok answer ->
          truthyOptString (connectionId record) = true
          /\ formatServices <> []
          /\ returnedRecord answer
             = withState (negotiatedTo which)
                 (withAutoAccept (orElse (negotiateAutoAcceptCredential options)
                                         (autoAcceptCredential record)) record)
          /\ credentialRecords (snd run)
             = map (fun r => if String.eqb (id r) (id record)
                             then returnedRecord answer else r)
                   (credentialRecords w)
          /\ emitted (snd run)
             = emitted w ++ [DidCommCredentialStateChanged (returnedRecord answer)
                               (Some (negotiatedFrom which))]
          /\ coordinatorBuild (negotiationBuiltBy which)
               {| coordinatorRecord := record;
                  coordinatorFormatServices := formatServices;
                  coordinatorCredentialFormats :=
                    Some (negotiateCredentialFormats options);
                  coordinatorMessage := None;
                  coordinatorComment := negotiateComment options;
                  coordinatorGoal := negotiateGoal options;
                  coordinatorGoalCode := negotiateGoalCode options |}
               (didCommMessages w)
             = (Ok (returnedMessage answer), didCommMessages (snd run))).
Proof.
  intros which options w record run formatServices. subst run.
  destruct which;
    cbn [negotiatedFrom negotiatedTo negotiationBuiltBy] in *;
    unfold negotiate, negotiateProposal, negotiateOffer, bind,
           assertProtocolVersion, assertState, ret, throw, onMessages;
    fold record; fold formatServices.
  all: destruct (String.eqb_spec (protocolVersion record) "v2") as [Hv|Hv];
    [|cbn; repeat split; intros; congruence].
  all: match goal with
       | |- context [eqbState (state ?r) ?expected] =>
           destruct (eqbState (state r) expected) eqn:Hs
       end;
    [ apply CredentialsProperties.eqbState_eq in Hs
    | apply not_true_iff_false in Hs;
      rewrite CredentialsProperties.eqbState_eq in Hs;
      cbn; repeat split; intros; congruence ].
  all: cbv beta iota.
  all: destruct (truthyOptString (connectionId record)) eqn:Hconnected; cbn [negb];
    [|cbn; repeat split; intros; try congruence; tauto].
  all: destruct formatServices as [|service services] eqn:Hformats; cbn [isEmpty];
    [cbn; repeat split; intros; try congruence; tauto|].
  all: match goal with
       | |- context [coordinatorBuild ?step ?asked ?stored] =>
           destruct (coordinatorBuild step asked stored) as [[built|e'] stored'] eqn:Hbuilt
       end;
    [|cbn; repeat split; intros; try congruence; tauto].
  all: cbn; rewrite Hs.
  all: split; [intros [H|H]; congruence|].
  all: split; [intros; congruence|].
  all: split; [intros; congruence|].
  all: intros answer Ha; injection Ha as <-; cbn.
  all: repeat split; try reflexivity; try discriminate; exact Hbuilt.
Qed.

End Generic.

Import CredentialsScenario.

Lemma format_services_are_first_registered_matches_witness :
  In (1, serviceFor "F2")
     (getFormatServicesFromMessage registered (formats requestReceived)).
Proof.
  destruct (@format_services_are_first_registered_matches registered
              (formats requestReceived) [])
    as [_ [Hmember _]].
  apply Hmember.
  exists {| attachmentId := "F2"; format := "fmt/F2" |}.
  split; [right; left; reflexivity|].
  split; [reflexivity|]. split; [reflexivity|].
  intros j s' Hj Hnth. destruct j as [|j]; [|lia].
  injection Hnth as <-. reflexivity.
Defined.

Lemma accept_rejections_change_nothing_witness :
  acceptRequest registered recordingBuild (acceptWithoutFormats issuerRecord)
                (worldOf [issuerRecord] [])
  = (Err NotFound, worldOf [issuerRecord] []).
Proof.
  apply (proj1 (proj2 (@accept_rejections_change_nothing registered recordingBuild
                         AcceptingRequest (acceptWithoutFormats issuerRecord)
                         (worldOf [issuerRecord] [])))
               eq_refl eq_refl eq_refl eq_refl).
Defined.

Lemma accept_success_effects_witness :
  exists answer,
    fst (acceptRequest registered recordingBuild (acceptWithoutFormats issuerRecord)
                       issuerWorld) = Ok answer
    /\ returnedRecord answer
       = withState CredentialIssued (withAutoAccept None issuerRecord)
    /\ emitted (snd (acceptRequest registered recordingBuild
                       (acceptWithoutFormats issuerRecord) issuerWorld))
       = [DidCommCredentialStateChanged (returnedRecord answer)
            (Some RequestReceived)].
Proof.
  eexists. split; [reflexivity|].
  destruct (@accept_success_effects registered recordingBuild AcceptingRequest
              (acceptWithoutFormats issuerRecord) issuerWorld _ eq_refl)
    as [_ [_ [Hrecord [_ [Hevents _]]]]].
  split; [exact Hrecord|exact Hevents].
Defined.

Lemma create_starts_one_exchange_witness :
  let offering keys :=
    {| createConnectionRecord := None;
       createCredentialFormats := map (fun key => (key, "payload")) keys;
       createAutoAcceptCredential := None;
       createComment := None;
       createGoal := None;
       createGoalCode := None |} in
  (exists answer,
     fst (createOffer registered recordingBuild sampleUuid (offering ["F1"])
            (worldOf [] [])) = Ok answer
     /\ credentialRecords
          (snd (createOffer registered recordingBuild sampleUuid (offering ["F1"])
                  (worldOf [] []))) = [returnedRecord answer]
     /\ state (returnedRecord answer) = OfferSent
     /\ role (returnedRecord answer) = Issuer
     /\ connectionId (returnedRecord answer) = None)
  /\ createOffer registered recordingBuild sampleUuid (offering ["F9"]) (worldOf [] [])
     = (Err UnsupportedFormat, worldOf [] []).
Proof.
  intros offering.
  pose proof (proj1 (proj2 (@create_starts_one_exchange registered recordingBuild
                              (recordingBuild AcceptOffer) sampleUuid)))
    as Hoffer.
  split.
  - eexists. split; [reflexivity|].
    destruct (proj2 (proj2 (Hoffer (offering ["F1"]) (worldOf [] []))) _ eq_refl)
      as [Hrecords [_ [Hconnection [Hstate [Hrole _]]]]].
    split; [exact Hrecords|]. split; [exact Hstate|]. split; [exact Hrole|].
    exact Hconnection.
  - exact (proj1 (Hoffer (offering ["F9"]) (worldOf [] [])) eq_refl).
Defined.

Lemma processed_message_is_not_processed_twice_witness :
  let offer := messageOf V2OfferCredentialMessage ["F1"] "data" None in
  let first :=
    processOffer registered recordingProcess anyConnection sampleUuid
                 (inboundOn (Some "C") offer) (worldOf [] []) in
  processOffer registered recordingProcess anyConnection sampleUuid
               (inboundOn (Some "C") offer) (snd first)
  = (Err InvalidStateTransition, snd first).
Proof.
  intros offer first.
  destruct (@processed_message_is_not_processed_twice registered recordingProcess
              anyConnection anySender sampleUuid InboundOffer
              (inboundOn (Some "C") offer) (worldOf [] []) _ eq_refl)
    as [_ [_ [_ Hreplay]]].
  exact Hreplay.
Defined.

Lemma processCredential_completes_a_sent_request_witness :
  fst (processCredential registered storingCredential anyConnection
         (inboundOn (Some "C") credentialIssued) requestingWorld)
  = Ok (withState CredentialReceived requestingRecord)
  /\ credentialRecords
       (snd (processCredential registered storingCredential anyConnection
               (inboundOn (Some "C") credentialIssued) requestingWorld))
     = [withState CredentialReceived requestingRecord]
  /\ snd (processCredential registered storingCredential anyConnection
            (inboundOn (Some "C") credentialIssued) (worldOf [] []))
     = worldOf [] [].
Proof.
  destruct (@processCredential_completes_a_sent_request registered storingCredential
              anyConnection (inboundOn (Some "C") credentialIssued) requestingWorld)
    as [_ [_ [Hsuccess Hprogress]]].
  pose proof (Hprogress requestingRecord _ _ eq_refl eq_refl eq_refl eq_refl eq_refl
                ltac:(discriminate) eq_refl) as Hrun.
  split; [exact Hrun|]. split.
  - destruct (Hsuccess _ Hrun) as [record [requestMessage H]].
    destruct H as [Hstored [_ [_ [_ [_ [_ [Hrecords _]]]]]]].
    rewrite Hrecords. injection Hstored as <-. reflexivity.
  - exact (proj2 (proj1 (proj2 (@processCredential_completes_a_sent_request
                                  registered storingCredential anyConnection
                                  (inboundOn (Some "C") credentialIssued)
                                  (worldOf [] [])))
                        eq_refl)).
Defined.

Lemma acceptCredential_acknowledges_the_processed_credential_witness :
  (exists acknowledged,
     fst (acceptCredential sampleUuid (withState CredentialReceived requestingRecord)
            (snd (processCredential registered storingCredential anyConnection
                    (inboundOn (Some "C") credentialIssued) requestingWorld)))
     = Ok acknowledged
     /\ ackStatus (ackReturnedMessage acknowledged) = AckOK
     /\ ackThreadId (ackReturnedMessage acknowledged) = "T"
     /\ state (ackReturnedRecord acknowledged) = Done)
  /\ acceptCredential sampleUuid issuerRecord issuerWorld
     = (Err InvalidStateTransition, issuerWorld).
Proof.
  destruct (@acceptCredential_acknowledges_the_processed_credential registered
              storingCredential anyConnection sampleUuid)
    as [Hprocessed Hrejected].
  split.
  - destruct (Hprocessed (inboundOn (Some "C") credentialIssued) requestingWorld
                (withState CredentialReceived requestingRecord) eq_refl)
      as [acknowledged [Hrun [Hstatus [Hthread [_ [Hstate _]]]]]].
    exists acknowledged. split; [exact Hrun|]. split; [exact Hstatus|].
    split; [exact Hthread|exact Hstate].
  - apply Hrejected. right. discriminate.
Defined.

Lemma processAck_rebinds_the_connection_witness :
  let issued := recordOf "record-1" (Some "C") Issuer CredentialIssued None in
  let w :=
    worldOf [issued]
      [{| associatedRecordId := "record-1"; messageRole := Receiver;
          agentMessage := requestReceived |};
       {| associatedRecordId := "record-1"; messageRole := Sender;
          agentMessage := messageOf V2IssueCredentialMessage ["F1"] "data" None |}] in
  let inbound :=
    {| inboundAck := {| ackId := "ack-1"; ackStatus := AckOK;
                        ackThreadId := "T"; ackParentThreadId := None |};
       ackConnection := None |} in
  exists answered,
    fst (processAck (fun _ _ _ _ => Ok tt) inbound w) = Ok answered
    /\ connectionId issued = Some "C"
    /\ connectionId answered = None.
Proof.
  intros issued w inbound. eexists. split; [reflexivity|].
  destruct (proj2 (@processAck_rebinds_the_connection (fun _ _ _ _ => Ok tt)
                     inbound w) _ eq_refl)
    as [record [requestMessage [credentialMessage H]]].
  split; [reflexivity|].
  exact (proj1 (proj2 (proj2 (proj2 (proj2 (proj2 (proj2 (proj2 H)))))))).
Defined.

Lemma shouldAutoRespondToProposal_needs_matching_previews_witness :
  let issuer :=
    recordOf "record-2" (Some "C") Issuer ProposalReceived (Some ContentApproved) in
  let offer :=
    messageOf V2OfferCredentialMessage ["F1"] "data"
      (previewOf [attribute "name" "John"; attribute "age" "99"]) in
  let proposal :=
    messageOf V2ProposeCredentialMessage ["F1"] "data"
      (previewOf [attribute "age" "99"; attribute "name" "John"]) in
  let w :=
    worldOf [issuer]
      [{| associatedRecordId := "record-2"; messageRole := Sender;
          agentMessage := offer |}] in
  fst (shouldAutoRespondToProposal registered Never attachmentByFormat issuer
         proposal w) = Ok true
  /\ exists offerMessage,
       lookupAgentMessage "record-2" V2OfferCredentialMessage None (didCommMessages w)
       = Some offerMessage
       /\ hasPreview proposal = true
       /\ hasPreview offerMessage = true
       /\ arePreviewAttributesEqual (previewAttributes proposal)
                                    (previewAttributes offerMessage) = true.
Proof.
  intros issuer offer proposal w.
  split; [reflexivity|].
  destruct (@shouldAutoRespondToProposal_needs_matching_previews registered Never
              attachmentByFormat issuer proposal w eq_refl eq_refl)
    as [offerMessage [Hstored [Hpreview Hequal]]].
  exists offerMessage. split; [exact Hstored|]. split; [reflexivity|].
  split; [rewrite <- Hpreview; reflexivity|exact (Hequal eq_refl)].
Defined.

Lemma content_approval_without_supported_format_consults_nothing_witness :
  let issuer :=
    recordOf "record-1" (Some "C") Issuer RequestReceived (Some ContentApproved) in
  let offer := messageOf V2OfferCredentialMessage ["F9"] "data" None in
  let request := messageOf V2RequestCredentialMessage ["F1"] "other data" None in
  let w :=
    worldOf [issuer]
      [{| associatedRecordId := "record-1"; messageRole := Sender;
          agentMessage := offer |}] in
  shouldAutoRespondToRequest registered Never attachmentByFormat issuer request w
  = (Ok true, w).
Proof.
  intros issuer offer request w.
  apply (proj2 (@content_approval_without_supported_format_consults_nothing
                  registered Never attachmentByFormat ToRequest issuer request
                  offer w eq_refl eq_refl eq_refl)).
  left. reflexivity.
Defined.

Lemma negotiate_outcomes_witness :
  let connectionless := recordOf "record-3" None Issuer OfferSent None in
  negotiateProposal registered recordingBuild (negotiateWith connectionless)
                    (worldOf [connectionless] [])
  = (Err InvalidStateTransition, worldOf [connectionless] []).
Proof.
  intros connectionless.
  apply (proj1 (@negotiate_outcomes registered recordingBuild NegotiatingProposal
                  (negotiateWith connectionless) (worldOf [connectionless] []))).
  right. discriminate.
Defined.

End CredentialsFurther.
